(** * TradeTracker analytics: a shallow embedding of the dashboard's
      statistics code and the properties of its specification.

    The analytics live inside React components (TradingReport, GrowthChart,
    ChartPanel, RiskModel, RiskOfRuin, PeriodsComparison, MAEMFEChart,
    AdvancedStats, HourlyChart, DailyStats, WeeklyChart, GoalTracker,
    DurationChart).  Each [useMemo] body is embedded here as a function of
    the component's props and of what it samples itself: the host's clock
    and the draws of [Math.random()].

    Numbers.  Trade fields and balances arrive as JSON numbers, hence are
    finite; they are taken as exact rationals ([Q]).  Sums and products of
    finite values stay in [Q].  Wherever the source divides, takes a power
    or a logarithm, the result is a [number]: an exact rational or one of the
    IEEE special values the JavaScript operation yields (Infinity,
    -Infinity, NaN).  Rounding of binary floating point and the sign of zero
    are outside this model. *)

From Stdlib Require Import QArith Qabs Qround Qpower ZArith List Bool Lia Lqa.
From Stdlib Require Import Permutation Sorted String Ascii DecimalString.
Import ListNotations.
Open Scope Q_scope.

(** ** Boolean comparisons on rationals *)

Definition Qltb (x y : Q) : bool := negb (Qle_bool y x).
Definition Qgtb (x y : Q) : bool := Qltb y x.
Definition Qgeb (x y : Q) : bool := Qle_bool y x.

(** [Math.max] and [Math.min] on finite numbers. *)
Definition Qmax (a b : Q) : Q := if Qle_bool a b then b else a.
Definition Qmin (a b : Q) : Q := if Qle_bool a b then a else b.

(** ** JavaScript numbers with the IEEE special values *)

Inductive number : Type :=
| Fin (q : Q)
| PInf
| NInf
| NaN.

Module JS.

(** [a + b] *)
Definition add (a b : number) : number :=
  match a, b with
  | NaN, _ | _, NaN => NaN
  | PInf, NInf | NInf, PInf => NaN
  | PInf, _ | _, PInf => PInf
  | NInf, _ | _, NInf => NInf
  | Fin x, Fin y => Fin (x + y)
  end.

(** [-a] *)
Definition neg (a : number) : number :=
  match a with
  | Fin x => Fin (- x)
  | PInf => NInf
  | NInf => PInf
  | NaN => NaN
  end.

(** [a - b] *)
Definition sub (a b : number) : number :=
  match a, b with
  | NaN, _ | _, NaN => NaN
  | PInf, PInf | NInf, NInf => NaN
  | PInf, _ | _, NInf => PInf
  | NInf, _ | _, PInf => NInf
  | Fin x, Fin y => Fin (x - y)
  end.

(** Sign of a number that is not NaN: [Gt], [Eq] or [Lt] against zero. *)
Definition sign (a : number) : option comparison :=
  match a with
  | Fin x => Some (x ?= 0)
  | PInf => Some Gt
  | NInf => Some Lt
  | NaN => None
  end.

Definition inf_of (c : comparison) : number :=
  match c with
  | Gt => PInf
  | Lt => NInf
  | Eq => NaN
  end.

Definition sign_mul (c d : comparison) : comparison :=
  match c, d with
  | Eq, _ | _, Eq => Eq
  | Gt, Gt | Lt, Lt => Gt
  | _, _ => Lt
  end.

(** [a * b]: an infinity times zero is NaN. *)
Definition mul (a b : number) : number :=
  match a, b with
  | Fin x, Fin y => Fin (x * y)
  | _, _ =>
      match sign a, sign b with
      | Some c, Some d => inf_of (sign_mul c d)
      | _, _ => NaN
      end
  end.

(** [a / b]: a finite non-zero value over zero is an infinity, [0 / 0] and
    [Infinity / Infinity] are NaN, a finite value over an infinity is 0. *)
Definition div (a b : number) : number :=
  match a, b with
  | NaN, _ | _, NaN => NaN
  | Fin x, Fin y =>
      if Qeq_bool y 0 then inf_of (x ?= 0) else Fin (x / y)
  | Fin _, _ => Fin 0
  | _, Fin y =>
      match sign a with
      | Some c => inf_of (sign_mul c (if Qltb y 0 then Lt else Gt))
      | None => NaN
      end
  | _, _ => NaN
  end.

(** [Math.abs] *)
Definition abs (a : number) : number :=
  match a with
  | Fin x => Fin (Qabs x)
  | PInf | NInf => PInf
  | NaN => NaN
  end.

(** [a < b]; every comparison with NaN is false. *)
Definition lt (a b : number) : bool :=
  match a, b with
  | NaN, _ | _, NaN => false
  | Fin x, Fin y => Qltb x y
  | NInf, NInf | PInf, _ | _, NInf => false
  | NInf, _ | _, PInf => true
  end.

Definition gt (a b : number) : bool := lt b a.

(** [a <= b] *)
Definition le (a b : number) : bool :=
  match a, b with
  | NaN, _ | _, NaN => false
  | Fin x, Fin y => Qle_bool x y
  | NInf, _ | _, PInf => true
  | PInf, _ | _, NInf => false
  end.

Definition ge (a b : number) : bool := le b a.

(** [Math.min] and [Math.max]: NaN if an argument is NaN. *)
Definition min (a b : number) : number :=
  match a, b with
  | NaN, _ | _, NaN => NaN
  | _, _ => if le a b then a else b
  end.

Definition max (a b : number) : number :=
  match a, b with
  | NaN, _ | _, NaN => NaN
  | _, _ => if le a b then b else a
  end.

(** [Math.ceil] *)
Definition ceil (a : number) : number :=
  match a with
  | Fin x => Fin (inject_Z (Qceiling x))
  | _ => a
  end.

(** [isFinite] *)
Definition isFinite (a : number) : bool :=
  match a with
  | Fin _ => true
  | _ => false
  end.

(** The integer a finite value denotes, if it denotes one. *)
Definition as_integer (x : Q) : option Z :=
  if Qeq_bool (inject_Z (Qfloor x)) x then Some (Qfloor x) else None.

(** [Math.pow b e].  Cases follow ECMAScript's Number::exponentiate.  A
    positive base (other than 1) raised to a finite exponent that is not an
    integer is irrational in general; that case has no exact rational value
    and is mapped to NaN here.  The embedded components reach [pow] only
    with integer exponents (see [RiskModel_trades_integer]) or go through
    [RiskOfRuin.Root10]. *)
Definition pow (b e : number) : number :=
  match e with
  | NaN => NaN
  | Fin y =>
      if Qeq_bool y 0 then Fin 1 else
      match b with
      | NaN => NaN
      | PInf => if Qltb 0 y then PInf else Fin 0
      | NInf =>
          match as_integer y with
          | Some n => if Z.odd n
                      then (if Qltb 0 y then NInf else Fin 0)
                      else (if Qltb 0 y then PInf else Fin 0)
          | None => if Qltb 0 y then PInf else Fin 0
          end
      | Fin x =>
          match as_integer y with
          | Some n =>
              if Qeq_bool x 0 && (n <? 0)%Z then PInf else Fin (Qpower x n)
          | None =>
              if Qeq_bool x 0 then (if Qltb 0 y then Fin 0 else PInf)
              else if Qeq_bool x 1 then Fin 1
              else NaN
          end
      end
  | PInf =>
      match b with
      | NaN => NaN
      | PInf => PInf
      | NInf => PInf
      | Fin x =>
          match Qabs x ?= 1 with
          | Gt => PInf
          | Eq => NaN
          | Lt => Fin 0
          end
      end
  | NInf =>
      match b with
      | NaN => NaN
      | PInf | NInf => Fin 0
      | Fin x =>
          match Qabs x ?= 1 with
          | Gt => Fin 0
          | Eq => NaN
          | Lt => PInf
          end
      end
  end.

(** [Math.round]: the nearest integer, halves rounded up. *)
Definition round (x : Q) : Q := inject_Z (Qfloor (x + (1 # 2))).

(** [xs.reduce((a, b) => a + b, init)] *)
Definition sum (init : number) (xs : list number) : number := fold_left add xs init.

(** Equality of numbers up to equality of the rationals they carry. *)
Definition eqv (a b : number) : Prop :=
  match a, b with
  | Fin x, Fin y => x == y
  | PInf, PInf | NInf, NInf | NaN, NaN => True
  | _, _ => False
  end.

(** The same as a test: [a === b] on numbers that are not NaN. *)
Definition eqb (a b : number) : bool :=
  match a, b with
  | Fin x, Fin y => Qeq_bool x y
  | PInf, PInf | NInf, NInf => true
  | _, _ => false
  end.

End JS.

(** ** The trade record ([lib/types.ts]) *)

Inductive TradeType : Type := BUY | SELL.

(** [time] is the instant [new Date(t.time).getTime()] denotes, in
    milliseconds since the epoch. *)
Record Trade : Type := mkTrade {
  ticket : Z;
  time : Z;
  symbol : string;
  type : TradeType;
  volume : Q;
  net_profit : Q
}.

(** [sum + t.net_profit] folded from [0]. *)
Definition sum_net_profit (ts : list Trade) : Q :=
  fold_left (fun s t => s + net_profit t) ts 0.

(** ** [trades.slice().sort((a, b) => time(a) - time(b))]

    [Array.prototype.sort] is stable: trades with equal times keep their
    order.  Insertion from the right gives the same order. *)

Fixpoint insertByTime (t : Trade) (sorted : list Trade) : list Trade :=
  match sorted with
  | [] => [t]
  | u :: rest =>
      if (time t <=? time u)%Z then t :: sorted
      else u :: insertByTime t rest
  end.

Fixpoint sortByTime (ts : list Trade) : list Trade :=
  match ts with
  | [] => []
  | t :: rest => insertByTime t (sortByTime rest)
  end.

(** ** TradingReport: the [metrics] memo *)

Module TradingReport.

(** *** Basic sums *)

Definition grossProfit (trades : list Trade) : Q :=
  fold_left (fun sum t => sum + net_profit t)
            (filter (fun t => Qgtb (net_profit t) 0) trades) 0.

Definition grossLoss (trades : list Trade) : Q :=
  fold_left (fun sum t => sum + net_profit t)
            (filter (fun t => Qltb (net_profit t) 0) trades) 0.

(** *** Balance over time *)

Record BalancePoint : Type := mkBalancePoint {
  fullDate : Z;
  balance : Q;
  profit : Q
}.

(** One call of the [map] callback: [runningBalance += t.net_profit], then
    the point with both amounts rounded to cents. *)
Definition balance_step (runningBalance : Q) (t : Trade) : Q * BalancePoint :=
  let runningBalance := runningBalance + net_profit t in
  (runningBalance,
   mkBalancePoint (time t)
                  (JS.round (runningBalance * 100) / 100)
                  (JS.round (net_profit t * 100) / 100)).

(** The [map] over the sorted trades, threading [runningBalance]. *)
Fixpoint balance_pass (runningBalance : Q) (ts : list Trade)
  : Q * list BalancePoint :=
  match ts with
  | [] => (runningBalance, [])
  | t :: rest =>
      let '(rb, p) := balance_step runningBalance t in
      let '(final, ps) := balance_pass rb rest in
      (final, p :: ps)
  end.

(** [runningBalance] after the pass, and [balanceData]. *)
Definition runningBalance_final (initialBalance : Q) (trades : list Trade) : Q :=
  fst (balance_pass initialBalance (sortByTime trades)).

Definition balanceData (initialBalance : Q) (trades : list Trade)
  : list BalancePoint :=
  snd (balance_pass initialBalance (sortByTime trades)).

(** *** Drawdown *)

Record DDState : Type := mkDD {
  dd_running : Q;
  dd_peak : Q;
  maxDD : number
}.

(** [dd = ((peak - runningBalance) / peak) * 100] *)
Definition drawdown_of (peak runningBalance : Q) : number :=
  JS.mul (JS.div (Fin (peak - runningBalance)) (Fin peak)) (Fin 100).

Definition dd_step (s : DDState) (t : Trade) : DDState :=
  let runningBalance := dd_running s + net_profit t in
  let peak := if Qgtb runningBalance (dd_peak s) then runningBalance
              else dd_peak s in
  let dd := drawdown_of peak runningBalance in
  mkDD runningBalance peak (if JS.gt dd (maxDD s) then dd else maxDD s).

Definition dd_pass (initialBalance : Q) (ts : list Trade) : DDState :=
  fold_left dd_step ts (mkDD initialBalance initialBalance (Fin 0)).

(** [metrics.maxDrawdown]; the empty list takes the early return. *)
Definition maxDrawdown (initialBalance : Q) (trades : list Trade) : number :=
  match trades with
  | [] => Fin 0
  | _ => maxDD (dd_pass initialBalance (sortByTime trades))
  end.

(** The drawdown computed at each trade, in order. *)
Fixpoint drawdowns (running peak : Q) (ts : list Trade) : list number :=
  match ts with
  | [] => []
  | t :: rest =>
      let runningBalance := running + net_profit t in
      let peak := if Qgtb runningBalance peak then runningBalance else peak in
      drawdown_of peak runningBalance :: drawdowns runningBalance peak rest
  end.

(** *** Consecutive wins/losses *)

Record StreakState : Type := mkStreak {
  currentStreak : nat;
  maxWinStreak : nat;
  maxLossStreak : nat;
  currentStreakProfit : Q;
  maxConsecutiveProfit : Q;
  maxConsecutiveLoss : Q;
  lastWasWin : option bool
}.

Definition streak_init : StreakState :=
  mkStreak 0 0 0 0 0 0 None.

(** Truthiness of [lastWasWin : boolean | null]. *)
Definition truthy (b : option bool) : bool :=
  match b with
  | Some true => true
  | _ => false
  end.

Definition isWin (t : Trade) : bool := Qgtb (net_profit t) 0.

(** [lastWasWin === null || isWin === lastWasWin] *)
Definition continues (last : option bool) (w : bool) : bool :=
  match last with
  | None => true
  | Some b => Bool.eqb w b
  end.

Definition streak_step (s : StreakState) (t : Trade) : StreakState :=
  let w := isWin t in
  if continues (lastWasWin s) w then
    mkStreak (S (currentStreak s)) (maxWinStreak s) (maxLossStreak s)
             (currentStreakProfit s + net_profit t)
             (maxConsecutiveProfit s) (maxConsecutiveLoss s) (Some w)
  else
    let l := truthy (lastWasWin s) in
    mkStreak 1
      (if l && (maxWinStreak s <? currentStreak s)%nat
       then currentStreak s else maxWinStreak s)
      (if negb l && (maxLossStreak s <? currentStreak s)%nat
       then currentStreak s else maxLossStreak s)
      (net_profit t)
      (if l && Qgtb (currentStreakProfit s) (maxConsecutiveProfit s)
       then currentStreakProfit s else maxConsecutiveProfit s)
      (if negb l && Qltb (currentStreakProfit s) (maxConsecutiveLoss s)
       then currentStreakProfit s else maxConsecutiveLoss s)
      (Some w).

(** The two statements after the loop: only the streak lengths are
    compared against the maxima. *)
Definition streak_finish (s : StreakState) : StreakState :=
  let l := truthy (lastWasWin s) in
  mkStreak (currentStreak s)
    (if l && (maxWinStreak s <? currentStreak s)%nat
     then currentStreak s else maxWinStreak s)
    (if negb l && (maxLossStreak s <? currentStreak s)%nat
     then currentStreak s else maxLossStreak s)
    (currentStreakProfit s)
    (maxConsecutiveProfit s) (maxConsecutiveLoss s) (lastWasWin s).

Definition streak_pass (ts : list Trade) : StreakState :=
  streak_finish (fold_left streak_step ts streak_init).

Record Streaks : Type := mkStreaks {
  consecutiveWins : nat;
  consecutiveLosses : nat;
  streakProfit : Q;
  streakLoss : Q
}.

(** The four streak fields of [metrics]; the empty list takes the early
    return with all of them zero. *)
Definition streaks (trades : list Trade) : Streaks :=
  match trades with
  | [] => mkStreaks 0 0 0 0
  | _ =>
      let s := streak_pass (sortByTime trades) in
      mkStreaks (maxWinStreak s) (maxLossStreak s)
                (maxConsecutiveProfit s) (maxConsecutiveLoss s)
  end.

End TradingReport.

(** *** The streak analyzer as the specification words it

    A second definition, written from the specification's text and not from
    the source: three signs (win, loss, flat); a flat trade ends the streak
    in progress and starts none; the streak that ends, and the one still in
    progress at the end of the sequence, are compared against the maxima of
    their sign, length and cumulative P/L both. *)

Module StreakSpec.

Import TradingReport.

Inductive Sign : Type := Win | Loss | Flat.

Definition sign_of (t : Trade) : Sign :=
  if Qgtb (net_profit t) 0 then Win
  else if Qltb (net_profit t) 0 then Loss
  else Flat.

Record State : Type := mkState {
  cur_sign : Sign;
  cur_len : nat;
  cur_pl : Q;
  best : Streaks
}.

(** Compare the streak in progress against the maxima of its sign. *)
Definition flush (s : State) : Streaks :=
  let b := best s in
  match cur_sign s with
  | Win =>
      mkStreaks (Nat.max (consecutiveWins b) (cur_len s)) (consecutiveLosses b)
                (if Qgtb (cur_pl s) (streakProfit b) then cur_pl s
                 else streakProfit b)
                (streakLoss b)
  | Loss =>
      mkStreaks (consecutiveWins b) (Nat.max (consecutiveLosses b) (cur_len s))
                (streakProfit b)
                (if Qltb (cur_pl s) (streakLoss b) then cur_pl s
                 else streakLoss b)
  | Flat => b
  end.

Definition same_sign (a b : Sign) : bool :=
  match a, b with
  | Win, Win | Loss, Loss | Flat, Flat => true
  | _, _ => false
  end.

Definition step (s : State) (t : Trade) : State :=
  let g := sign_of t in
  match g with
  | Flat => mkState Flat 0 0 (flush s)
  | _ =>
      if same_sign g (cur_sign s)
      then mkState g (S (cur_len s)) (cur_pl s + net_profit t) (best s)
      else mkState g 1 (net_profit t) (flush s)
  end.

Definition streaks (trades : list Trade) : Streaks :=
  flush (fold_left step (sortByTime trades)
                   (mkState Flat 0 0 (mkStreaks 0 0 0 0))).

(** Length of the run of elements satisfying [p] at the head of a list, and
    the longest run anywhere in it. *)
Fixpoint run_prefix {A} (p : A -> bool) (l : list A) : nat :=
  match l with
  | x :: rest => if p x then S (run_prefix p rest) else 0
  | [] => 0
  end.

Fixpoint longest_run {A} (p : A -> bool) (l : list A) : nat :=
  match l with
  | [] => 0
  | _ :: rest => Nat.max (run_prefix p l) (longest_run p rest)
  end.

(** Cumulative P/L of the run at the head of a list, whether a later trade
    ends that run, and the P/L of the run if one does (0 otherwise). *)
Fixpoint run_sum (p : Trade -> bool) (l : list Trade) : Q :=
  match l with
  | t :: rest => if p t then net_profit t + run_sum p rest else 0
  | [] => 0
  end.

Fixpoint run_ended (p : Trade -> bool) (l : list Trade) : bool :=
  match l with
  | t :: rest => if p t then run_ended p rest else true
  | [] => false
  end.

Definition ended_run_sum (p : Trade -> bool) (l : list Trade) : Q :=
  if run_ended p l then run_sum p l else 0.

(** The largest cumulative P/L among the runs of wins that a later trade
    ends, and the smallest among the runs of non-wins that a later trade
    ends (0 when there is none). *)
Fixpoint best_ended_profit (l : list Trade) : Q :=
  match l with
  | [] => 0
  | _ :: rest => Qmax (ended_run_sum isWin l) (best_ended_profit rest)
  end.

Fixpoint worst_ended_loss (l : list Trade) : Q :=
  match l with
  | [] => 0
  | _ :: rest =>
      Qmin (ended_run_sum (fun t => negb (isWin t)) l) (worst_ended_loss rest)
  end.

End StreakSpec.

(** ** GrowthChart: the [data] memo *)

Module GrowthChart.

(** [parseFloat(x.toFixed(2))]: two decimals, halves away from zero. *)
Definition toFixed2 (a : number) : number :=
  match a with
  | Fin x =>
      let m := inject_Z (Qfloor (Qabs x * 100 + (1 # 2))) / 100 in
      Fin (if Qltb x 0 then - m else m)
  | _ => a
  end.

(** One call of the [map] callback: [balance += trade.net_profit], then the
    gain of the point. *)
Definition growth_step (initialBalance balance : Q) (t : Trade) : Q * number :=
  let balance := balance + net_profit t in
  (balance,
   toFixed2 (JS.mul (JS.div (Fin (balance - initialBalance))
                            (Fin initialBalance)) (Fin 100))).

Fixpoint growth_pass (initialBalance balance : Q) (ts : list Trade)
  : Q * list number :=
  match ts with
  | [] => (balance, [])
  | t :: rest =>
      let '(b, g) := growth_step initialBalance balance t in
      let '(final, gs) := growth_pass initialBalance b rest in
      (final, g :: gs)
  end.

(** [balance] after the pass (the trades are taken in the order given). *)
Definition balance_final (initialBalance : Q) (trades : list Trade) : Q :=
  fst (growth_pass initialBalance initialBalance trades).


End GrowthChart.

(** ** ChartPanel: the [chartData] memo *)

Module ChartPanel.

Definition day_ms : Z := 86400000.
Definition hour_ms : Z := 3600000.

(** The key [toISOString().split('T')[0]] of a trade after its time is
    shifted by [timezoneOffset] hours: the UTC day, as a day count (ISO
    dates of the years 0000 to 9999 sort as their day counts do). *)
Definition dateKey (timezoneOffset : Z) (t : Trade) : Z :=
  ((time t + timezoneOffset * hour_ms) / day_ms)%Z.

(** [byDay], kept sorted by key: [byDay[k].profit += p], creating the
    entry at 0 first when the key is new. *)
Fixpoint addToDay (k : Z) (p : Q) (byDay : list (Z * Q)) : list (Z * Q) :=
  match byDay with
  | [] => [(k, 0 + p)]
  | (k', q) :: rest =>
      if (k =? k')%Z then (k', q + p) :: rest
      else if (k <? k')%Z then (k, 0 + p) :: byDay
      else (k', q) :: addToDay k p rest
  end.

Definition byDay (timezoneOffset : Z) (trades : list Trade) : list (Z * Q) :=
  fold_left (fun m t => addToDay (dateKey timezoneOffset t) (net_profit t) m)
            trades [].

Record DayData : Type := mkDayData {
  date : Z;
  profit : Q;
  balance : Q;
  growth : number;
  drawdown : number
}.

Record EquityState : Type := mkEquity {
  cumProfit : Q;
  peakBalance : Q
}.

(** One call of the [map] callback over [sortedDates]. *)
Definition day_step (initialBalance : Q) (s : EquityState) (d : Z * Q)
  : EquityState * DayData :=
  let cumProfit := cumProfit s + snd d in
  let balance := initialBalance + cumProfit in
  let peakBalance := Qmax (peakBalance s) balance in
  let drawdown :=
    if Qgtb peakBalance 0
    then JS.mul (JS.div (Fin (peakBalance - balance)) (Fin peakBalance))
                (Fin 100)
    else Fin 0 in
  let growth :=
    if Qgtb initialBalance 0
    then JS.mul (JS.div (Fin cumProfit) (Fin initialBalance)) (Fin 100)
    else Fin 0 in
  (mkEquity cumProfit peakBalance,
   mkDayData (fst d) (snd d) balance growth drawdown).

Fixpoint day_pass (initialBalance : Q) (s : EquityState) (days : list (Z * Q))
  : list (EquityState * DayData) :=
  match days with
  | [] => []
  | d :: rest =>
      let r := day_step initialBalance s d in
      r :: day_pass initialBalance (fst r) rest
  end.

(** [chartData] with, next to each point, the running state it was computed
    in ([peakBalance] is not part of the emitted point). *)
Definition chartTrace (initialBalance : Q) (timezoneOffset : Z)
  (trades : list Trade) : list (EquityState * DayData) :=
  day_pass initialBalance (mkEquity 0 initialBalance)
           (byDay timezoneOffset trades).

Definition chartData (initialBalance : Q) (timezoneOffset : Z)
  (trades : list Trade) : list DayData :=
  map snd (chartTrace initialBalance timezoneOffset trades).

End ChartPanel.

(** ** Square roots in comparisons

    [Math.sqrt(v)] is irrational in general; the source only compares it, and
    a comparison of a square root with a number is decided exactly by
    squaring.  The square root of a negative number, of NaN or of -Infinity
    is NaN, and [Math.sqrt(Infinity)] is Infinity. *)

Module Sqrt.

(** [Math.sqrt(v) < a] *)
Definition lt (v a : number) : bool :=
  match v with
  | Fin q =>
      if Qltb q 0 then false else
      match a with
      | Fin x => Qltb 0 x && Qltb q (x * x)
      | PInf => true
      | _ => false
      end
  | _ => false
  end.

(** [Math.sqrt(v) > a] *)
Definition gt (v a : number) : bool :=
  match v with
  | Fin q =>
      if Qltb q 0 then false else
      match a with
      | Fin x => Qltb x 0 || Qltb (x * x) q
      | NInf => true
      | _ => false
      end
  | PInf =>
      match a with
      | Fin _ | NInf => true
      | _ => false
      end
  | _ => false
  end.

End Sqrt.

(** ** RiskModel: the [riskMetrics] memo and the recommendation block *)

Module RiskModel.

(** [trades.map(t => (t.net_profit / initialBalance) * 100)] *)
Definition tradeReturns (initialBalance : Q) (trades : list Trade) : list number :=
  map (fun t => JS.mul (JS.div (Fin (net_profit t)) (Fin initialBalance))
                       (Fin 100)) trades.

Definition count {A} (l : list A) : Q := inject_Z (Z.of_nat (List.length l)).

(** [tradeReturns.filter(r => r > 0)] and [tradeReturns.filter(r => r < 0)] *)
Definition winReturns (initialBalance : Q) (trades : list Trade) : list number :=
  filter (fun r => JS.gt r (Fin 0)) (tradeReturns initialBalance trades).

Definition lossReturns (initialBalance : Q) (trades : list Trade) : list number :=
  filter (fun r => JS.lt r (Fin 0)) (tradeReturns initialBalance trades).

(** [xs.length > 0 ? xs.reduce((a, b) => a + b, 0) / xs.length : 0] *)
Definition average_or_zero (xs : list number) : number :=
  match xs with
  | [] => Fin 0
  | _ => JS.div (JS.sum (Fin 0) xs) (Fin (count xs))
  end.

Record ConsecutiveLoss : Type := mkConsecutiveLoss {
  level : Q;
  trades_needed : number
}.

Definition drawdownLevels : list Q := [10; 20; 30; 50].

Record Metrics : Type := mkMetrics {
  avgReturnPct : number;
  variance : number;            (* [stdDevPct] is [Math.sqrt] of it *)
  avgWinPct : number;
  avgLossPct : number;
  winRate : Q;
  riskRewardRatio : number;
  expectancyPct : number;
  profitFactor : number;
  payoffRatio : number;
  kellyPct : number;
  kellyHalf : number;
  breakEvenWinRate : number;
  edge : number;
  consecutiveLosses : list ConsecutiveLoss;
  ruinProbability : number
}.

(** The body of the memo past the early return.  [winRate] divides a count
    by [trades.length], which is positive there.  The best and worst trade
    and the annualised projections, which no other metric reads, are left
    out. *)
Definition computeMetrics (initialBalance : Q) (trades : list Trade)
  : Metrics :=
      let tradeReturns := tradeReturns initialBalance trades in
      let avgReturnPct :=
        JS.div (JS.sum (Fin 0) tradeReturns) (Fin (count tradeReturns)) in
      let variance :=
        JS.div (fold_left
                  (fun sum r =>
                     JS.add sum (JS.pow (JS.sub r avgReturnPct) (Fin 2)))
                  tradeReturns (Fin 0))
               (Fin (count tradeReturns)) in
      let winReturns := winReturns initialBalance trades in
      let lossReturns := lossReturns initialBalance trades in
      let avgWinPct := average_or_zero winReturns in
      let avgLossPct :=
        match lossReturns with
        | [] => Fin 0
        | _ => JS.abs (JS.div (JS.sum (Fin 0) lossReturns)
                              (Fin (count lossReturns)))
        end in
      let winRate := count winReturns / count trades * 100 in
      let riskRewardRatio :=
        if JS.gt avgLossPct (Fin 0) then JS.div avgWinPct avgLossPct
        else Fin 0 in
      let expectancyPct :=
        JS.sub (JS.mul (Fin (winRate / 100)) avgWinPct)
               (JS.mul (Fin (1 - winRate / 100)) avgLossPct) in
      let kellyPct :=
        if JS.gt avgLossPct (Fin 0)
        then JS.mul
               (JS.div (JS.sub (JS.mul (Fin (winRate / 100)) riskRewardRatio)
                               (Fin (1 - winRate / 100)))
                       riskRewardRatio)
               (Fin 100)
        else Fin 0 in
      let kellyHalf := JS.div kellyPct (Fin 2) in
      let totalWins := JS.sum (Fin 0) winReturns in
      let totalLosses := JS.abs (JS.sum (Fin 0) lossReturns) in
      let profitFactor :=
        if JS.gt totalLosses (Fin 0) then JS.div totalWins totalLosses
        else Fin 0 in
      let payoffRatio :=
        if JS.gt avgLossPct (Fin 0) then JS.div avgWinPct avgLossPct
        else Fin 0 in
      let breakEvenWinRate :=
        if JS.gt (JS.add avgWinPct avgLossPct) (Fin 0)
        then JS.mul (JS.div avgLossPct (JS.add avgWinPct avgLossPct)) (Fin 100)
        else Fin 50 in
      let edge := JS.sub (Fin winRate) breakEvenWinRate in
      let consecutiveLosses :=
        map (fun dd =>
               if JS.le avgLossPct (Fin 0) then mkConsecutiveLoss dd (Fin 999)
               else mkConsecutiveLoss dd (JS.ceil (JS.div (Fin dd) avgLossPct)))
            drawdownLevels in
      let lossRate := 1 - winRate / 100 in
      let ruinProbability :=
        JS.mul (JS.pow (JS.div (Fin lossRate) (Fin (winRate / 100))) (Fin 10))
               (Fin 100) in
      mkMetrics avgReturnPct variance avgWinPct avgLossPct winRate
              riskRewardRatio expectancyPct profitFactor payoffRatio
              kellyPct kellyHalf breakEvenWinRate edge consecutiveLosses
              (JS.min (Fin 100) (JS.max (Fin 0) ruinProbability)).

(** The memo: [null] on an empty trade list. *)
Definition riskMetrics (initialBalance : Q) (trades : list Trade)
  : option Metrics :=
  match trades with
  | [] => None
  | _ => Some (computeMetrics initialBalance trades)
  end.

(** *** Score-based recommendation *)

Definition edge_points (edge : number) : Z :=
  if JS.gt edge (Fin 15) then 20
  else if JS.gt edge (Fin 10) then 15
  else if JS.gt edge (Fin 5) then 10
  else if JS.gt edge (Fin 0) then 5
  else (-20).

Definition winRate_points (winRate : Q) : Z :=
  if Qgeb winRate 50 then 10 else (-10).

Definition profitFactor_points (profitFactor : number) : Z :=
  if JS.ge profitFactor (Fin 2) then 15
  else if JS.ge profitFactor (Fin (3 # 2)) then 10
  else if JS.ge profitFactor (Fin (6 # 5)) then 5
  else if JS.lt profitFactor (Fin 1) then (-20)
  else 0.

Definition expectancy_points (expectancyPct : number) : Z :=
  if JS.gt expectancyPct (Fin (1 # 2)) then 10
  else if JS.gt expectancyPct (Fin 0) then 5
  else (-15).

(** [stdDevPct < avgLossPct], else [stdDevPct > avgLossPct * 2], with
    [stdDevPct = Math.sqrt(variance)]. *)
Definition consistency_points (variance avgLossPct : number) : Z :=
  if Sqrt.lt variance avgLossPct then 5
  else if Sqrt.gt variance (JS.mul avgLossPct (Fin 2)) then (-10)
  else 0.

(** [riskScore], capped to 0..100. *)
Definition riskScore (m : Metrics) : Z :=
  Z.max 0 (Z.min 100
    (50 + edge_points (edge m) + winRate_points (winRate m)
        + profitFactor_points (profitFactor m)
        + expectancy_points (expectancyPct m)
        + consistency_points (variance m) (avgLossPct m))).

Inductive RiskLevel : Type := conservative | moderate | aggressive.

(** The four tiers. *)
Definition recommend (riskScore : Z) (kellyHalf : number) : number * RiskLevel :=
  if (75 <=? riskScore)%Z then (JS.min kellyHalf (Fin 5), moderate)
  else if (50 <=? riskScore)%Z
       then (JS.min (JS.div kellyHalf (Fin 2)) (Fin 3), moderate)
  else if (30 <=? riskScore)%Z
       then (JS.min (Fin 1) (JS.div kellyHalf (Fin 4)), conservative)
  else (Fin (1 # 2), conservative).

Definition recommendedPct (m : Metrics) : number :=
  fst (recommend (riskScore m) (kellyHalf m)).

Definition riskLevel (m : Metrics) : RiskLevel :=
  snd (recommend (riskScore m) (kellyHalf m)).

(** *** Drawdown risk table *)

Record RiskRow : Type := mkRiskRow {
  row_level : Q;
  row_trades : number;
  probability : number
}.

(** One row per entry of [consecutiveLosses]:
    [Math.pow(lossRate, trades) * 100]. *)
Definition riskTable (m : Metrics) : list RiskRow :=
  map (fun c =>
         let lossRate := 1 - winRate m / 100 in
         mkRiskRow (level c) (trades_needed c)
                   (JS.mul (JS.pow (Fin lossRate) (trades_needed c)) (Fin 100)))
      (consecutiveLosses m).

End RiskModel.

(** ** AdvancedStats: the profit factor as displayed *)

Module AdvancedStats.

Inductive Display : Type :=
| infinity_sign
| fixed2 (value : number).

(** [stats.profit_factor >= 999 ? '∞' : stats.profit_factor.toFixed(2)] *)
Definition profitFactorDisplay (profit_factor : number) : Display :=
  if JS.ge profit_factor (Fin 999) then infinity_sign
  else fixed2 (GrowthChart.toFixed2 profit_factor).

End AdvancedStats.

(** ** RiskOfRuin: the [riskData] memo *)

Module RiskOfRuin.

(** Search for the least [n], counting up from [n] with [p = b^n], such
    that [b^n <= r]. *)
Fixpoint least_exp_from (fuel : nat) (b r : Q) (n : Z) (p : Q) : option Z :=
  match fuel with
  | O => None
  | S fuel' =>
      if Qle_bool p r then Some n
      else least_exp_from fuel' b r (n + 1)%Z (p * b)
  end.

(** Enough steps for [0 < b < 1] and [0 < r]: by Bernoulli's inequality
    [b^n <= r] as soon as [n >= b / (r * (1 - b))]. *)
Definition least_exp_fuel (b r : Q) : nat :=
  Z.to_nat (Qceiling (b / (r * (1 - b)))) + 1.

Definition least_exp (b r : Q) : option Z :=
  least_exp_from (least_exp_fuel b r) b r 0 1.

(** [Math.ceil(Math.log(r) / Math.log(b))] for [0 <= r < 1] and [b < 1],
    which is all the component asks for: [r] is the share remaining at one
    of the fixed loss levels and [b] is [1 - lossPerTradeAvg] with a
    positive [lossPerTradeAvg].

    Over the reals, with [0 < b < 1] and [0 < r < 1], the quotient of the
    two logarithms is [log_b r > 0], and its ceiling is the least [n] with
    [b^n <= r].  [Math.log(0)] is -Infinity and the logarithm of a negative
    number is NaN.  Outside the stated range the value is not modelled and
    NaN is returned. *)
Definition ceil_log_ratio (r b : Q) : number :=
  if Qltb r 0 || Qle_bool 1 r || Qle_bool 1 b then NaN
  else if Qltb b 0 then NaN
  else if Qeq_bool r 0 then (if Qeq_bool b 0 then NaN else PInf)
  else if Qeq_bool b 0 then Fin 0
  else match least_exp b r with
       | Some n => Fin (inject_Z n)
       | None => NaN
       end.

(** A probability: a number, or the tenth root of a non-negative rational
    ([Math.pow(x, n / 10)] with a natural [n] is the tenth root of [x^n]). *)
Inductive Prob : Type :=
| Exact (p : number)
| Root10 (radicand : Q).

Record LossLevel : Type := mkLossLevel {
  lossSize : Q;
  probability : Prob;
  consecutiveLosses : number
}.

Definition lossLevels : list Q := [100; 90; 80; 70; 60; 50; 40; 30; 20; 10].

Definition count {A} (l : list A) : Q := inject_Z (Z.of_nat (List.length l)).

Definition isWin (t : Trade) : bool := Qgtb (net_profit t) 0.
Definition isLoss (t : Trade) : bool := Qltb (net_profit t) 0.

(** [Math.max(0, Math.min(100, probability))] *)
Definition clamp (p : number) : number := JS.max (Fin 0) (JS.min (Fin 100) p).

(** The callback of [lossLevels.map]. *)
Definition result (winRate lossPerTradeAvg lossPercent : Q) : LossLevel :=
  let remainingPercent := (100 - lossPercent) / 100 in
  let consecutiveLosses :=
    if Qgtb lossPerTradeAvg 0
    then ceil_log_ratio remainingPercent (1 - lossPerTradeAvg)
    else Fin 0 in
  let consecutiveLosses :=
    if JS.lt consecutiveLosses (Fin 0) || negb (JS.isFinite consecutiveLosses)
    then JS.ceil (JS.div (Fin lossPercent) (Fin (lossPerTradeAvg * 100)))
    else consecutiveLosses in
  let lossRate := 1 - winRate in
  let probability :=
    if Qgtb winRate (1 # 2)
    then Exact (clamp (JS.mul (JS.pow (JS.div (Fin lossRate) (Fin winRate))
                                      consecutiveLosses)
                              (Fin 100)))
    else
      match consecutiveLosses with
      | Fin k =>
          match JS.as_integer k with
          | Some n =>
              if (0 <=? n)%Z
              then (* lossRate^(n/10) * 100, within 0..100 as lossRate is *)
                   Root10 (Qpower lossRate n * Qpower 100 10)
              else Exact (clamp (JS.mul (JS.pow (Fin lossRate)
                                                (Fin (k / 10))) (Fin 100)))
          | None => Exact (clamp (JS.mul (JS.pow (Fin lossRate)
                                                 (Fin (k / 10))) (Fin 100)))
          end
      | _ => Exact (clamp (JS.mul (JS.pow (Fin lossRate)
                                          (JS.div consecutiveLosses (Fin 10)))
                                  (Fin 100)))
      end in
  mkLossLevel lossPercent probability (JS.max (Fin 1) consecutiveLosses).

(** [riskData.lossLevels]; the empty trade list takes the early return. *)
Definition results (trades : list Trade) : list LossLevel :=
  match trades with
  | [] => []
  | _ =>
      let wins := filter isWin trades in
      let losses := filter isLoss trades in
      let winRate := count wins / count trades in
      let avgLoss :=
        match losses with
        | [] => 1
        | _ => Qabs (fold_left (fun s t => s + net_profit t) losses 0
                     / count losses)
        end in
      let lossPerTradeAvg := avgLoss / 10000 in
      map (result winRate lossPerTradeAvg) lossLevels
  end.

(** The probability reported for a loss level. *)
Definition probability_at (trades : list Trade) (lossPercent : Q)
  : option Prob :=
  match find (fun r => Qeq_bool (lossSize r) lossPercent) (results trades) with
  | Some r => Some (probability r)
  | None => None
  end.

(** Order on probabilities that are both numbers or both tenth roots. *)
Definition Prob_le (a b : Prob) : bool :=
  match a, b with
  | Exact x, Exact y => JS.le x y
  | Root10 x, Root10 y => Qle_bool x y
  | _, _ => false
  end.

End RiskOfRuin.

(** ** PeriodsComparison and MAEMFEChart: what they read besides their props

    [PeriodsComparison] calls [new Date()] inside its memo and
    [MAEMFEChart] calls [Math.random()] once per trade.  Both are inputs of
    the computation that are not props; they are made explicit here. *)

Definition to_lower_ascii (c : ascii) : ascii :=
  let n := nat_of_ascii c in
  if (65 <=? n)%nat && (n <=? 90)%nat then ascii_of_nat (n + 32) else c.

Fixpoint toLowerCase (s : string) : string :=
  match s with
  | EmptyString => EmptyString
  | String c rest => String (to_lower_ascii c) (toLowerCase rest)
  end.

(** [s.includes(sub)] *)
Definition includes (sub s : string) : bool :=
  match String.index 0 sub s with
  | Some _ => true
  | None => false
  end.

(** [estimatePips], the same in both components. *)
Definition estimatePips (t : Trade) : number :=
  if includes "xau" (toLowerCase (symbol t))
  then JS.div (JS.div (Fin (net_profit t)) (Fin (volume t))) (Fin 10)
  else JS.mul (JS.div (Fin (net_profit t)) (Fin (volume t))) (Fin 10).

(** ** Calendar dates of the host's local time

    Local days are numbered from 1 January 1970; months count from 0, as
    [getMonth] does.  The calendar is the proleptic Gregorian one of
    ECMAScript. *)

Module LocalDate.

Local Open Scope Z_scope.

(** The day number of the first of a month.  Months outside 0..11 carry
    into the year, as in [new Date(year, -1, 1)]. *)
Definition dayFromMonth (year month : Z) : Z :=
  let ym := year + month / 12 in
  let mn := month mod 12 in
  let y := if mn <? 2 then ym - 1 else ym in
  let era := y / 400 in
  let yoe := y - era * 400 in
  let mp := if mn <? 2 then mn + 10 else mn - 2 in
  let doy := (153 * mp + 2) / 5 in
  let doe := yoe * 365 + yoe / 4 - yoe / 100 + doy in
  era * 146097 + doe - 719468.

(** The day number of [new Date(year, month, date)]. *)
Definition makeDay (year month date : Z) : Z :=
  dayFromMonth year month + date - 1.

(** [(getFullYear(), getMonth(), getDate())] of a day number. *)
Definition civil (n : Z) : Z * Z * Z :=
  let z := n + 719468 in
  let era := z / 146097 in
  let doe := z - era * 146097 in
  let yoe := (doe - doe / 1460 + doe / 36524 - doe / 146096) / 365 in
  let doy := doe - (365 * yoe + yoe / 4 - yoe / 100) in
  let mp := (5 * doy + 2) / 153 in
  let d := doy - (153 * mp + 2) / 5 + 1 in
  let m := if mp <? 10 then mp + 2 else mp - 10 in
  let y := yoe + era * 400 in
  ((if m <? 2 then y + 1 else y), m, d).

Definition year (n : Z) : Z := fst (fst (civil n)).
Definition month (n : Z) : Z := snd (fst (civil n)).
Definition date (n : Z) : Z := snd (civil n).

End LocalDate.

(** A whole number in a template literal. *)
Definition decimal (z : Z) : string := NilZero.string_of_int (Z.to_int z).

Module PeriodsComparison.

(** What the host supplies: the instant [new Date()] returns and the
    offset of local time from UTC, both in milliseconds (a fixed offset:
    no daylight-saving change inside the windows). *)
Record Host : Type := mkHost {
  clock : Z;
  tz : Z
}.

Definition day_ms : Z := 86400000.

(** [new Date(now.getFullYear(), now.getMonth(), now.getDate())]: local
    midnight of the day [now] falls in. *)
Definition today (h : Host) : Z :=
  (((clock h + tz h) / day_ms) * day_ms - tz h)%Z.

(** [now.getDay()]: 0 is Sunday; the epoch fell on a Thursday. *)
Definition getDay (h : Host) : Z :=
  (((clock h + tz h) / day_ms + 4) mod 7)%Z.

Definition thisWeekStart (h : Host) : Z :=
  let dayOfWeek := getDay h in
  let mondayOffset := if (dayOfWeek =? 0)%Z then (-6)%Z else (1 - dayOfWeek)%Z in
  (today h + mondayOffset * day_ms)%Z.

Definition lastWeekStart (h : Host) : Z := (thisWeekStart h - 7 * day_ms)%Z.

Record Period : Type := mkPeriod {
  p_profit : Q;
  p_pips : number;
  p_wins : nat;
  p_total : nat;
  p_lots : Q
}.

Definition calculatePeriod (trades : list Trade) (start finish : Z) : Period :=
  let periodTrades :=
    filter (fun t => (start <=? time t)%Z && (time t <? finish)%Z) trades in
  mkPeriod
    (fold_left (fun sum t => sum + net_profit t) periodTrades 0)
    (fold_left (fun sum t => JS.add sum (estimatePips t)) periodTrades (Fin 0))
    (List.length (filter (fun t => Qgtb (net_profit t) 0) periodTrades))
    (List.length periodTrades)
    (fold_left (fun sum t => sum + volume t) periodTrades 0).

Record PeriodData : Type := mkPeriodData {
  gainPct : Q;
  profit : Q;
  pips : number;
  winPct : Q;
  trades_count : nat;
  lots : Q;
  prevGainPct : Q;
  prevProfit : Q;
  prevPips : number;
  prevWinPct : Q;
  prevTrades : nat;
  prevLots : Q
}.

Definition initialBalance : Q := 10000.

Definition pct_of (wins total : nat) : Q :=
  if (0 <? total)%nat
  then inject_Z (Z.of_nat wins) / inject_Z (Z.of_nat total) * 100
  else 0.

Definition entry (current prev : Period) : PeriodData :=
  mkPeriodData
    (p_profit current / initialBalance * 100) (p_profit current)
    (p_pips current) (pct_of (p_wins current) (p_total current))
    (p_total current) (p_lots current)
    (p_profit prev / initialBalance * 100) (p_profit prev)
    (p_pips prev) (pct_of (p_wins prev) (p_total prev))
    (p_total prev) (p_lots prev).

(** The 'Today' and 'This Week' rows. *)
Definition todayRow (h : Host) (trades : list Trade) : PeriodData :=
  entry (calculatePeriod trades (today h) (today h + day_ms)%Z)
        (calculatePeriod trades (today h - day_ms)%Z (today h)).

Definition weekRow (h : Host) (trades : list Trade) : PeriodData :=
  entry (calculatePeriod trades (thisWeekStart h) (clock h))
        (calculatePeriod trades (lastWeekStart h) (thisWeekStart h)).

(** [now.getFullYear()] and [now.getMonth()]. *)
Definition getFullYear (h : Host) : Z :=
  LocalDate.year ((clock h + tz h) / day_ms)%Z.

Definition getMonth (h : Host) : Z :=
  LocalDate.month ((clock h + tz h) / day_ms)%Z.

(** [new Date(year, month, date)]: local midnight of a calendar date. *)
Definition newDate (h : Host) (year month date : Z) : Z :=
  (LocalDate.makeDay year month date * day_ms - tz h)%Z.

Definition thisMonthStart (h : Host) : Z :=
  newDate h (getFullYear h) (getMonth h) 1.

Definition lastMonthStart (h : Host) : Z :=
  newDate h (getFullYear h) (getMonth h - 1) 1.

Definition thisYearStart (h : Host) : Z := newDate h (getFullYear h) 0 1.

Definition lastYearStart (h : Host) : Z := newDate h (getFullYear h - 1) 0 1.

(** The 'This Month' and 'This Year' rows. *)
Definition monthRow (h : Host) (trades : list Trade) : PeriodData :=
  entry (calculatePeriod trades (thisMonthStart h) (clock h))
        (calculatePeriod trades (lastMonthStart h) (thisMonthStart h)).

Definition yearRow (h : Host) (trades : list Trade) : PeriodData :=
  entry (calculatePeriod trades (thisYearStart h) (clock h))
        (calculatePeriod trades (lastYearStart h) (thisYearStart h)).

Definition periodsData (h : Host) (trades : list Trade)
  : list (string * PeriodData) :=
  [ ("Today"%string, todayRow h trades);
    ("This Week"%string, weekRow h trades);
    ("This Month"%string, monthRow h trades);
    ("This Year"%string, yearRow h trades) ].

End PeriodsComparison.

Module MAEMFEChart.

Record TradePoint : Type := mkTradePoint {
  pips : number;
  mae : number;
  profit : Q;
  isWinner : bool
}.

(** The point of one trade, [random] being what [Math.random()] returned
    for it. *)
Definition point (random : Q) (t : Trade) : TradePoint :=
  let pips := estimatePips t in
  let mae :=
    if Qgtb (net_profit t) 0
    then JS.mul (JS.neg (JS.abs pips)) (Fin (random * (3 # 10)))
    else JS.mul pips (Fin (1 + random * (1 # 2))) in
  mkTradePoint pips mae (net_profit t) (Qgtb (net_profit t) 0).

(** The [forEach]: the [i]-th trade consumes the [i]-th draw.  Returns
    [(winners, losers)]. *)
Fixpoint points_from (draws : nat -> Q) (i : nat) (trades : list Trade)
  : list TradePoint * list TradePoint :=
  match trades with
  | [] => ([], [])
  | t :: rest =>
      let p := point (draws i) t in
      let '(ws, ls) := points_from draws (S i) rest in
      if isWinner p then (p :: ws, ls) else (ws, p :: ls)
  end.

Definition points (draws : nat -> Q) (trades : list Trade)
  : list TradePoint * list TradePoint :=
  points_from draws 0 trades.

End MAEMFEChart.

(** ** Notions used in the statements and invariants below *)

(** Sum of the per-day profits of [byDay]. *)
Definition sum_days (days : list (Z * Q)) : Q :=
  fold_right (fun d s => snd d + s) 0 days.

(** The length the streak in progress contributes to a run of wins
    (respectively of non-wins) that continues. *)
Definition carryW (s : TradingReport.StreakState) : nat :=
  if TradingReport.truthy (TradingReport.lastWasWin s)
  then TradingReport.currentStreak s else 0%nat.

Definition carryL (s : TradingReport.StreakState) : nat :=
  if negb (TradingReport.truthy (TradingReport.lastWasWin s))
  then TradingReport.currentStreak s else 0%nat.

Definition fresh_ok (s : TradingReport.StreakState) : Prop :=
  TradingReport.lastWasWin s = None -> TradingReport.currentStreak s = 0%nat.

Definition notWin (t : Trade) : bool := negb (TradingReport.isWin t).

Definition pl_signs (s : TradingReport.StreakState) : Prop :=
  0 <= TradingReport.maxConsecutiveProfit s
  /\ TradingReport.maxConsecutiveLoss s <= 0.

(** The P/L the streak in progress contributes to a run of wins
    (respectively of non-wins) that continues, and what the pass keeps true
    of it. *)
Definition carryProfit (s : TradingReport.StreakState) : Q :=
  if TradingReport.truthy (TradingReport.lastWasWin s)
  then TradingReport.currentStreakProfit s else 0.

Definition carryLoss (s : TradingReport.StreakState) : Q :=
  match TradingReport.lastWasWin s with
  | Some false => TradingReport.currentStreakProfit s
  | _ => 0
  end.

Definition pl_ok (s : TradingReport.StreakState) : Prop :=
  pl_signs s
  /\ (TradingReport.lastWasWin s = None
      -> TradingReport.currentStreakProfit s == 0)
  /\ (TradingReport.lastWasWin s = Some true
      -> 0 <= TradingReport.currentStreakProfit s)
  /\ (TradingReport.lastWasWin s = Some false
      -> TradingReport.currentStreakProfit s <= 0).

(** A trade with the given ticket, time and net profit. *)
Definition trade (n : Z) (p : Q) : Trade :=
  mkTrade n (n * 1000) "EURUSD" BUY 1 p.

(** Scenario D of the specification: three losses, two wins, one
    zero-profit trade, in time order. *)
Definition scenarioD : list Trade :=
  [ trade 1 (-10); trade 2 (-20); trade 3 (-30);
    trade 4 40; trade 5 50; trade 6 0 ].

(** A loss followed by a zero-profit trade; a single winner; a single
    zero-profit trade; a single loss. *)
Definition loss_then_flat : list Trade := [ trade 1 (-10); trade 2 0 ].
Definition single_win : list Trade := [ trade 1 100 ].
Definition single_loss : list Trade := [ trade 1 (-50) ].

(** Two small wins and one loss of 5000; two wins of 50 and a loss of 100. *)
Definition large_loss : list Trade :=
  [ trade 1 1; trade 2 1; trade 3 (-5000) ].

Definition usual_loss : list Trade :=
  [ trade 1 50; trade 2 50; trade 3 (-100) ].

(** A win of 999 and a loss of 1. *)
Definition ratio_999 : list Trade := [ trade 1 999; trade 2 (-1) ].

(** The return of a trade on a non-zero balance, as a rational, and the
    positive and the negative ones of a trade list. *)
Definition returnPct (initialBalance : Q) (t : Trade) : Q :=
  net_profit t / initialBalance * 100.

Definition positiveReturns (initialBalance : Q) (trades : list Trade) : list Q :=
  filter (fun q => Qltb 0 q) (map (returnPct initialBalance) trades).

Definition negativeReturns (initialBalance : Q) (trades : list Trade) : list Q :=
  filter (fun q => Qltb q 0) (map (returnPct initialBalance) trades).

(** Infinity, -Infinity or NaN. *)
Definition nonfinite (a : number) : Prop := JS.isFinite a = false.

(** Neither Infinity nor NaN: what sums of negative returns are. *)
Definition below_inf (a : number) : Prop :=
  match a with
  | Fin _ | NInf => True
  | _ => False
  end.

(** Two readings of the clock a day apart. *)
Definition morning : PeriodsComparison.Host := PeriodsComparison.mkHost 5000 0.
Definition next_day : PeriodsComparison.Host :=
  PeriodsComparison.mkHost 86405000 0.

(** The local day a host's clock reading falls in. *)
Definition localDay (h : PeriodsComparison.Host) : Z :=
  ((PeriodsComparison.clock h + PeriodsComparison.tz h)
   / PeriodsComparison.day_ms)%Z.

(** ** TradingReport: further fields of the [metrics] memo *)

Module ReportMetrics.

(** [netPL = grossProfit + grossLoss]; 0 on the early return. *)
Definition netPL (trades : list Trade) : Q :=
  match trades with
  | [] => 0
  | _ => TradingReport.grossProfit trades + TradingReport.grossLoss trades
  end.

(** [maxDD > 0 ? Math.abs(netPL) / (initialBalance * maxDD / 100) : 0] *)
Definition recoveryFactor (initialBalance : Q) (trades : list Trade) : number :=
  match trades with
  | [] => Fin 0
  | _ =>
      let maxDD := TradingReport.maxDrawdown initialBalance trades in
      if JS.gt maxDD (Fin 0)
      then JS.div (Fin (Qabs (netPL trades)))
                  (JS.div (JS.mul (Fin initialBalance) maxDD) (Fin 100))
      else Fin 0
  end.

(** [(maxDD / 100) * 400] *)
Definition maxDepositLoad (initialBalance : Q) (trades : list Trade) : number :=
  match trades with
  | [] => Fin 0
  | _ => JS.mul (JS.div (TradingReport.maxDrawdown initialBalance trades)
                        (Fin 100)) (Fin 400)
  end.

(** *** Daily P/L *)

Definition day_ms : Z := 86400000.

(** [new Date(t.time).toISOString().split('T')[0]]: the UTC day, as a day
    count. *)
Definition isoDate (t : Trade) : Z := (time t / day_ms)%Z.

(** [x || 0] on a finite number. *)
Definition or_zero (x : Q) : Q := if Qeq_bool x 0 then 0 else x.

(** [dailyMap[date] = (dailyMap[date] || 0) + p], the object being the list
    of its entries in insertion order (the order [Object.entries] yields). *)
Fixpoint addDaily (date : Z) (p : Q) (dailyMap : list (Z * Q)) : list (Z * Q) :=
  match dailyMap with
  | [] => [(date, 0 + p)]
  | (d, v) :: rest =>
      if (date =? d)%Z then (d, or_zero v + p) :: rest
      else (d, v) :: addDaily date p rest
  end.

Definition dailyMap (trades : list Trade) : list (Z * Q) :=
  fold_left (fun m t => addDaily (isoDate t) (net_profit t) m) trades [].

(** [.sort((a, b) => a.date.localeCompare(b.date))], a stable sort. *)
Fixpoint insertByDate (e : Z * Q) (sorted : list (Z * Q)) : list (Z * Q) :=
  match sorted with
  | [] => [e]
  | f :: rest =>
      if (fst e <=? fst f)%Z then e :: sorted
      else f :: insertByDate e rest
  end.

Fixpoint sortByDate (entries : list (Z * Q)) : list (Z * Q) :=
  match entries with
  | [] => []
  | e :: rest => insertByDate e (sortByDate rest)
  end.

Definition dailyPnL (trades : list Trade) : list (Z * Q) :=
  sortByDate (dailyMap trades).

(** *** Weekday P/L *)

(** [new Date(t.time).getDay()] where local time is [tz] milliseconds ahead
    of UTC: 0 is Sunday; the epoch fell on a Thursday. *)
Definition getDay (tz : Z) (t : Trade) : Z :=
  (((time t + tz) / day_ms + 4) mod 7)%Z.

Record WeekdayEntry : Type := mkWeekdayEntry {
  w_profit : Q;
  w_count : nat
}.

(** [if (!weekdayMap[day]) weekdayMap[day] = { profit: 0, count: 0 }], then
    the two updates. *)
Fixpoint addWeekday (day : Z) (p : Q) (weekdayMap : list (Z * WeekdayEntry))
  : list (Z * WeekdayEntry) :=
  match weekdayMap with
  | [] => [(day, mkWeekdayEntry (0 + p) 1)]
  | (d, e) :: rest =>
      if (day =? d)%Z
      then (d, mkWeekdayEntry (w_profit e + p) (S (w_count e))) :: rest
      else (d, e) :: addWeekday day p rest
  end.

Definition weekdayMap (tz : Z) (trades : list Trade)
  : list (Z * WeekdayEntry) :=
  fold_left (fun m t => addWeekday (getDay tz t) (net_profit t) m) trades [].

(** [weekdayMap[i]] *)
Definition lookupWeekday (i : Z) (weekdayMap : list (Z * WeekdayEntry))
  : option WeekdayEntry :=
  match find (fun e => (fst e =? i)%Z) weekdayMap with
  | Some e => Some (snd e)
  | None => None
  end.

Record WeekdayRow : Type := mkWeekdayRow {
  day : Z;
  profit : Q;
  count : nat
}.

(** [weekdays.map((name, i) => ...)]: one row per weekday, keyed here by
    the index [i] (the letters S, M, T, W, T, F, S are labels). *)
Definition weekdayRow (weekdayMap : list (Z * WeekdayEntry)) (i : Z)
  : WeekdayRow :=
  match lookupWeekday i weekdayMap with
  | Some e => mkWeekdayRow i (or_zero (w_profit e)) (w_count e)
  | None => mkWeekdayRow i 0 0
  end.

Definition weekdayPnL (tz : Z) (trades : list Trade) : list WeekdayRow :=
  match trades with
  | [] => []
  | _ => map (weekdayRow (weekdayMap tz trades)) [0; 1; 2; 3; 4; 5; 6]%Z
  end.

(** *** Estimated excursions *)

Record Excursion : Type := mkExcursion {
  e_profit : Q;
  mae : Q;
  mfe : Q
}.

Definition maeMfeData (trades : list Trade) : list Excursion :=
  map (fun t =>
         mkExcursion
           (net_profit t)
           (- Qabs (net_profit t)
            * (if Qltb (net_profit t) 0 then 1 else 3 # 10))
           (Qabs (net_profit t)
            * (if Qgtb (net_profit t) 0 then 1 else 3 # 10)))
      trades.

End ReportMetrics.

(** ** RiskModel: the annualised trade count *)

Module RiskModelAnnual.

Definition day_ms : Z := 1000 * 60 * 60 * 24.

(** [trades.length > 1 ? Math.ceil((time(trades[0]) - time(trades[n-1]))
    / day) : 30] *)
Definition tradingDays (trades : list Trade) : Z :=
  match trades with
  | first :: _ :: _ =>
      Qceiling (inject_Z (time first - time (last trades first))
                / inject_Z day_ms)
  | _ => 30%Z
  end.

(** [(trades.length / tradingDays) * 252] *)
Definition tradesPerYear (trades : list Trade) : number :=
  JS.mul (JS.div (Fin (RiskModel.count trades))
                 (Fin (inject_Z (tradingDays trades))))
         (Fin 252).

End RiskModelAnnual.

(** ** AdvancedStats: the [additionalMetrics] memo *)

Module AdvancedMetrics.

Definition initialBalance : Q := 10000.

(** [trades.map(t => t.net_profit / initialBalance)] *)
Definition returns (trades : list Trade) : list Q :=
  map (fun t => net_profit t / initialBalance) trades.

Definition sumOf (xs : list Q) : Q := fold_left Qplus xs 0.

(** [ahpr]; 0 on the early return. *)
Definition ahpr (trades : list Trade) : Q :=
  match trades with
  | [] => 0
  | _ => sumOf (returns trades) / RiskModel.count (returns trades) * 100
  end.

Definition mean (trades : list Trade) : Q :=
  sumOf (returns trades) / RiskModel.count (returns trades).

(** [variance], of which [stdDev / initialBalance] is the square root; 0
    on the early return, where [stdDev] is 0. *)
Definition variance (trades : list Trade) : Q :=
  match trades with
  | [] => 0
  | _ =>
      fold_left (fun sum r => sum + (r - mean trades) * (r - mean trades))
                (returns trades) 0
      / RiskModel.count (returns trades)
  end.

(** [profitabilityPct]; 50 on the early return. *)
Definition profitabilityPct (trades : list Trade) : Q :=
  match trades with
  | [] => 50
  | _ =>
      RiskModel.count (filter (fun t => Qgtb (net_profit t) 0) trades)
      / RiskModel.count trades * 100
  end.

End AdvancedMetrics.

(** ** RiskOfRuin: the longest losing streak of the history *)

Module RiskHistory.

(** The body of the [forEach], on [(maxConsLosses, currentStreak)]. *)
Definition step (s : nat * nat) (t : Trade) : nat * nat :=
  if Qltb (net_profit t) 0
  then (Nat.max (fst s) (S (snd s)), S (snd s))
  else (fst s, 0%nat).

Definition maxConsecutiveLosses (trades : list Trade) : nat :=
  match trades with
  | [] => 0%nat
  | _ => fst (fold_left step trades (0%nat, 0%nat))
  end.

End RiskHistory.

(** ** HourlyChart: the [hourlyData] memo

    [timezoneOffset] is an integer: the page sets it from
    [parseInt(e.target.value)] of a list of whole hours. *)

Module HourlyChart.

Record HourData : Type := mkHourData {
  hour : Z;
  winners : nat;
  losers : nat;
  total : nat;
  netProfit : Q
}.

(** [Array.from({ length: 24 }, (_, i) => ...)] *)
Definition initial : list HourData :=
  map (fun i => mkHourData (Z.of_nat i) 0 0 0 0) (seq 0 24).

Definition hour_ms : Z := 3600000.

(** [tradeDate.getUTCHours()] *)
Definition getUTCHours (t : Trade) : Z := ((time t / hour_ms) mod 24)%Z.

(** [(h + timezoneOffset) % 24], the remainder taking the sign of the
    dividend, then [if (hour < 0) hour += 24]. *)
Definition hourOf (timezoneOffset : Z) (t : Trade) : Z :=
  let hour := Z.rem (getUTCHours t + timezoneOffset) 24 in
  if (hour <? 0)%Z then (hour + 24)%Z else hour.

(** The updates of [hours[hour]] for one trade. *)
Definition record (t : Trade) (h : HourData) : HourData :=
  mkHourData (hour h)
             (if Qgtb (net_profit t) 0 then S (winners h) else winners h)
             (if Qgtb (net_profit t) 0 then losers h
              else if Qltb (net_profit t) 0 then S (losers h) else losers h)
             (S (total h))
             (netProfit h + net_profit t).

(** [hours[i]] updated in place; [None] where [hours[i]] is undefined and
    the access to its field throws. *)
Fixpoint update (i : nat) (f : HourData -> HourData) (hours : list HourData)
  : option (list HourData) :=
  match hours, i with
  | [], _ => None
  | h :: rest, O => Some (f h :: rest)
  | h :: rest, S i' =>
      match update i' f rest with
      | Some rest' => Some (h :: rest')
      | None => None
      end
  end.

Definition step (timezoneOffset : Z) (hours : option (list HourData))
  (t : Trade) : option (list HourData) :=
  match hours with
  | None => None
  | Some hs =>
      let i := hourOf timezoneOffset t in
      if (i <? 0)%Z then None else update (Z.to_nat i) (record t) hs
  end.

(** The 24 rows after the [forEach]. *)
Definition hours (timezoneOffset : Z) (trades : list Trade)
  : option (list HourData) :=
  fold_left (step timezoneOffset) trades (Some initial).

(** [hours.filter(h => h.total > 0)] *)
Definition hourlyData (timezoneOffset : Z) (trades : list Trade)
  : option (list HourData) :=
  match hours timezoneOffset trades with
  | Some hs => Some (filter (fun h => (0 <? total h)%nat) hs)
  | None => None
  end.

End HourlyChart.

(** ** DailyStats

    The component reads the clock ([new Date()]) and works in local time;
    both come from the host, as in [PeriodsComparison]. *)

Module DailyStats.

Import PeriodsComparison.

(** [d.setHours(0, 0, 0, 0); d.getTime()]: local midnight of the day the
    instant falls in. *)
Definition midnight (h : Host) (instant : Z) : Z :=
  (((instant + tz h) / day_ms) * day_ms - tz h)%Z.

Definition today (h : Host) : Z := midnight h (clock h).

(** [yesterday.setDate(yesterday.getDate() - 1)] *)
Definition yesterday (h : Host) : Z := (today h - day_ms)%Z.

Definition todaysTrades (h : Host) (trades : list Trade) : list Trade :=
  filter (fun t => (midnight h (time t) =? today h)%Z) trades.

Definition yesterdaysTrades (h : Host) (trades : list Trade) : list Trade :=
  filter (fun t => (midnight h (time t) =? yesterday h)%Z) trades.

Definition todayProfit (h : Host) (trades : list Trade) : Q :=
  fold_left (fun sum t => sum + net_profit t) (todaysTrades h trades) 0.

Definition yesterdayProfit (h : Host) (trades : list Trade) : Q :=
  fold_left (fun sum t => sum + net_profit t) (yesterdaysTrades h trades) 0.

Definition profitChange (h : Host) (trades : list Trade) : Q :=
  todayProfit h trades - yesterdayProfit h trades.

Definition todayWins (h : Host) (trades : list Trade) : nat :=
  List.length (filter (fun t => Qgtb (net_profit t) 0) (todaysTrades h trades)).

Definition todayLosses (h : Host) (trades : list Trade) : nat :=
  List.length (filter (fun t => Qltb (net_profit t) 0) (todaysTrades h trades)).

(** [xs.length > 0 ? Math.max(...xs) : 0], likewise with [Math.min]. *)
Definition maxOrZero (xs : list Q) : Q :=
  match xs with
  | [] => 0
  | x :: rest => fold_left Qmax rest x
  end.

Definition minOrZero (xs : list Q) : Q :=
  match xs with
  | [] => 0
  | x :: rest => fold_left Qmin rest x
  end.

Definition bestTrade (h : Host) (trades : list Trade) : Q :=
  maxOrZero (map net_profit (todaysTrades h trades)).

Definition worstTrade (h : Host) (trades : list Trade) : Q :=
  minOrZero (map net_profit (todaysTrades h trades)).

(** [[...new Set(xs)]]: the distinct values in the order they first
    occur. *)
Definition addToSet (seen : list string) (s : string) : list string :=
  if existsb (String.eqb s) seen then seen else seen ++ [s].

Definition distinct (xs : list string) : list string :=
  fold_left addToSet xs [].

Definition symbolsToday (h : Host) (trades : list Trade) : list string :=
  distinct (map symbol (todaysTrades h trades)).

Definition todayLots (h : Host) (trades : list Trade) : Q :=
  fold_left (fun sum t => sum + volume t) (todaysTrades h trades) 0.

End DailyStats.

(** ** Further notions used in the statements below *)

(** Trades listed in non-decreasing time order. *)
Definition byTime (a b : Trade) : Prop := (time a <= time b)%Z.

Fixpoint inTimeOrder (ts : list Trade) : bool :=
  match ts with
  | [] => true
  | t :: rest =>
      forallb (fun u => (time t <=? time u)%Z) rest && inTimeOrder rest
  end.

(** Entries in non-decreasing date order. *)
Definition byDate (a b : Z * Q) : Prop := (fst a <= fst b)%Z.

(** The value an association list holds for a key, 0 when it holds none. *)
Fixpoint profit_of (d : Z) (m : list (Z * Q)) : Q :=
  match m with
  | [] => 0
  | (k, v) :: rest => if (d =? k)%Z then v else profit_of d rest
  end.

(** The trades that fall on a UTC day, on a local weekday, in an hour of
    the hourly chart; the winning and the losing trades of a list. *)
Definition onDate (d : Z) (trades : list Trade) : list Trade :=
  filter (fun t => (ReportMetrics.isoDate t =? d)%Z) trades.

(** The indices of the weekdays, Sunday first. *)
Definition weekdayIndices : list Z := [0; 1; 2; 3; 4; 5; 6]%Z.

Definition onWeekday (tz i : Z) (trades : list Trade) : list Trade :=
  filter (fun t => (ReportMetrics.getDay tz t =? i)%Z) trades.

Definition inHour (timezoneOffset i : Z) (trades : list Trade) : list Trade :=
  filter (fun t => (HourlyChart.hourOf timezoneOffset t =? i)%Z) trades.

Definition wins (trades : list Trade) : list Trade :=
  filter (fun t => Qgtb (net_profit t) 0) trades.

Definition losses (trades : list Trade) : list Trade :=
  filter (fun t => Qltb (net_profit t) 0) trades.

(** The row the hourly chart should hold for hour [i]: the trades of that
    hour counted, with their winners, their losers and their net profit. *)
Definition hourRow (timezoneOffset : Z) (trades : list Trade) (i : nat)
  : HourlyChart.HourData :=
  let inHour := inHour timezoneOffset (Z.of_nat i) trades in
  HourlyChart.mkHourData (Z.of_nat i)
                         (List.length (wins inHour))
                         (List.length (losses inHour))
                         (List.length inHour)
                         (sum_net_profit inHour).

(** The test of [calculatePeriod]: [d >= start && d < end]. *)
Definition inWindow (start finish : Z) (t : Trade) : bool :=
  (start <=? time t)%Z && (time t <? finish)%Z.

(** Five wins of 2, one loss of 5 and four zero-profit trades. *)
Definition mostly_flat : list Trade :=
  [ trade 1 2; trade 2 2; trade 3 2; trade 4 2; trade 5 2;
    trade 6 (-5); trade 7 0; trade 8 0; trade 9 0; trade 10 0 ].

(** RiskOfRuin, piece by piece: the count of losses [result] computes for
    a level before it raises the reported count to at least 1, and the win
    rate and the loss per trade [results] takes from the trade list. *)
Definition lossesNeeded (lossPerTradeAvg lossPercent : Q) : number :=
  let remainingPercent := (100 - lossPercent) / 100 in
  let consecutiveLosses :=
    if Qgtb lossPerTradeAvg 0
    then RiskOfRuin.ceil_log_ratio remainingPercent (1 - lossPerTradeAvg)
    else Fin 0 in
  if JS.lt consecutiveLosses (Fin 0) || negb (JS.isFinite consecutiveLosses)
  then JS.ceil (JS.div (Fin lossPercent) (Fin (lossPerTradeAvg * 100)))
  else consecutiveLosses.

Definition ruinWinRate (trades : list Trade) : Q :=
  RiskOfRuin.count (filter RiskOfRuin.isWin trades) / RiskOfRuin.count trades.

Definition ruinLossPerTrade (trades : list Trade) : Q :=
  match filter RiskOfRuin.isLoss trades with
  | [] => 1
  | _ => Qabs (fold_left (fun s t => s + net_profit t)
                         (filter RiskOfRuin.isLoss trades) 0
               / RiskOfRuin.count (filter RiskOfRuin.isLoss trades))
  end / 10000.

(** A probability between 0 and 100 (for a tenth root: a radicand between
    0 and [100^10]). *)
Definition withinPercent (p : RiskOfRuin.Prob) : Prop :=
  match p with
  | RiskOfRuin.Exact (Fin q) => 0 <= q <= 100
  | RiskOfRuin.Exact _ => False
  | RiskOfRuin.Root10 x => 0 <= x <= Qpower 100 10
  end.




(** ** The other components that read the clock or draw random numbers

    Besides PeriodsComparison and DailyStats, the dashboard page,
    WeeklyChart and GoalTracker call [new Date()]; besides MAEMFEChart,
    DurationChart calls [Math.random()]. *)

Module Dashboard.

Import PeriodsComparison.

(** [todaysTrades] of the page (the Daily tab): the same test as in
    DailyStats. *)
Definition todaysTrades (h : Host) (trades : list Trade) : list Trade :=
  filter (fun t => (DailyStats.midnight h (time t)
                    =? DailyStats.midnight h (clock h))%Z) trades.

End Dashboard.

Module WeeklyChart.

Import PeriodsComparison.

Record DayData : Type := mkDayData {
  day : string;
  dayFull : string;
  date : string;
  profit : Q;
  trades_count : nat
}.

Definition dayNames : list string :=
  ["Mon"; "Tue"; "Wed"; "Thu"; "Fri"; "Sat"; "Sun"]%string.

Definition dayNamesFull : list string :=
  ["Monday"; "Tuesday"; "Wednesday"; "Thursday"; "Friday"; "Saturday";
   "Sunday"]%string.

(** [monday]: the clock reading moved by [mondayOffset] days, then
    [setHours(0, 0, 0, 0)]. *)
Definition monday (h : Host) : Z :=
  let dayOfWeek := getDay h in
  let mondayOffset := if (dayOfWeek =? 0)%Z then (-6)%Z else (1 - dayOfWeek)%Z in
  DailyStats.midnight h (clock h + mondayOffset * day_ms)%Z.

Definition monthShort : list string :=
  ["Jan"; "Feb"; "Mar"; "Apr"; "May"; "Jun"; "Jul"; "Aug"; "Sep"; "Oct";
   "Nov"; "Dec"]%string.

(** [toLocaleDateString('en-US', { month: 'short', day: 'numeric' })] *)
Definition toLocaleDateString (h : Host) (instant : Z) : string :=
  let n := ((instant + tz h) / day_ms)%Z in
  (nth (Z.to_nat (LocalDate.month n)) monthShort "" ++ " "
   ++ decimal (LocalDate.date n))%string.

(** One turn of the loop over [i]. *)
Definition dayRow (h : Host) (trades : list Trade) (i : nat) : DayData :=
  let currentDay := (monday h + Z.of_nat i * day_ms)%Z in
  let nextDay := (currentDay + day_ms)%Z in
  let dayTrades :=
    filter (fun t => (currentDay <=? time t)%Z && (time t <? nextDay)%Z)
           trades in
  mkDayData (nth i dayNames ""%string) (nth i dayNamesFull ""%string)
            (toLocaleDateString h currentDay)
            (fold_left (fun sum t => sum + net_profit t) dayTrades 0)
            (List.length dayTrades).

Definition weeklyData (h : Host) (trades : list Trade) : list DayData :=
  map (dayRow h trades) (seq 0 7).

Definition hasAnyTrades (h : Host) (trades : list Trade) : bool :=
  existsb (fun d => (0 <? trades_count d)%nat) (weeklyData h trades).

End WeeklyChart.

Module GoalTracker.

Import PeriodsComparison.

Record Profits : Type := mkProfits {
  daily : Q;
  weekly : Q;
  monthly : Q
}.

(** [trades.filter(t => new Date(t.time) >= start).reduce(...)] *)
Definition since (start : Z) (trades : list Trade) : Q :=
  fold_left (fun sum t => sum + net_profit t)
            (filter (fun t => (start <=? time t)%Z) trades) 0.

Definition weekStart (h : Host) : Z :=
  let dayOfWeek := getDay h in
  let mondayOffset := if (dayOfWeek =? 0)%Z then (-6)%Z else (1 - dayOfWeek)%Z in
  (today h + mondayOffset * day_ms)%Z.

Definition monthStart (h : Host) : Z :=
  newDate h (getFullYear h) (getMonth h) 1.

Definition profits (h : Host) (trades : list Trade) : Profits :=
  mkProfits (since (today h) trades) (since (weekStart h) trades)
            (since (monthStart h) trades).

End GoalTracker.

Module DurationChart.

(** A trade with its optional [entry_time], as an instant. *)
Record TimedTrade : Type := mkTimedTrade {
  closed : Trade;
  entry_time : option Z
}.

Record TradePoint : Type := mkTradePoint {
  duration : Q;
  durationLabel : string;
  growth : Q;
  profit : Q;
  isWinner : bool
}.

Definition initialBalance : Q := 10000.

(** [minutes % 60]: the remainder has the sign of [minutes]. *)
Definition rem60 (minutes : Q) : Q :=
  let q := minutes / 60 in
  minutes - 60 * inject_Z (if Qle_bool 0 q then Qfloor q else Qceiling q).

Definition formatDuration (minutes : Q) : string :=
  let hours := Qfloor (minutes / 60) in
  let mins := Qfloor (rem60 minutes) in
  if (0 <? hours)%Z
  then (decimal hours ++ "h " ++ decimal mins ++ "m")%string
  else (decimal mins ++ "m")%string.

(** The point of one trade; [random] is read only when the trade has no
    [entry_time]. *)
Definition point (random : Q) (t : TimedTrade) : TradePoint :=
  let durationMinutes :=
    match entry_time t with
    | Some entry => inject_Z (time (closed t) - entry) / 60000
    | None => random * 600 + 10
    end in
  let p := net_profit (closed t) in
  mkTradePoint durationMinutes (formatDuration durationMinutes)
               (p / initialBalance * 100) p (Qgtb p 0).

(** The [forEach]: a trade without [entry_time] consumes the next draw,
    the others none.  Returns [(winners, losers)]. *)
Fixpoint points_from (draws : nat -> Q) (i : nat) (trades : list TimedTrade)
  : list TradePoint * list TradePoint :=
  match trades with
  | [] => ([], [])
  | t :: rest =>
      let p := point (draws i) t in
      let next := match entry_time t with Some _ => i | None => S i end in
      let '(ws, ls) := points_from draws next rest in
      if isWinner p then (p :: ws, ls) else (ws, p :: ls)
  end.

Definition points (draws : nat -> Q) (trades : list TimedTrade)
  : list TradePoint * list TradePoint :=
  points_from draws 0 trades.

End DurationChart.

(** No trade closes from the earlier of two clock readings up to the
    later one. *)
Definition noCloseBetween (h1 h2 : PeriodsComparison.Host)
           (trades : list Trade) : Prop :=
  Forall (fun t =>
            ~ (Z.min (PeriodsComparison.clock h1) (PeriodsComparison.clock h2)
               <= time t
               < Z.max (PeriodsComparison.clock h1)
                       (PeriodsComparison.clock h2))%Z) trades.

(** What a point of MAEMFEChart shows besides [mae], and a point of
    DurationChart besides the duration and its label. *)
Definition withoutMae (p : MAEMFEChart.TradePoint) : number * Q * bool :=
  (MAEMFEChart.pips p, MAEMFEChart.profit p, MAEMFEChart.isWinner p).

Definition withoutDuration (p : DurationChart.TradePoint) : Q * Q * bool :=
  (DurationChart.growth p, DurationChart.profit p, DurationChart.isWinner p).

(** The trades DurationChart draws a random duration for. *)
Definition untimed (trades : list DurationChart.TimedTrade)
  : list DurationChart.TimedTrade :=
  filter (fun t => match DurationChart.entry_time t with
                   | Some _ => false
                   | None => true
                   end) trades.

(** A clock reading on Wednesday 6 March 2024, 10:30 at UTC+7, and one
    five hours later the same day; two trades of that week, the first with
    an entry time. *)
Definition wednesday_morning : PeriodsComparison.Host :=
  PeriodsComparison.mkHost 1709695800000 25200000.

Definition wednesday_afternoon : PeriodsComparison.Host :=
  PeriodsComparison.mkHost 1709713800000 25200000.

Definition that_week : list Trade :=
  [ mkTrade 1 1709600000000 "EURUSD" BUY 1 40;
    mkTrade 2 1709690000000 "XAUUSD" SELL (1 # 2) (-25) ].

Definition that_week_timed : list DurationChart.TimedTrade :=
  [ DurationChart.mkTimedTrade (mkTrade 1 1709600000000 "EURUSD" BUY 1 40)
                               (Some 1709596400000%Z);
    DurationChart.mkTimedTrade
      (mkTrade 2 1709690000000 "XAUUSD" SELL (1 # 2) (-25)) None ].

(** A winning trade closed at local midnight of the day a host's clock
    reads. *)
Definition closedAtMidnight (h : PeriodsComparison.Host) : Trade :=
  mkTrade 1 (PeriodsComparison.today h) "EURUSD" BUY 1 1.

(** * Properties *)

(** ** Comparisons *)

Lemma Qltb_lt (x y : Q) : Qltb x y = true <-> x < y.
Proof.
  unfold Qltb. rewrite negb_true_iff.
  split; intro H.
  - apply Qnot_le_lt. intro L. apply Qle_bool_iff in L. congruence.
  - destruct (Qle_bool y x) eqn:E; [|reflexivity].
    apply Qle_bool_iff in E. exfalso. apply (Qlt_not_le _ _ H E).
Qed.

Lemma Qltb_ge (x y : Q) : Qltb x y = false <-> y <= x.
Proof.
  unfold Qltb. rewrite negb_false_iff. apply Qle_bool_iff.
Qed.

Lemma Qgtb_gt (x y : Q) : Qgtb x y = true <-> y < x.
Proof. apply Qltb_lt. Qed.

Lemma Qgtb_le (x y : Q) : Qgtb x y = false <-> x <= y.
Proof. apply Qltb_ge. Qed.

Lemma Qle_bool_gt (x y : Q) : Qle_bool x y = false <-> y < x.
Proof.
  split; intro H.
  - apply Qnot_le_lt. intro L. apply Qle_bool_iff in L. congruence.
  - destruct (Qle_bool x y) eqn:E; [|reflexivity].
    apply Qle_bool_iff in E. exfalso. apply (Qlt_not_le _ _ H E).
Qed.

Lemma Qeq_bool_false (x y : Q) : Qeq_bool x y = false <-> ~ x == y.
Proof.
  split.
  - apply Qeq_bool_neq.
  - intro H. destruct (Qeq_bool x y) eqn:E; [|reflexivity].
    apply Qeq_bool_iff in E. contradiction.
Qed.

(** Case analysis on a boolean comparison, leaving the order fact. *)
Ltac qcases :=
  repeat match goal with
  | H : Qltb _ _ = true |- _ => apply Qltb_lt in H
  | H : Qltb _ _ = false |- _ => apply Qltb_ge in H
  | H : Qgtb _ _ = true |- _ => apply Qgtb_gt in H
  | H : Qgtb _ _ = false |- _ => apply Qgtb_le in H
  | H : Qgeb _ _ = true |- _ => apply Qle_bool_iff in H
  | H : Qgeb _ _ = false |- _ => apply Qle_bool_gt in H
  | H : Qle_bool _ _ = true |- _ => apply Qle_bool_iff in H
  | H : Qle_bool _ _ = false |- _ => apply Qle_bool_gt in H
  | H : Qeq_bool _ _ = true |- _ => apply Qeq_bool_iff in H
  | H : Qeq_bool _ _ = false |- _ => apply Qeq_bool_false in H
  end.

(** Case analysis on every [Math.max], [Math.min] and guarded update. *)
Ltac minmax_cases :=
  unfold Qmax, Qmin;
  repeat match goal with
         | |- context [if Qle_bool ?a ?b then _ else _] =>
             destruct (Qle_bool a b) eqn:?
         | |- context [if Qgtb ?a ?b then _ else _] =>
             destruct (Qgtb a b) eqn:?
         | |- context [if Qltb ?a ?b then _ else _] =>
             destruct (Qltb a b) eqn:?
         | H : context [if Qle_bool ?a ?b then _ else _] |- _ =>
             destruct (Qle_bool a b) eqn:?
         | H : context [if Qgtb ?a ?b then _ else _] |- _ =>
             destruct (Qgtb a b) eqn:?
         | H : context [if Qltb ?a ?b then _ else _] |- _ =>
             destruct (Qltb a b) eqn:?
         end;
  qcases; try lra.

(** ** Sorting by time keeps the trades *)

Lemma insertByTime_perm (t : Trade) (l : list Trade) :
  Permutation (t :: l) (insertByTime t l).
Proof.
  induction l as [|u l IH]; simpl.
  - apply Permutation_refl.
  - destruct (time t <=? time u)%Z.
    + apply Permutation_refl.
    + eapply perm_trans; [apply perm_swap|].
      apply perm_skip. exact IH.
Qed.

Lemma sortByTime_perm (ts : list Trade) : Permutation ts (sortByTime ts).
Proof.
  induction ts as [|t ts IH]; simpl.
  - constructor.
  - eapply perm_trans; [apply perm_skip; exact IH|].
    apply insertByTime_perm.
Qed.

Lemma sortByTime_nonempty (ts : list Trade) :
  ts <> [] -> sortByTime ts <> [].
Proof.
  intros H E. apply H.
  pose proof (sortByTime_perm ts) as P. rewrite E in P.
  apply Permutation_sym, Permutation_nil in P. exact P.
Qed.

(** ** Sums of net profit *)

Lemma fold_net_profit_shift (ts : list Trade) (a : Q) :
  fold_left (fun s t => s + net_profit t) ts a
  == a + fold_left (fun s t => s + net_profit t) ts 0.
Proof.
  revert a. induction ts as [|t ts IH]; intro a; cbn [fold_left].
  - lra.
  - rewrite IH. rewrite (IH (0 + net_profit t)). lra.
Qed.

Lemma sum_net_profit_cons (t : Trade) (ts : list Trade) :
  sum_net_profit (t :: ts) == net_profit t + sum_net_profit ts.
Proof.
  unfold sum_net_profit. cbn [fold_left]. rewrite fold_net_profit_shift. lra.
Qed.

Lemma sum_net_profit_perm (l l' : list Trade) :
  Permutation l l' -> sum_net_profit l == sum_net_profit l'.
Proof.
  induction 1.
  - reflexivity.
  - rewrite !sum_net_profit_cons, IHPermutation. reflexivity.
  - rewrite !sum_net_profit_cons. lra.
  - etransitivity; eassumption.
Qed.

(** ** The running balance (C3) *)

Lemma balance_pass_final (ts : list Trade) (rb : Q) :
  fst (TradingReport.balance_pass rb ts) == rb + sum_net_profit ts.
Proof.
  revert rb. induction ts as [|t ts IH]; intro rb.
  - simpl. unfold sum_net_profit. simpl. lra.
  - simpl.
    destruct (TradingReport.balance_pass (rb + net_profit t) ts) as [f ps] eqn:E.
    simpl. specialize (IH (rb + net_profit t)). rewrite E in IH. simpl in IH.
    rewrite IH, sum_net_profit_cons. lra.
Qed.

Lemma growth_pass_final (ib : Q) (ts : list Trade) (b : Q) :
  fst (GrowthChart.growth_pass ib b ts) == b + sum_net_profit ts.
Proof.
  revert b. induction ts as [|t ts IH]; intro b.
  - simpl. unfold sum_net_profit. simpl. lra.
  - simpl.
    destruct (GrowthChart.growth_pass ib (b + net_profit t) ts) as [f gs] eqn:E.
    simpl. specialize (IH (b + net_profit t)). rewrite E in IH. simpl in IH.
    rewrite IH, sum_net_profit_cons. lra.
Qed.

(** A whole number of cents is left alone by the rounding of the chart
    points. *)
Lemma round_cents_exact (r : Q) (k : Z) :
  r * 100 == inject_Z k -> JS.round (r * 100) / 100 == r.
Proof.
  intro H. unfold JS.round.
  assert (Qfloor (r * 100 + (1 # 2)) = k) as ->.
  { rewrite (Qfloor_comp _ (inject_Z k + (1 # 2)))
      by (rewrite H; reflexivity).
    pose proof (Qfloor_le (inject_Z k + (1 # 2))) as L.
    pose proof (Qlt_floor (inject_Z k + (1 # 2))) as U.
    set (f := Qfloor (inject_Z k + (1 # 2))) in *.
    rewrite inject_Z_plus in U. change (inject_Z 1) with 1 in U.
    assert (inject_Z f < inject_Z (k + 1)) as A
      by (rewrite inject_Z_plus; change (inject_Z 1) with 1; lra).
    assert (inject_Z k < inject_Z (f + 1)) as B
      by (rewrite inject_Z_plus; change (inject_Z 1) with 1; lra).
    rewrite <- Zlt_Qlt in A, B. lia. }
  rewrite <- H. field.
Qed.

(** Each emitted point carries the running balance rounded to cents. *)
Lemma balance_pass_points (ts : list Trade) (rb : Q) :
  Forall (fun p => exists r, TradingReport.balance p = JS.round (r * 100) / 100)
         (snd (TradingReport.balance_pass rb ts)).
Proof.
  revert rb. induction ts as [|t ts IH]; intro rb; simpl.
  - constructor.
  - destruct (TradingReport.balance_pass (rb + net_profit t) ts) as [f ps] eqn:E.
    simpl. constructor.
    + exists (rb + net_profit t). reflexivity.
    + specialize (IH (rb + net_profit t)). rewrite E in IH. exact IH.
Qed.

(** The last point of [balanceData] is the final running balance rounded
    to cents. *)
Lemma balance_pass_last (ts : list Trade) (rb : Q) (d : TradingReport.BalancePoint) :
  ts <> [] ->
  TradingReport.balance (last (snd (TradingReport.balance_pass rb ts)) d)
  = JS.round (fst (TradingReport.balance_pass rb ts) * 100) / 100.
Proof.
  revert rb. induction ts as [|t ts IH]; intros rb Hne; [congruence|].
  destruct ts as [|u ts].
  - reflexivity.
  - specialize (IH (rb + net_profit t) ltac:(discriminate)).
    remember (u :: ts) as rest eqn:Er.
    cbn [TradingReport.balance_pass]. unfold TradingReport.balance_step.
    destruct (TradingReport.balance_pass (rb + net_profit t) rest)
      as [f ps] eqn:E.
    cbn [fst snd] in *.
    destruct ps as [|p ps].
    + exfalso. subst rest. cbn [TradingReport.balance_pass] in E.
      unfold TradingReport.balance_step in E.
      destruct (TradingReport.balance_pass _ ts). discriminate.
    + exact IH.
Qed.

(** ChartPanel: the day profits add up to the trades' net profit. *)
Lemma sum_days_addToDay (k : Z) (p : Q) (m : list (Z * Q)) :
  sum_days (ChartPanel.addToDay k p m) == sum_days m + p.
Proof.
  induction m as [|[k' q] m IH]; simpl.
  - lra.
  - destruct (k =? k')%Z; [simpl; lra|].
    destruct (k <? k')%Z; simpl; [lra|].
    rewrite IH. lra.
Qed.

Lemma sum_days_byDay_from (off : Z) (ts : list Trade) (m : list (Z * Q)) :
  sum_days (fold_left
              (fun m t => ChartPanel.addToDay (ChartPanel.dateKey off t)
                                               (net_profit t) m) ts m)
  == sum_days m + sum_net_profit ts.
Proof.
  revert m. induction ts as [|t ts IH]; intro m; simpl.
  - unfold sum_net_profit. simpl. lra.
  - rewrite IH, sum_days_addToDay, sum_net_profit_cons. lra.
Qed.

Lemma day_pass_last (ib : Q) (days : list (Z * Q)) (s : ChartPanel.EquityState)
      (d0 : ChartPanel.EquityState * ChartPanel.DayData) :
  days <> [] ->
  ChartPanel.balance (snd (last (ChartPanel.day_pass ib s days) d0))
  == ib + ChartPanel.cumProfit s + sum_days days.
Proof.
  revert s. induction days as [|d days IH]; intros s Hne; [congruence|].
  destruct days as [|d' days].
  - simpl. lra.
  - change (ChartPanel.day_pass ib s (d :: d' :: days))
      with (ChartPanel.day_step ib s d
            :: ChartPanel.day_pass ib (fst (ChartPanel.day_step ib s d))
                                   (d' :: days)).
    remember (d' :: days) as rest.
    assert (Hr : rest <> []) by (subst; discriminate).
    assert (Hp : ChartPanel.day_pass ib (fst (ChartPanel.day_step ib s d)) rest
                 <> []) by (subst; simpl; discriminate).
    destruct (ChartPanel.day_pass ib (fst (ChartPanel.day_step ib s d)) rest)
      as [|x xs] eqn:E; [congruence|].
    change (last (ChartPanel.day_step ib s d :: x :: xs) d0)
      with (last (x :: xs) d0).
    rewrite <- E. rewrite IH by exact Hr.
    simpl. lra.
Qed.

(** The balance of the last ChartPanel point is exact as well. *)
Lemma chartData_final_balance (initialBalance : Q) (off : Z)
      (trades : list Trade) d0 :
  trades <> [] ->
  ChartPanel.balance
    (snd (last (ChartPanel.chartTrace initialBalance off trades) d0))
  == initialBalance + sum_net_profit trades.
Proof.
  intro Hne. unfold ChartPanel.chartTrace.
  assert (Hd : ChartPanel.byDay off trades <> []).
  { intro E.
    destruct trades as [|t ts]; [congruence|].
    unfold ChartPanel.byDay in E. simpl in E.
    assert (forall ts m, m <> [] ->
              fold_left (fun m t => ChartPanel.addToDay (ChartPanel.dateKey off t)
                                      (net_profit t) m) ts m <> []) as F.
    { clear. induction ts as [|t ts IH]; intros m Hm; simpl; [exact Hm|].
      apply IH. destruct m as [|[k q] m]; simpl; [discriminate|].
      destruct (_ =? _)%Z; [discriminate|].
      destruct (_ <? _)%Z; discriminate. }
    apply (F ts [(ChartPanel.dateKey off t, 0 + net_profit t)]);
      [discriminate|exact E]. }
  rewrite day_pass_last by exact Hd.
  unfold ChartPanel.byDay. rewrite sum_days_byDay_from. simpl. lra.
Qed.

Lemma last_map {A B} (f : A -> B) (l : list A) (d : A) :
  last (map f l) (f d) = f (last l d).
Proof.
  induction l as [|x l IH]; [reflexivity|].
  destruct l as [|y l]; [reflexivity|].
  cbn [map] in *. exact IH.
Qed.

(** C3.  The balance reconstructed by accumulating [net_profit] from the
    initial balance ends at [initialBalance + Σ net_profit], exactly over the
    rationals, for every trade list and every initial balance: this holds
    of [runningBalance] in TradingReport (which takes the trades in time
    order), of [balance] in GrowthChart (which takes them as given) and of
    the [balance] of the last point ChartPanel emits (the initial balance
    when there is no trade). *)
Theorem final_balance_exact (initialBalance : Q) (trades : list Trade) :
  TradingReport.runningBalance_final initialBalance trades
    == initialBalance + sum_net_profit trades
  /\ GrowthChart.balance_final initialBalance trades
    == initialBalance + sum_net_profit trades
  /\ (forall off,
        ChartPanel.balance
          (last (ChartPanel.chartData initialBalance off trades)
                (ChartPanel.mkDayData 0 0 initialBalance (Fin 0) (Fin 0)))
        == initialBalance + sum_net_profit trades).
Proof.
  split; [|split].
  - unfold TradingReport.runningBalance_final.
    rewrite balance_pass_final.
    rewrite <- (sum_net_profit_perm _ _ (sortByTime_perm trades)).
    reflexivity.
  - unfold GrowthChart.balance_final. apply growth_pass_final.
  - intro off. destruct trades as [|t ts].
    + unfold sum_net_profit. simpl. lra.
    + unfold ChartPanel.chartData.
      rewrite (last_map snd _
                 (ChartPanel.mkEquity 0 initialBalance,
                  ChartPanel.mkDayData 0 0 initialBalance (Fin 0) (Fin 0))).
      apply chartData_final_balance. discriminate.
Qed.

(** ** The streak pass (C1, C10) *)

Section Streaks.

Import TradingReport.

#[local] Arguments Nat.max _ _ : simpl never.
#[local] Arguments Nat.add _ _ : simpl nomatch.

Lemma run_prefix_le_longest {A} (p : A -> bool) (l : list A) :
  (StreakSpec.run_prefix p l <= StreakSpec.longest_run p l)%nat.
Proof. destruct l; simpl; lia. Qed.

Lemma streak_step_fresh (s : StreakState) (t : Trade) :
  fresh_ok (streak_step s t).
Proof.
  unfold fresh_ok, streak_step.
  destruct (continues (lastWasWin s) (isWin t)); simpl; discriminate.
Qed.

Ltac streak_cases s t :=
  unfold streak_step, carryW, carryL, continues, truthy, notWin;
  destruct (lastWasWin s) as [[|]|] eqn:EL;
  destruct (isWin t) eqn:EW; simpl;
  repeat match goal with
         | |- context [(?a <? ?b)%nat] => destruct (Nat.ltb_spec a b)
         end; simpl; try lia.

Lemma streak_wins_from (l : list Trade) (s : StreakState) :
  fresh_ok s ->
  maxWinStreak (streak_finish (fold_left streak_step l s))
  = Nat.max (maxWinStreak s)
            (Nat.max (carryW s + StreakSpec.run_prefix isWin l)
                     (StreakSpec.longest_run isWin l)).
Proof.
  revert s. induction l as [|t l IH]; intros s Hs.
  - unfold carryW, truthy. simpl.
    destruct (lastWasWin s) as [[|]|]; simpl;
      repeat match goal with
             | |- context [(?a <? ?b)%nat] => destruct (Nat.ltb_spec a b)
             end; lia.
  - cbn [fold_left]. rewrite IH by apply streak_step_fresh.
    pose proof (run_prefix_le_longest isWin l) as Hrl.
    cbn [StreakSpec.run_prefix StreakSpec.longest_run].
    unfold fresh_ok in Hs.
    streak_cases s t; rewrite ?EW; try lia.
    all: rewrite (Hs eq_refl); lia.
Qed.

Lemma streak_losses_from (l : list Trade) (s : StreakState) :
  fresh_ok s ->
  maxLossStreak (streak_finish (fold_left streak_step l s))
  = Nat.max (maxLossStreak s)
            (Nat.max (carryL s + StreakSpec.run_prefix notWin l)
                     (StreakSpec.longest_run notWin l)).
Proof.
  revert s. induction l as [|t l IH]; intros s Hs.
  - unfold carryL, truthy. simpl.
    destruct (lastWasWin s) as [[|]|]; simpl;
      repeat match goal with
             | |- context [(?a <? ?b)%nat] => destruct (Nat.ltb_spec a b)
             end; lia.
  - cbn [fold_left]. rewrite IH by apply streak_step_fresh.
    pose proof (run_prefix_le_longest notWin l) as Hrl.
    cbn [StreakSpec.run_prefix StreakSpec.longest_run].
    unfold fresh_ok in Hs.
    unfold notWin in Hrl.
    streak_cases s t; rewrite ?EW; simpl; try lia.
    all: rewrite (Hs eq_refl); lia.
Qed.

(** The P/L maxima keep their sign through the pass. *)
Lemma streak_step_signs (s : StreakState) (t : Trade) :
  pl_signs s -> pl_signs (streak_step s t).
Proof.
  unfold pl_signs, streak_step. intros [Hp Hl].
  destruct (continues (lastWasWin s) (isWin t)); simpl; [tauto|].
  split.
  - destruct (truthy (lastWasWin s)); simpl; [|exact Hp].
    destruct (Qgtb _ _) eqn:E; [|exact Hp]. qcases. lra.
  - destruct (truthy (lastWasWin s)); simpl; [exact Hl|].
    destruct (Qltb _ _) eqn:E; [|exact Hl]. qcases. lra.
Qed.

Lemma streak_fold_signs (l : list Trade) (s : StreakState) :
  pl_signs s -> pl_signs (fold_left streak_step l s).
Proof.
  revert s. induction l as [|t l IH]; intros s Hs; simpl; [exact Hs|].
  apply IH, streak_step_signs, Hs.
Qed.

End Streaks.

(** *** The P/L maxima against the runs a later trade ends *)

Section StreakPL.

Import TradingReport.

Lemma best_ended_profit_nonneg (l : list Trade) :
  0 <= StreakSpec.best_ended_profit l.
Proof.
  induction l as [|t l IH]; cbn [StreakSpec.best_ended_profit]; [lra|].
  unfold Qmax. destruct (Qle_bool _ _) eqn:E; qcases; lra.
Qed.

Lemma worst_ended_loss_nonpos (l : list Trade) :
  StreakSpec.worst_ended_loss l <= 0.
Proof.
  induction l as [|t l IH]; cbn [StreakSpec.worst_ended_loss]; [lra|].
  unfold Qmin. destruct (Qle_bool _ _) eqn:E; qcases; lra.
Qed.

Lemma ended_le_best (l : list Trade) :
  StreakSpec.ended_run_sum isWin l <= StreakSpec.best_ended_profit l.
Proof.
  destruct l as [|t l].
  - unfold StreakSpec.ended_run_sum. simpl. lra.
  - cbn [StreakSpec.best_ended_profit].
    unfold Qmax. destruct (Qle_bool _ _) eqn:E; qcases; lra.
Qed.

Lemma worst_le_ended (l : list Trade) :
  StreakSpec.worst_ended_loss l
  <= StreakSpec.ended_run_sum (fun t => negb (isWin t)) l.
Proof.
  destruct l as [|t l].
  - unfold StreakSpec.ended_run_sum. simpl. lra.
  - cbn [StreakSpec.worst_ended_loss].
    unfold Qmin. destruct (Qle_bool _ _) eqn:E; qcases; lra.
Qed.

Lemma streak_step_pl_ok (s : StreakState) (t : Trade) :
  pl_ok s -> pl_ok (streak_step s t).
Proof.
  intros [Hsigns [Hn [Hw Hl]]].
  split; [apply streak_step_signs; exact Hsigns|].
  unfold streak_step, continues.
  destruct (lastWasWin s) as [[|]|] eqn:EL;
    destruct (isWin t) eqn:EW; cbn [Bool.eqb lastWasWin currentStreakProfit];
    unfold isWin in EW; qcases;
    (split; [discriminate|]); split; intro H; try discriminate H.
  - specialize (Hw eq_refl). lra.
  - exact EW.
  - apply Qlt_le_weak. exact EW.
  - specialize (Hl eq_refl). lra.
  - specialize (Hn eq_refl). lra.
  - specialize (Hn eq_refl). lra.
Qed.

(** After the pass, [maxConsecutiveProfit] is the largest P/L among the
    winning runs that a later trade ends. *)
Lemma streak_profit_from (l : list Trade) (s : StreakState) :
  pl_ok s ->
  maxConsecutiveProfit (streak_finish (fold_left streak_step l s))
  == Qmax (maxConsecutiveProfit s)
          (Qmax (if StreakSpec.run_ended isWin l
                 then carryProfit s + StreakSpec.run_sum isWin l else 0)
                (StreakSpec.best_ended_profit l)).
Proof.
  revert s. induction l as [|t l IH]; intros s Hs.
  - destruct Hs as [[Hp _] _]. cbn. minmax_cases.
  - cbn [fold_left]. rewrite IH by (apply streak_step_pl_ok; exact Hs).
    pose proof (best_ended_profit_nonneg l) as Hb.
    pose proof (ended_le_best l) as He.
    destruct Hs as [[Hp _] [Hn [Hw _]]].
    cbn [StreakSpec.best_ended_profit StreakSpec.run_ended StreakSpec.run_sum].
    unfold StreakSpec.ended_run_sum in *.
    cbn [StreakSpec.run_ended StreakSpec.run_sum].
    unfold streak_step, carryProfit, continues, truthy.
    destruct (lastWasWin s) as [[|]|] eqn:EL;
      destruct (isWin t) eqn:EW;
      cbn [Bool.eqb lastWasWin currentStreakProfit maxConsecutiveProfit
           andb negb];
      try specialize (Hw eq_refl); try specialize (Hn eq_refl);
      destruct (StreakSpec.run_ended isWin l);
      minmax_cases.
Qed.

Lemma streak_loss_from (l : list Trade) (s : StreakState) :
  pl_ok s ->
  maxConsecutiveLoss (streak_finish (fold_left streak_step l s))
  == Qmin (maxConsecutiveLoss s)
          (Qmin (if StreakSpec.run_ended (fun t => negb (isWin t)) l
                 then carryLoss s
                      + StreakSpec.run_sum (fun t => negb (isWin t)) l
                 else 0)
                (StreakSpec.worst_ended_loss l)).
Proof.
  revert s. induction l as [|t l IH]; intros s Hs.
  - destruct Hs as [[_ Hp] _]. cbn. minmax_cases.
  - cbn [fold_left]. rewrite IH by (apply streak_step_pl_ok; exact Hs).
    pose proof (worst_ended_loss_nonpos l) as Hb.
    pose proof (worst_le_ended l) as He.
    destruct Hs as [[_ Hp] [Hn [_ Hl]]].
    cbn [StreakSpec.worst_ended_loss StreakSpec.run_ended StreakSpec.run_sum].
    unfold StreakSpec.ended_run_sum in *.
    cbn [StreakSpec.run_ended StreakSpec.run_sum].
    unfold streak_step, carryLoss, continues, truthy.
    destruct (lastWasWin s) as [[|]|] eqn:EL;
      destruct (isWin t) eqn:EW;
      cbn [Bool.eqb lastWasWin currentStreakProfit maxConsecutiveLoss
           andb negb];
      try specialize (Hl eq_refl); try specialize (Hn eq_refl);
      destruct (StreakSpec.run_ended (fun t => negb (isWin t)) l);
      minmax_cases.
Qed.

Lemma streak_init_pl_ok : pl_ok streak_init.
Proof.
  unfold pl_ok, pl_signs. simpl.
  repeat split; try lra; intro H; try discriminate H; lra.
Qed.

End StreakPL.

(** What the pass leaves in the two P/L fields: the extreme cumulative P/L
    among the streaks that a later trade ended. *)
Lemma streak_pl_are_ended_extremes (trades : list Trade) :
  TradingReport.streakProfit (TradingReport.streaks trades)
  == StreakSpec.best_ended_profit (sortByTime trades)
  /\ TradingReport.streakLoss (TradingReport.streaks trades)
  == StreakSpec.worst_ended_loss (sortByTime trades).
Proof.
  destruct trades as [|t ts]; [split; reflexivity|].
  unfold TradingReport.streaks, TradingReport.streak_pass.
  cbn [TradingReport.streakProfit TradingReport.streakLoss].
  rewrite (streak_profit_from _ _ streak_init_pl_ok).
  rewrite (streak_loss_from _ _ streak_init_pl_ok).
  pose proof (best_ended_profit_nonneg (sortByTime (t :: ts))).
  pose proof (worst_ended_loss_nonpos (sortByTime (t :: ts))).
  pose proof (ended_le_best (sortByTime (t :: ts))) as He.
  pose proof (worst_le_ended (sortByTime (t :: ts))) as Hw.
  unfold StreakSpec.ended_run_sum in He, Hw.
  unfold carryProfit, carryLoss, TradingReport.streak_init.
  cbn [TradingReport.lastWasWin TradingReport.truthy
       TradingReport.maxConsecutiveProfit TradingReport.maxConsecutiveLoss
       TradingReport.currentStreakProfit].
  split.
  - destruct (StreakSpec.run_ended TradingReport.isWin _); minmax_cases.
  - destruct (StreakSpec.run_ended
                (fun t => negb (TradingReport.isWin t)) _); minmax_cases.
Qed.

(** C1, as amended.  The streak pass knows two signs only: a trade is a win
    when [net_profit > 0] and a non-win otherwise, so a zero-profit trade
    ends a winning streak and starts or extends a losing one.  For every
    trade list, [consecutiveWins] is the length of the longest run of wins in
    time order and [consecutiveLosses] the length of the longest run of
    non-wins, the streak in progress at the end of the sequence included;
    every streak that a later trade ends has had its cumulative P/L compared
    against the maximum of its sign; on Scenario D the result is 3 losses
    and 2 wins. *)
Theorem streak_lengths_are_longest_runs (trades : list Trade) :
  TradingReport.consecutiveWins (TradingReport.streaks trades)
  = StreakSpec.longest_run TradingReport.isWin (sortByTime trades)
  /\ TradingReport.consecutiveLosses (TradingReport.streaks trades)
  = StreakSpec.longest_run notWin (sortByTime trades)
  /\ StreakSpec.best_ended_profit (sortByTime trades)
     <= TradingReport.streakProfit (TradingReport.streaks trades)
  /\ TradingReport.streakLoss (TradingReport.streaks trades)
     <= StreakSpec.worst_ended_loss (sortByTime trades)
  /\ TradingReport.consecutiveLosses (TradingReport.streaks scenarioD) = 3%nat
  /\ TradingReport.consecutiveWins (TradingReport.streaks scenarioD) = 2%nat.
Proof.
  assert (F : fresh_ok TradingReport.streak_init) by (intro; reflexivity).
  destruct (streak_pl_are_ended_extremes trades) as [HP HL].
  split; [|split; [|split; [|split; [|split; reflexivity]]]].
  - destruct trades as [|t ts]; [reflexivity|].
    unfold TradingReport.streaks, TradingReport.streak_pass.
    cbn [TradingReport.consecutiveWins].
    rewrite (streak_wins_from _ _ F).
    pose proof (run_prefix_le_longest TradingReport.isWin
                  (sortByTime (t :: ts))).
    unfold carryW. simpl TradingReport.truthy. cbv iota.
    simpl TradingReport.maxWinStreak. lia.
  - destruct trades as [|t ts]; [reflexivity|].
    unfold TradingReport.streaks, TradingReport.streak_pass.
    cbn [TradingReport.consecutiveLosses].
    rewrite (streak_losses_from _ _ F).
    pose proof (run_prefix_le_longest notWin (sortByTime (t :: ts))).
    unfold carryL. simpl TradingReport.truthy. simpl negb. cbv iota.
    simpl TradingReport.maxLossStreak. simpl TradingReport.currentStreak. lia.
  - rewrite HP. apply Qle_refl.
  - rewrite HL. apply Qle_refl.
Qed.

(** C1 as stated fails: after one loss, a zero-profit trade extends the
    losing streak to 2, where the specification's analyzer (in which a flat
    trade extends neither counter) reports 1; and the P/L of the streak in
    progress at the end is not compared against the maxima. *)
Lemma zero_profit_extends_losing_streak :
  TradingReport.consecutiveLosses (TradingReport.streaks loss_then_flat)
    = 2%nat
  /\ TradingReport.consecutiveLosses (StreakSpec.streaks loss_then_flat)
    = 1%nat
  /\ TradingReport.streaks loss_then_flat <> StreakSpec.streaks loss_then_flat.
Proof.
  split; [reflexivity|]. split; [reflexivity|].
  intro H.
  apply (f_equal TradingReport.consecutiveLosses) in H.
  vm_compute in H. discriminate.
Qed.

(** The two statements after the loop compare lengths only: the
    cumulative P/L of the final streak never reaches the maxima. *)
Lemma final_streak_profit_not_flushed :
  TradingReport.consecutiveWins (TradingReport.streaks single_win) = 1%nat
  /\ TradingReport.streakProfit (TradingReport.streaks single_win) == 0
  /\ TradingReport.streakProfit (StreakSpec.streaks single_win) == 100.
Proof. repeat split. Qed.

(** C10.  For every trade list the reported P/L maxima keep their sign:
    [maxConsecutiveProfit >= 0] and [maxConsecutiveLoss <= 0]. *)
Theorem streak_pl_maxima_signs (trades : list Trade) :
  0 <= TradingReport.streakProfit (TradingReport.streaks trades)
  /\ TradingReport.streakLoss (TradingReport.streaks trades) <= 0.
Proof.
  destruct trades as [|t ts].
  - simpl. split; lra.
  - unfold TradingReport.streaks, TradingReport.streak_pass.
    cbn [TradingReport.streakProfit TradingReport.streakLoss].
    assert (H : pl_signs (fold_left TradingReport.streak_step
                            (sortByTime (t :: ts)) TradingReport.streak_init)).
    { apply streak_fold_signs. split; simpl; lra. }
    destruct H as [Hp Hl]. split; assumption.
Qed.

(** ** Drawdown (C4) *)

Lemma gt_keeps_nonneg (d m : number) :
  JS.gt d m = true -> JS.le (Fin 0) m = true -> JS.le (Fin 0) d = true.
Proof.
  unfold JS.gt.
  destruct d as [y| | |], m as [x| | |]; simpl; intros H1 H2;
    try discriminate; try reflexivity.
  qcases. apply Qle_bool_iff. lra.
Qed.

Lemma dd_step_nonneg (s : TradingReport.DDState) (t : Trade) :
  JS.le (Fin 0) (TradingReport.maxDD s) = true ->
  JS.le (Fin 0) (TradingReport.maxDD (TradingReport.dd_step s t)) = true.
Proof.
  intro H. unfold TradingReport.dd_step. cbn [TradingReport.maxDD].
  destruct (JS.gt _ _) eqn:E; [|exact H].
  eapply gt_keeps_nonneg; eassumption.
Qed.

Lemma dd_fold_nonneg (ts : list Trade) (s : TradingReport.DDState) :
  JS.le (Fin 0) (TradingReport.maxDD s) = true ->
  JS.le (Fin 0)
        (TradingReport.maxDD (fold_left TradingReport.dd_step ts s)) = true.
Proof.
  revert s. induction ts as [|t ts IH]; intros s H; simpl; [exact H|].
  apply IH, dd_step_nonneg, H.
Qed.

(** [maxDrawdown >= 0] for every trade list and every initial balance. *)
Lemma maxDrawdown_nonneg (initialBalance : Q) (trades : list Trade) :
  JS.ge (TradingReport.maxDrawdown initialBalance trades) (Fin 0) = true.
Proof.
  unfold JS.ge, TradingReport.maxDrawdown.
  destruct trades as [|t ts]; [reflexivity|].
  apply dd_fold_nonneg. reflexivity.
Qed.

(** [maxDD] is the running maximum of the per-trade drawdowns. *)
Lemma dd_pass_running_max (ts : list Trade) (s : TradingReport.DDState) :
  TradingReport.maxDD (fold_left TradingReport.dd_step ts s)
  = fold_left (fun m d => if JS.gt d m then d else m)
              (TradingReport.drawdowns (TradingReport.dd_running s)
                                       (TradingReport.dd_peak s) ts)
              (TradingReport.maxDD s).
Proof.
  revert s. induction ts as [|t ts IH]; intro s; [reflexivity|].
  cbn [fold_left TradingReport.drawdowns]. rewrite IH. reflexivity.
Qed.

(** With no losing trade the balance never falls and no drawdown is
    recorded. *)
Lemma dd_step_flat (s : TradingReport.DDState) (t : Trade) :
  0 <= net_profit t ->
  TradingReport.dd_peak s <= TradingReport.dd_running s ->
  TradingReport.maxDD s = Fin 0 ->
  let s' := TradingReport.dd_step s t in
  TradingReport.dd_peak s' <= TradingReport.dd_running s'
  /\ TradingReport.maxDD s' = Fin 0.
Proof.
  intros Hp Hpk Hm. unfold TradingReport.dd_step.
  cbn [TradingReport.dd_peak TradingReport.dd_running TradingReport.maxDD].
  set (rb := TradingReport.dd_running s + net_profit t).
  set (pk := if Qgtb rb (TradingReport.dd_peak s) then rb
             else TradingReport.dd_peak s).
  assert (Hpk' : pk == rb).
  { unfold pk. destruct (Qgtb rb (TradingReport.dd_peak s)) eqn:E;
      [reflexivity|]. qcases. unfold rb in *. lra. }
  split; [lra|].
  rewrite Hm.
  assert (Hz : pk - rb == 0) by lra.
  unfold TradingReport.drawdown_of, JS.div.
  destruct (Qeq_bool pk 0) eqn:E0.
  - apply Qeq_alt in Hz. rewrite Hz. reflexivity.
  - cbn [JS.mul JS.gt JS.lt].
    destruct (Qltb 0 ((pk - rb) / pk * 100)) eqn:E1; [|reflexivity].
    qcases. exfalso. rewrite Hz in E1.
    assert (0 / pk * 100 == 0) as Z0 by (unfold Qdiv; ring).
    rewrite Z0 in E1. lra.
Qed.

Lemma dd_fold_flat (ts : list Trade) (s : TradingReport.DDState) :
  Forall (fun t => 0 <= net_profit t) ts ->
  TradingReport.dd_peak s <= TradingReport.dd_running s ->
  TradingReport.maxDD s = Fin 0 ->
  TradingReport.maxDD (fold_left TradingReport.dd_step ts s) = Fin 0.
Proof.
  revert s. induction ts as [|t ts IH]; intros s Hall Hpk Hm; [exact Hm|].
  inversion Hall as [|? ? Ht Hts]; subst.
  destruct (dd_step_flat s t Ht Hpk Hm) as [H1 H2].
  cbn [fold_left]. apply IH; assumption.
Qed.

Lemma maxDrawdown_zero_when_nondecreasing (initialBalance : Q)
      (trades : list Trade) :
  Forall (fun t => 0 <= net_profit t) trades ->
  TradingReport.maxDrawdown initialBalance trades = Fin 0.
Proof.
  intro Hall. unfold TradingReport.maxDrawdown.
  destruct trades as [|t ts]; [reflexivity|].
  apply dd_fold_flat.
  - eapply Permutation_Forall; [apply sortByTime_perm|exact Hall].
  - simpl. lra.
  - reflexivity.
Qed.

(** ChartPanel guards the division: every point's drawdown is a finite
    non-negative number, and is 0 whenever the running peak is not
    positive. *)
Lemma Qmax_ge_r (a b : Q) : b <= Qmax a b.
Proof.
  unfold Qmax. destruct (Qle_bool a b) eqn:E; qcases; lra.
Qed.

Lemma day_step_drawdown (ib : Q) (s : ChartPanel.EquityState) (d : Z * Q) :
  let r := ChartPanel.day_step ib s d in
  (ChartPanel.peakBalance (fst r) <= 0 -> ChartPanel.drawdown (snd r) = Fin 0)
  /\ JS.le (Fin 0) (ChartPanel.drawdown (snd r)) = true
  /\ JS.isFinite (ChartPanel.drawdown (snd r)) = true.
Proof.
  unfold ChartPanel.day_step.
  cbn [fst snd ChartPanel.peakBalance ChartPanel.drawdown].
  set (bal := ib + (ChartPanel.cumProfit s + snd d)).
  set (pk := Qmax (ChartPanel.peakBalance s) bal).
  pose proof (Qmax_ge_r (ChartPanel.peakBalance s) bal) as Hge.
  fold pk in Hge.
  destruct (Qgtb pk 0) eqn:E.
  - qcases. split; [intro; lra|].
    unfold JS.div.
    destruct (Qeq_bool pk 0) eqn:E0; [qcases; lra|].
    cbn [JS.mul JS.le JS.isFinite]. split; [|reflexivity].
    apply Qle_bool_iff.
    apply Qmult_le_0_compat; [|lra].
    apply Qle_shift_div_l; [exact E|]. lra.
  - repeat split; reflexivity.
Qed.

Lemma chartTrace_drawdown (initialBalance : Q) (off : Z) (trades : list Trade) :
  Forall (fun r =>
            (ChartPanel.peakBalance (fst r) <= 0
             -> ChartPanel.drawdown (snd r) = Fin 0)
            /\ JS.le (Fin 0) (ChartPanel.drawdown (snd r)) = true
            /\ JS.isFinite (ChartPanel.drawdown (snd r)) = true)
         (ChartPanel.chartTrace initialBalance off trades).
Proof.
  unfold ChartPanel.chartTrace.
  generalize (ChartPanel.mkEquity 0 initialBalance).
  induction (ChartPanel.byDay off trades) as [|d days IH]; intro s.
  - constructor.
  - cbn [ChartPanel.day_pass]. constructor.
    + apply day_step_drawdown.
    + apply IH.
Qed.

(** C4 fails in TradingReport, whose drawdown loop divides by the peak
    unguarded.  With an initial balance of 0 and one loss of 50 the peak
    stays 0, the drawdown of the point is [50 / 0 * 100 = Infinity] and so
    is [maxDrawdown]; with an initial balance of -100 the drawdown of the
    point is -50.  ChartPanel, on the same trade, reports 0. *)
Theorem drawdown_unguarded_when_peak_not_positive :
  TradingReport.drawdowns 0 0 single_loss = [PInf]
  /\ TradingReport.maxDrawdown 0 single_loss = PInf
  /\ (exists d, TradingReport.drawdowns (-100) (-100) single_loss = [Fin d]
                /\ d == -50)
  /\ Forall (fun p => ChartPanel.drawdown p = Fin 0)
            (ChartPanel.chartData 0 0 single_loss)
  /\ Forall (fun p => ChartPanel.drawdown p = Fin 0)
            (ChartPanel.chartData (-100) 0 single_loss).
Proof.
  split; [reflexivity|]. split; [reflexivity|].
  split; [eexists; split; [reflexivity|reflexivity]|].
  split; repeat constructor.
Qed.

(** ** RiskModel: the metrics, field by field *)

Section RiskModelFields.

Import RiskModel.

Variables (initialBalance : Q) (trades : list Trade) (m : Metrics).
Hypothesis Hm : riskMetrics initialBalance trades = Some m.

Lemma riskMetrics_compute : m = computeMetrics initialBalance trades.
Proof.
  revert Hm. unfold riskMetrics. destruct trades; [discriminate|].
  intro H. injection H as <-. reflexivity.
Qed.

Ltac field_eq := rewrite riskMetrics_compute; reflexivity.

Lemma trades_nonempty : trades <> [].
Proof. revert Hm. destruct trades; [discriminate|]. intros _. discriminate. Qed.

Lemma winRate_eq :
  winRate m = count (winReturns initialBalance trades) / count trades * 100.
Proof. field_eq. Qed.

Lemma avgWinPct_eq :
  avgWinPct m = average_or_zero (winReturns initialBalance trades).
Proof. field_eq. Qed.

Lemma avgLossPct_eq :
  avgLossPct m =
  match lossReturns initialBalance trades with
  | [] => Fin 0
  | _ => JS.abs (JS.div (JS.sum (Fin 0) (lossReturns initialBalance trades))
                        (Fin (count (lossReturns initialBalance trades))))
  end.
Proof. field_eq. Qed.

Lemma variance_eq :
  variance m =
  JS.div (fold_left
            (fun sum r => JS.add sum (JS.pow (JS.sub r (avgReturnPct m)) (Fin 2)))
            (tradeReturns initialBalance trades) (Fin 0))
         (Fin (count (tradeReturns initialBalance trades))).
Proof. field_eq. Qed.

Lemma riskRewardRatio_eq :
  riskRewardRatio m =
  if JS.gt (avgLossPct m) (Fin 0) then JS.div (avgWinPct m) (avgLossPct m)
  else Fin 0.
Proof. field_eq. Qed.

Lemma expectancyPct_eq :
  expectancyPct m =
  JS.sub (JS.mul (Fin (winRate m / 100)) (avgWinPct m))
         (JS.mul (Fin (1 - winRate m / 100)) (avgLossPct m)).
Proof. field_eq. Qed.

Lemma kellyPct_eq :
  kellyPct m =
  if JS.gt (avgLossPct m) (Fin 0)
  then JS.mul
         (JS.div (JS.sub (JS.mul (Fin (winRate m / 100)) (riskRewardRatio m))
                         (Fin (1 - winRate m / 100)))
                 (riskRewardRatio m))
         (Fin 100)
  else Fin 0.
Proof. field_eq. Qed.

Lemma kellyHalf_eq : kellyHalf m = JS.div (kellyPct m) (Fin 2).
Proof. field_eq. Qed.

Lemma profitFactor_eq :
  profitFactor m =
  if JS.gt (JS.abs (JS.sum (Fin 0) (lossReturns initialBalance trades))) (Fin 0)
  then JS.div (JS.sum (Fin 0) (winReturns initialBalance trades))
              (JS.abs (JS.sum (Fin 0) (lossReturns initialBalance trades)))
  else Fin 0.
Proof. field_eq. Qed.

Lemma breakEvenWinRate_eq :
  breakEvenWinRate m =
  if JS.gt (JS.add (avgWinPct m) (avgLossPct m)) (Fin 0)
  then JS.mul (JS.div (avgLossPct m) (JS.add (avgWinPct m) (avgLossPct m)))
              (Fin 100)
  else Fin 50.
Proof. field_eq. Qed.

Lemma edge_eq : edge m = JS.sub (Fin (winRate m)) (breakEvenWinRate m).
Proof. field_eq. Qed.

Lemma consecutiveLosses_eq :
  consecutiveLosses m =
  map (fun dd =>
         if JS.le (avgLossPct m) (Fin 0) then mkConsecutiveLoss dd (Fin 999)
         else mkConsecutiveLoss dd (JS.ceil (JS.div (Fin dd) (avgLossPct m))))
      drawdownLevels.
Proof. field_eq. Qed.

End RiskModelFields.

(** ** RiskModel: counts and the win rate *)

Lemma count_nonneg {A} (l : list A) : 0 <= RiskModel.count l.
Proof.
  unfold RiskModel.count. change 0 with (inject_Z 0).
  rewrite <- Zle_Qle. lia.
Qed.

Lemma count_pos {A} (l : list A) : l <> [] -> 0 < RiskModel.count l.
Proof.
  intro H. unfold RiskModel.count. change 0 with (inject_Z 0).
  rewrite <- Zlt_Qlt. destruct l; [congruence|]. simpl. lia.
Qed.

Lemma count_nonzero {A} (l : list A) :
  l <> [] -> Qeq_bool (RiskModel.count l) 0 = false.
Proof.
  intro H. apply Qeq_bool_false. pose proof (count_pos l H). lra.
Qed.

Lemma count_le {A B} (l : list A) (l' : list B) :
  (List.length l <= List.length l')%nat ->
  RiskModel.count l <= RiskModel.count l'.
Proof.
  intro H. unfold RiskModel.count. rewrite <- Zle_Qle. lia.
Qed.

Lemma count_lt {A B} (l : list A) (l' : list B) :
  (List.length l < List.length l')%nat ->
  RiskModel.count l < RiskModel.count l'.
Proof.
  intro H. unfold RiskModel.count. rewrite <- Zlt_Qlt. lia.
Qed.

Lemma tradeReturns_length (ib : Q) (ts : list Trade) :
  List.length (RiskModel.tradeReturns ib ts) = List.length ts.
Proof. apply length_map. Qed.

Lemma gt_lt_exclusive (r : number) :
  JS.gt r (Fin 0) = true -> JS.lt r (Fin 0) = true -> False.
Proof.
  destruct r; simpl; try discriminate.
  unfold JS.gt. simpl. intros. qcases. lra.
Qed.

Lemma wins_losses_length (l : list number) :
  (List.length (filter (fun r => JS.gt r (Fin 0)) l)
   + List.length (filter (fun r => JS.lt r (Fin 0)) l)
   <= List.length l)%nat.
Proof.
  induction l as [|r l IH]; [simpl; lia|].
  cbn [filter].
  destruct (JS.gt r (Fin 0)) eqn:G, (JS.lt r (Fin 0)) eqn:L;
    cbn [List.length]; try lia.
  exfalso. eapply gt_lt_exclusive; eassumption.
Qed.

Lemma wins_fewer_when_losses (ib : Q) (ts : list Trade) :
  RiskModel.lossReturns ib ts <> [] ->
  RiskModel.count (RiskModel.winReturns ib ts) < RiskModel.count ts.
Proof.
  intro H. apply count_lt.
  pose proof (wins_losses_length (RiskModel.tradeReturns ib ts)) as L.
  rewrite tradeReturns_length in L.
  unfold RiskModel.winReturns.
  unfold RiskModel.lossReturns in H.
  destruct (filter (fun r => JS.lt r (Fin 0)) (RiskModel.tradeReturns ib ts));
    [congruence|]. cbn [List.length] in L. lia.
Qed.

Lemma wins_at_most_all (ib : Q) (ts : list Trade) :
  RiskModel.count (RiskModel.winReturns ib ts) <= RiskModel.count ts.
Proof.
  apply count_le. unfold RiskModel.winReturns.
  rewrite <- (tradeReturns_length ib ts). apply filter_length_le.
Qed.

Section RiskModelWinRate.

Import RiskModel.

Variables (initialBalance : Q) (trades : list Trade) (m : Metrics).
Hypothesis Hm : riskMetrics initialBalance trades = Some m.

Lemma winRate_fraction_eq :
  winRate m / 100 == count (winReturns initialBalance trades) / count trades.
Proof.
  rewrite (winRate_eq _ _ _ Hm).
  pose proof (count_pos trades (trades_nonempty _ _ _ Hm)).
  field. lra.
Qed.

Lemma winRate_fraction_bounds : 0 <= winRate m / 100 <= 1.
Proof.
  rewrite winRate_fraction_eq.
  pose proof (count_pos trades (trades_nonempty _ _ _ Hm)) as Hc.
  pose proof (wins_at_most_all initialBalance trades) as Hw.
  pose proof (count_nonneg (winReturns initialBalance trades)) as H0.
  split.
  - apply Qle_shift_div_l; [exact Hc|]. lra.
  - apply Qle_shift_div_r; [exact Hc|]. lra.
Qed.

Lemma winRate_below_one_when_losses :
  lossReturns initialBalance trades <> [] -> winRate m / 100 < 1.
Proof.
  intro H. rewrite winRate_fraction_eq.
  pose proof (count_pos trades (trades_nonempty _ _ _ Hm)) as Hc.
  pose proof (wins_fewer_when_losses initialBalance trades H).
  apply Qlt_shift_div_r; [exact Hc|]. lra.
Qed.

(** *** Kelly (C5) *)

(** Where the ratio is a positive number the code computes the Kelly
    fraction [w - (1 - w) / rr] as a percentage, and the half Kelly is half
    of it. *)
Lemma kellyPct_formula (r : Q) :
  riskRewardRatio m = Fin r -> 0 < r ->
  JS.eqv (kellyPct m)
         (Fin ((winRate m / 100 - (1 - winRate m / 100) / r) * 100))
  /\ kellyHalf m = JS.div (kellyPct m) (Fin 2).
Proof.
  intros Hr Hpos. split; [|apply (kellyHalf_eq _ _ _ Hm)].
  rewrite (kellyPct_eq _ _ _ Hm).
  destruct (JS.gt (avgLossPct m) (Fin 0)) eqn:E.
  - rewrite Hr. cbn [JS.mul JS.sub JS.div].
    assert (E0 : Qeq_bool r 0 = false) by (apply Qeq_bool_false; lra).
    rewrite E0. cbn [JS.mul JS.eqv]. field. lra.
  - rewrite (riskRewardRatio_eq _ _ _ Hm), E in Hr.
    injection Hr as <-. lra.
Qed.

End RiskModelWinRate.

(** C5 fails where there are losses and no win.  The guard of [kellyPct]
    tests [avgLossPct > 0], not the ratio it divides by: with one losing
    trade of 50 on a balance of 1000 the win rate is 0, the ratio is
    [0 / 5 = 0], and [kellyPct = ((0 * 0) - 1) / 0 * 100 = -Infinity], where
    the claim reports 0; [kellyHalf] is -Infinity too. *)
Theorem kelly_infinite_without_wins :
  exists m, RiskModel.riskMetrics 1000 single_loss = Some m
            /\ JS.eqv (RiskModel.riskRewardRatio m) (Fin 0)
            /\ JS.le (RiskModel.riskRewardRatio m) (Fin 0) = true
            /\ RiskModel.kellyPct m = NInf
            /\ RiskModel.kellyHalf m = NInf.
Proof.
  eexists. split; [reflexivity|].
  repeat split; reflexivity.
Qed.

(** ** Powers with integer exponents *)

Lemma as_integer_inject (n : Z) : JS.as_integer (inject_Z n) = Some n.
Proof.
  unfold JS.as_integer. rewrite Qfloor_Z, Qeq_bool_refl. reflexivity.
Qed.

Lemma pow_Fin_pos (l : Q) (n : Z) :
  (0 < n)%Z -> JS.pow (Fin l) (Fin (inject_Z n)) = Fin (Qpower l n).
Proof.
  intro Hn. unfold JS.pow.
  assert (E : Qeq_bool (inject_Z n) 0 = false).
  { apply Qeq_bool_false. intro H.
    assert (inject_Z 0 < inject_Z n) as L by (rewrite <- Zlt_Qlt; exact Hn).
    change (inject_Z 0) with 0 in L. lra. }
  rewrite E, as_integer_inject.
  assert ((n <? 0)%Z = false) as -> by lia.
  rewrite andb_false_r. reflexivity.
Qed.

Lemma Qpower_le_1 (l : Q) (k : nat) :
  0 <= l <= 1 -> Qpower l (Z.of_nat k) <= 1.
Proof.
  intros [H0 H1]. induction k as [|k IH].
  - simpl. lra.
  - rewrite Nat2Z.inj_succ. unfold Z.succ.
    rewrite Qpower_plus' by lia. rewrite Qpower_1_r.
    pose proof (Qpower_0_le l (Z.of_nat k) H0) as Hp.
    assert (l ^ Z.of_nat k * l <= 1 * 1) as L.
    { apply Qmult_le_compat_nonneg; split; assumption. }
    lra.
Qed.

(** A base between 0 and 1 raised to a larger power is not larger. *)
Lemma Qpower_antitone (l : Q) (n k : Z) :
  0 <= l <= 1 -> (0 < n <= k)%Z -> Qpower l k <= Qpower l n.
Proof.
  intros Hl [Hn Hk].
  replace k with (n + Z.of_nat (Z.to_nat (k - n)))%Z by lia.
  destruct (Z.to_nat (k - n)) as [|d] eqn:Ed.
  - simpl. rewrite Z.add_0_r. lra.
  - rewrite Qpower_plus' by lia.
    pose proof (Qpower_le_1 l (S d) Hl) as H1.
    pose proof (Qpower_0_le l n (proj1 Hl)) as H0.
    pose proof (Qpower_0_le l (Z.of_nat (S d)) (proj1 Hl)) as H2.
    assert (l ^ n * l ^ Z.of_nat (S d) <= l ^ n * 1) as L.
    { apply Qmult_le_compat_nonneg; split; try assumption; lra. }
    lra.
Qed.

(** ** RiskModel: the drawdown risk table (C7, C8) *)

Lemma add_below_inf (a b : number) :
  below_inf a -> below_inf b -> below_inf (JS.add a b).
Proof. destruct a, b; simpl; tauto. Qed.

Lemma sum_below_inf (l : list number) (a : number) :
  below_inf a -> Forall below_inf l -> below_inf (JS.sum a l).
Proof.
  unfold JS.sum. revert a. induction l as [|x l IH]; intros a Ha Hl; simpl.
  - exact Ha.
  - inversion Hl; subst. apply IH; [apply add_below_inf|]; assumption.
Qed.

Lemma lossReturns_below_inf (ib : Q) (ts : list Trade) :
  Forall below_inf (RiskModel.lossReturns ib ts).
Proof.
  apply Forall_forall. intros r Hr.
  apply filter_In in Hr. destruct Hr as [_ Hr].
  destruct r; simpl in *; try discriminate; exact I.
Qed.

Section RiskTable.

Import RiskModel.

Variables (initialBalance : Q) (trades : list Trade) (m : Metrics).
Hypothesis Hm : riskMetrics initialBalance trades = Some m.

(** [avgLossPct] is a non-negative number or Infinity. *)
Lemma avgLossPct_shape :
  (exists al, avgLossPct m = Fin al /\ 0 <= al) \/ avgLossPct m = PInf.
Proof.
  rewrite (avgLossPct_eq _ _ _ Hm).
  pose proof (lossReturns_below_inf initialBalance trades) as Hall.
  destruct (lossReturns initialBalance trades) as [|r l] eqn:E.
  - left. exists 0. split; [reflexivity|lra].
  - pose proof (sum_below_inf (r :: l) (Fin 0) I Hall) as Hs.
    assert (Hc : Qeq_bool (count (r :: l)) 0 = false)
      by (apply count_nonzero; discriminate).
    assert (Hn : Qltb (count (r :: l)) 0 = false)
      by (apply Qltb_ge, count_nonneg).
    destruct (JS.sum (Fin 0) (r :: l)) as [s| | |]; simpl in Hs;
      [ | contradiction | | contradiction ].
    + left. cbn [JS.div]. rewrite Hc. cbn [JS.abs].
      eexists. split; [reflexivity|apply Qabs_nonneg].
    + right. cbn [JS.div JS.sign]. rewrite Hn. reflexivity.
Qed.

(** The exponent of every row is a natural number ([Math.pow] is only
    reached with integer exponents). *)
Lemma RiskModel_trades_integer :
  Forall (fun r => exists n, row_trades r = Fin (inject_Z n) /\ (0 <= n)%Z)
         (riskTable m).
Proof.
  unfold riskTable. rewrite (consecutiveLosses_eq _ _ _ Hm).
  rewrite map_map. apply Forall_forall. intros r Hr.
  apply in_map_iff in Hr. destruct Hr as [dd [<- Hdd]].
  destruct (JS.le (avgLossPct m) (Fin 0)) eqn:E; cbn [row_trades trades_needed].
  - exists 999%Z. split; [reflexivity|lia].
  - destruct avgLossPct_shape as [[al [Hal H0]]|Hal]; rewrite Hal in *.
    + cbn [JS.le] in E. qcases.
      assert (Hz : Qeq_bool al 0 = false) by (apply Qeq_bool_false; lra).
      cbn [JS.div JS.ceil]. rewrite Hz. cbn [JS.ceil].
      eexists. split; [reflexivity|].
      assert (0 < dd) as Hd.
      { unfold drawdownLevels in Hdd. simpl in Hdd.
        destruct Hdd as [<-|[<-|[<-|[<-|[]]]]]; lra. }
      assert (0 <= dd / al) as Hq by (apply Qle_shift_div_l; lra).
      apply Qceiling_resp_le in Hq. exact Hq.
    + exists 0%Z. split; [reflexivity|lia].
Qed.

(** The rows in terms of their level. *)
Lemma riskTable_rows (r : RiskRow) :
  In r (riskTable m) ->
  0 < row_level r
  /\ ((JS.le (avgLossPct m) (Fin 0) = true
       /\ row_trades r = Fin 999
       /\ probability r = Fin (Qpower (1 - winRate m / 100) 999 * 100))
      \/ (avgLossPct m = PInf /\ probability r = Fin (1 * 100))
      \/ (exists al, avgLossPct m = Fin al /\ 0 < al
          /\ (0 < Qceiling (row_level r / al))%Z
          /\ probability r
             = Fin (Qpower (1 - winRate m / 100)
                           (Qceiling (row_level r / al)) * 100))).
Proof.
  unfold riskTable. rewrite (consecutiveLosses_eq _ _ _ Hm).
  rewrite map_map. intro Hr.
  apply in_map_iff in Hr. destruct Hr as [dd [<- Hdd]].
  assert (0 < dd) as Hd.
  { unfold drawdownLevels in Hdd. simpl in Hdd.
    destruct Hdd as [<-|[<-|[<-|[<-|[]]]]]; lra. }
  destruct (JS.le (avgLossPct m) (Fin 0)) eqn:E;
    cbn [row_level row_trades probability level trades_needed].
  - split; [exact Hd|]. left. split; [reflexivity|]. split; [reflexivity|].
    change (Fin 999) with (Fin (inject_Z 999)).
    rewrite pow_Fin_pos by lia. reflexivity.
  - split; [exact Hd|]. right.
    destruct avgLossPct_shape as [[al [Hal H0]]|Hal]; rewrite Hal in *.
    + right. cbn [JS.le] in E. qcases.
      assert (Hz : Qeq_bool al 0 = false) by (apply Qeq_bool_false; lra).
      exists al. split; [reflexivity|]. split; [exact E|].
      assert (0 < Qceiling (dd / al))%Z as Hc.
      { assert (0 < dd / al) as Hq by (apply Qlt_shift_div_l; lra).
        pose proof (Qle_ceiling (dd / al)) as Hle.
        rewrite Zlt_Qlt. change (inject_Z 0) with 0. lra. }
      split; [exact Hc|].
      cbn [JS.div]. rewrite Hz. cbn [JS.ceil].
      rewrite pow_Fin_pos by exact Hc. reflexivity.
    + left. split; reflexivity.
Qed.

(** In the RiskModel table the probability does not increase with the
    drawdown level. *)
Lemma riskTable_monotone (r1 r2 : RiskRow) :
  In r1 (riskTable m) -> In r2 (riskTable m) ->
  row_level r1 <= row_level r2 ->
  JS.le (probability r2) (probability r1) = true.
Proof.
  intros H1 H2 Hle.
  destruct (riskTable_rows r1 H1) as [Hp1 R1].
  destruct (riskTable_rows r2 H2) as [Hp2 R2].
  pose proof (winRate_fraction_bounds _ _ _ Hm) as [Hw0 Hw1].
  destruct R1 as [[G1 [_ P1]]|[[A1 P1]|[al1 [A1 [L1 [N1 P1]]]]]];
    destruct R2 as [[G2 [_ P2]]|[[A2 P2]|[al2 [A2 [L2 [N2 P2]]]]]];
    rewrite P1, P2; cbn [JS.le].
  - apply Qle_bool_iff, Qle_refl.
  - rewrite A2 in G1. discriminate.
  - exfalso. rewrite A2 in G1. cbn [JS.le] in G1. qcases. lra.
  - rewrite A1 in G2. discriminate.
  - reflexivity.
  - rewrite A1 in A2. discriminate.
  - exfalso. rewrite A1 in G2. cbn [JS.le] in G2. qcases. lra.
  - rewrite A1 in A2. discriminate.
  - rewrite A1 in A2. injection A2 as <-.
    apply Qle_bool_iff.
    assert (Qceiling (row_level r1 / al1) <= Qceiling (row_level r2 / al1))%Z
      as Hc.
    { apply Qceiling_resp_le. unfold Qdiv.
      apply Qmult_le_compat_r; [exact Hle|].
      apply Qlt_le_weak, Qinv_lt_0_compat, L1. }
    assert (0 <= 1 - winRate m / 100 <= 1) as Hl by (split; lra).
    pose proof (Qpower_antitone (1 - winRate m / 100) _ _ Hl (conj N1 Hc))
      as Hpow.
    apply Qmult_le_compat_r; [exact Hpow|]. discriminate.
Qed.


End RiskTable.



(** RiskOfRuin has no sentinel at all: without losing trades [avgLoss]
    defaults to 1, and the 100% level asks for
    [ceil(100 / (0.0001 * 100)) = 10000] losses. *)
Lemma RiskOfRuin_default_avgLoss :
  exists n, RiskOfRuin.consecutiveLosses
              (RiskOfRuin.result 1 (1 / 10000) 100) = Fin n
            /\ n == 10000.
Proof. eexists. split; [vm_compute; reflexivity|reflexivity]. Qed.

(** ** RiskOfRuin: the count of losses given by the logarithms

    [least_exp b r] stands for [Math.ceil(Math.log(r) / Math.log(b))] with
    [0 < b < 1] and [0 < r]: it always returns, and what it returns is the
    least natural [n] with [b^n <= r], that is, the ceiling of [log_b r]. *)

Lemma bernoulli (x : Q) (k : nat) :
  0 <= x -> 1 + inject_Z (Z.of_nat k) * x <= (1 + x) ^ Z.of_nat k.
Proof.
  intro Hx. induction k as [|k IH].
  - cbn [Z.of_nat]. change (inject_Z 0) with 0.
    change ((1 + x) ^ 0) with 1. lra.
  - rewrite Nat2Z.inj_succ. unfold Z.succ.
    rewrite inject_Z_plus, Qpower_plus' by lia. rewrite Qpower_1_r.
    assert (0 <= inject_Z (Z.of_nat k)) as HK.
    { change 0 with (inject_Z 0). rewrite <- Zle_Qle. lia. }
    set (K := inject_Z (Z.of_nat k)) in *.
    set (P := (1 + x) ^ Z.of_nat k) in *.
    change (inject_Z 1) with 1.
    assert (0 <= K * (x * x))
      by (apply Qmult_le_0_compat; [assumption|apply Qmult_le_0_compat; lra]).
    assert ((1 + K * x) * (1 + x) <= P * (1 + x))
      by (apply Qmult_le_compat_r; lra).
    lra.
Qed.

Lemma power_reaches (b r : Q) (N : Z) :
  0 < b -> b < 1 -> 0 < r -> (0 <= N)%Z ->
  b / (r * (1 - b)) <= inject_Z N -> b ^ N <= r.
Proof.
  intros Hb0 Hb1 Hr HN Hbound.
  set (x := (1 - b) / b).
  assert (Hx : 0 < x) by (apply Qlt_shift_div_l; lra).
  assert (Ha : 1 + x == / b) by (unfold x; field; lra).
  pose proof (bernoulli x (Z.to_nat N) (Qlt_le_weak _ _ Hx)) as Hbern.
  rewrite Z2Nat.id in Hbern by exact HN.
  rewrite Ha in Hbern.
  assert (Hpow : b ^ N == / (/ b) ^ N).
  { rewrite Qinv_power, Qinv_involutive. reflexivity. }
  rewrite Hpow.
  assert (HNx : / r <= inject_Z N * x).
  { assert (b / (r * (1 - b)) * x <= inject_Z N * x)
      by (apply Qmult_le_compat_r; lra).
    assert (b / (r * (1 - b)) * x == / r) as E by (unfold x; field; lra).
    lra. }
  assert (Hrinv : r * / r == 1) by (field; lra).
  assert (Hrmul : r * (/ r) <= r * (inject_Z N * x))
    by (apply Qmult_le_l; assumption).
  set (A := (/ b) ^ N) in *.
  assert (Hri : 0 < / r) by (apply Qinv_lt_0_compat; exact Hr).
  assert (HA : 0 < A) by lra.
  assert (r * (1 + inject_Z N * x) <= r * A)
    by (apply Qmult_le_l; assumption).
  apply Qle_shift_inv_r; [exact HA|]. lra.
Qed.

Lemma least_exp_from_spec (fuel : nat) (b r : Q) (n : Z) (p : Q) :
  0 < b -> (0 <= n)%Z -> p == b ^ n ->
  (exists N, (n <= N < n + Z.of_nat fuel)%Z /\ b ^ N <= r) ->
  (forall k, (0 <= k < n)%Z -> r < b ^ k) ->
  exists n', RiskOfRuin.least_exp_from fuel b r n p = Some n'
             /\ (n <= n')%Z /\ b ^ n' <= r
             /\ (forall k, (0 <= k < n')%Z -> r < b ^ k).
Proof.
  intro Hb. revert n p.
  induction fuel as [|fuel IH]; intros n p Hn Hp [N [HN HbN]] Hbelow.
  - lia.
  - cbn [RiskOfRuin.least_exp_from].
    destruct (Qle_bool p r) eqn:E.
    + exists n. apply Qle_bool_iff in E. rewrite Hp in E.
      repeat split; [lia|exact E|exact Hbelow].
    + apply Qle_bool_gt in E. rewrite Hp in E.
      assert (N <> n) by (intros ->; lra).
      destruct (IH (n + 1)%Z (p * b)) as [n' [H1 [H2 [H3 H4]]]].
      * lia.
      * rewrite Qpower_plus by lra. rewrite Qpower_1_r, Hp. reflexivity.
      * exists N. split; [lia|exact HbN].
      * intros k Hk. destruct (Z.eq_dec k n) as [->|]; [exact E|].
        apply Hbelow. lia.
      * exists n'. repeat split; [exact H1|lia|exact H3|exact H4].
Qed.

Lemma least_exp_total (b r : Q) :
  0 < b -> b < 1 -> 0 < r ->
  exists n, RiskOfRuin.least_exp b r = Some n
            /\ (0 <= n)%Z /\ b ^ n <= r
            /\ (forall k, (0 <= k < n)%Z -> r < b ^ k).
Proof.
  intros Hb0 Hb1 Hr. unfold RiskOfRuin.least_exp.
  assert (Hq : 0 <= b / (r * (1 - b))).
  { apply Qle_shift_div_l; [|lra]. apply Qmult_lt_0_compat; lra. }
  assert (HN : (0 <= Qceiling (b / (r * (1 - b))))%Z).
  { apply Qceiling_resp_le in Hq. exact Hq. }
  apply least_exp_from_spec.
  - exact Hb0.
  - lia.
  - reflexivity.
  - exists (Qceiling (b / (r * (1 - b)))). split.
    + unfold RiskOfRuin.least_exp_fuel. lia.
    + apply power_reaches; try assumption. apply Qle_ceiling.
  - intros k Hk. lia.
Qed.

(** ** RiskOfRuin: the loss levels (C7) *)

(** C7 fails in RiskOfRuin.  At the 100% level [Math.log(0)] is -Infinity,
    the count of losses is not finite, and the fall-back
    [ceil(lossPercent / (lossPerTradeAvg * 100))] takes over; it gives fewer
    losses than the logarithm gives at 90%.  With two wins of 1 and a loss
    of 5000 ([winRate = 2/3], [lossPerTradeAvg = 1/2]) the 100% level needs
    2 losses and has probability 25, the 90% level needs 4 losses and has
    probability 6.25: the deeper level is the likelier one. *)
Theorem ruin_probability_rises_at_total_loss :
  exists p100 p90,
    RiskOfRuin.probability_at large_loss 100
      = Some (RiskOfRuin.Exact (Fin p100))
    /\ RiskOfRuin.probability_at large_loss 90
      = Some (RiskOfRuin.Exact (Fin p90))
    /\ p100 == 25 /\ p90 == 25 # 4
    /\ p90 < p100
    /\ RiskOfRuin.Prob_le (RiskOfRuin.Exact (Fin p100))
                          (RiskOfRuin.Exact (Fin p90)) = false.
Proof.
  eexists. eexists.
  split; [vm_compute; reflexivity|].
  split; [vm_compute; reflexivity|].
  repeat split; reflexivity.
Qed.

(** The same with an everyday history (two wins of 50, one loss of 100):
    100 losses at the 100% level against 230 at the 90% level. *)
Lemma ruin_levels_usual_loss :
  map RiskOfRuin.consecutiveLosses
      (firstn 2 (RiskOfRuin.results usual_loss))
  = [Fin (inject_Z 100); Fin (inject_Z 230)].
Proof. vm_compute. reflexivity. Qed.

(** ** RiskModel on a non-zero balance: everything is finite *)

Lemma sum_Fin (l : list Q) (a : Q) :
  JS.sum (Fin a) (map Fin l) = Fin (fold_left Qplus l a).
Proof.
  unfold JS.sum. revert a. induction l as [|x l IH]; intro a; simpl.
  - reflexivity.
  - apply IH.
Qed.

Lemma filter_gt_Fin (l : list Q) :
  filter (fun r => JS.gt r (Fin 0)) (map Fin l)
  = map Fin (filter (fun q => Qltb 0 q) l).
Proof.
  induction l as [|x l IH]; [reflexivity|].
  cbn [map filter]. change (JS.gt (Fin x) (Fin 0)) with (Qltb 0 x).
  destruct (Qltb 0 x); cbn [map]; rewrite IH; reflexivity.
Qed.

Lemma filter_lt_Fin (l : list Q) :
  filter (fun r => JS.lt r (Fin 0)) (map Fin l)
  = map Fin (filter (fun q => Qltb q 0) l).
Proof.
  induction l as [|x l IH]; [reflexivity|].
  cbn [map filter]. change (JS.lt (Fin x) (Fin 0)) with (Qltb x 0).
  destruct (Qltb x 0); cbn [map]; rewrite IH; reflexivity.
Qed.

Lemma tradeReturns_finite (ib : Q) (ts : list Trade) :
  ~ ib == 0 ->
  RiskModel.tradeReturns ib ts = map Fin (map (returnPct ib) ts).
Proof.
  intro H. apply Qeq_bool_false in H.
  unfold RiskModel.tradeReturns. rewrite map_map.
  apply map_ext. intro t. cbn [JS.div]. rewrite H. reflexivity.
Qed.

Lemma fold_Qplus_shift (l : list Q) (a : Q) :
  fold_left Qplus l a == a + fold_left Qplus l 0.
Proof.
  revert a. induction l as [|x l IH]; intro a; cbn [fold_left].
  - lra.
  - rewrite IH, (IH (0 + x)). lra.
Qed.

Lemma fold_Qplus_sign (l : list Q) :
  (Forall (fun q => 0 < q) l -> 0 <= fold_left Qplus l 0)
  /\ (Forall (fun q => q < 0) l -> fold_left Qplus l 0 <= 0).
Proof.
  induction l as [|x l [IHp IHn]]; cbn [fold_left].
  - split; intros _; lra.
  - rewrite fold_Qplus_shift.
    split; intro H; inversion H; subst;
      [specialize (IHp H3)|specialize (IHn H3)]; lra.
Qed.

Lemma fold_Qplus_strict (l : list Q) :
  l <> [] ->
  (Forall (fun q => 0 < q) l -> 0 < fold_left Qplus l 0)
  /\ (Forall (fun q => q < 0) l -> fold_left Qplus l 0 < 0).
Proof.
  destruct l as [|x l]; [congruence|]. intros _.
  cbn [fold_left]. rewrite fold_Qplus_shift.
  destruct (fold_Qplus_sign l) as [Hp Hn].
  split; intro H; inversion H; subst;
    [specialize (Hp H3)|specialize (Hn H3)]; lra.
Qed.

Lemma filter_pos_Forall (l : list Q) :
  Forall (fun q => 0 < q) (filter (fun q => Qltb 0 q) l).
Proof.
  apply Forall_forall. intros q Hq. apply filter_In in Hq.
  destruct Hq as [_ Hq]. qcases. exact Hq.
Qed.

Lemma filter_neg_Forall (l : list Q) :
  Forall (fun q => q < 0) (filter (fun q => Qltb q 0) l).
Proof.
  apply Forall_forall. intros q Hq. apply filter_In in Hq.
  destruct Hq as [_ Hq]. qcases. exact Hq.
Qed.

Lemma average_or_zero_Fin (l : list Q) :
  Forall (fun q => 0 < q) l ->
  exists a, RiskModel.average_or_zero (map Fin l) = Fin a /\ 0 <= a.
Proof.
  intro Hall. unfold RiskModel.average_or_zero.
  destruct l as [|x l].
  - exists 0. split; [reflexivity|lra].
  - set (xs := x :: l) in *.
    assert (Hne : map Fin xs <> []) by discriminate.
    change (match map Fin xs with
            | [] => Fin 0
            | _ :: _ => JS.div (JS.sum (Fin 0) (map Fin xs))
                               (Fin (RiskModel.count (map Fin xs)))
            end)
      with (JS.div (JS.sum (Fin 0) (map Fin xs))
                   (Fin (RiskModel.count (map Fin xs)))).
    rewrite sum_Fin. cbn [JS.div]. rewrite (count_nonzero _ Hne).
    eexists. split; [reflexivity|].
    pose proof (count_pos _ Hne).
    destruct (fold_Qplus_sign xs) as [Hp _]. specialize (Hp Hall).
    apply Qle_shift_div_l; [assumption|]. lra.
Qed.

Lemma abs_average_Fin (l : list Q) :
  exists a,
    match map Fin l with
    | [] => Fin 0
    | _ => JS.abs (JS.div (JS.sum (Fin 0) (map Fin l))
                          (Fin (RiskModel.count (map Fin l))))
    end = Fin a
    /\ 0 <= a /\ (0 < a -> l <> []).
Proof.
  destruct l as [|x l].
  - exists 0. split; [reflexivity|]. split; [lra|]. intro; lra.
  - set (xs := x :: l) in *.
    assert (Hne : map Fin xs <> []) by discriminate.
    change (match map Fin xs with
            | [] => Fin 0
            | _ :: _ => JS.abs (JS.div (JS.sum (Fin 0) (map Fin xs))
                                       (Fin (RiskModel.count (map Fin xs))))
            end)
      with (JS.abs (JS.div (JS.sum (Fin 0) (map Fin xs))
                           (Fin (RiskModel.count (map Fin xs))))).
    rewrite sum_Fin. cbn [JS.div]. rewrite (count_nonzero _ Hne).
    cbn [JS.abs].
    eexists. split; [reflexivity|]. split; [apply Qabs_nonneg|].
    intros _. discriminate.
Qed.

Section FiniteBalance.

Import RiskModel.

Variables (initialBalance : Q) (trades : list Trade) (m : Metrics).
Hypothesis Hm : riskMetrics initialBalance trades = Some m.
Hypothesis Hib : ~ initialBalance == 0.

Lemma winReturns_finite :
  winReturns initialBalance trades
  = map Fin (positiveReturns initialBalance trades).
Proof.
  unfold winReturns. rewrite tradeReturns_finite by exact Hib.
  apply filter_gt_Fin.
Qed.

Lemma lossReturns_finite :
  lossReturns initialBalance trades
  = map Fin (negativeReturns initialBalance trades).
Proof.
  unfold lossReturns. rewrite tradeReturns_finite by exact Hib.
  apply filter_lt_Fin.
Qed.

Lemma avgWinPct_finite : exists aw, avgWinPct m = Fin aw /\ 0 <= aw.
Proof.
  rewrite (avgWinPct_eq _ _ _ Hm), winReturns_finite.
  apply average_or_zero_Fin, filter_pos_Forall.
Qed.

Lemma avgLossPct_finite :
  exists al, avgLossPct m = Fin al /\ 0 <= al
             /\ (0 < al -> negativeReturns initialBalance trades <> []).
Proof.
  rewrite (avgLossPct_eq _ _ _ Hm), lossReturns_finite.
  apply abs_average_Fin.
Qed.

(** On a non-zero balance [kellyPct] is a number or an infinity, never
    NaN. *)
Lemma kellyPct_not_NaN : kellyPct m <> NaN.
Proof.
  rewrite (kellyPct_eq _ _ _ Hm).
  destruct avgWinPct_finite as [aw [Haw Haw0]].
  destruct avgLossPct_finite as [al [Hal [Hal0 Hloss]]].
  destruct (JS.gt (avgLossPct m) (Fin 0)) eqn:G; [|discriminate].
  rewrite (riskRewardRatio_eq _ _ _ Hm), G, Haw, Hal.
  rewrite Hal in G. unfold JS.gt in G. cbn [JS.lt] in G. qcases.
  assert (Hz : Qeq_bool al 0 = false) by (apply Qeq_bool_false; lra).
  cbn [JS.div]. rewrite Hz. cbn [JS.mul JS.sub JS.div].
  destruct (Qeq_bool (aw / al) 0) eqn:R; [|discriminate].
  qcases.
  assert (Hw : winRate m / 100 < 1).
  { apply (winRate_below_one_when_losses _ _ _ Hm).
    rewrite lossReturns_finite.
    specialize (Hloss G).
    destruct (negativeReturns initialBalance trades);
      [congruence|discriminate]. }
  assert (Hneg : winRate m / 100 * (aw / al) - (1 - winRate m / 100) < 0).
  { rewrite R. lra. }
  match goal with
  | |- context [JS.inf_of ?c] => destruct c eqn:Cmp
  end; cbn [JS.inf_of JS.mul JS.sign JS.sign_mul];
    [apply Qeq_alt in Cmp; lra | discriminate | apply Qgt_alt in Cmp; lra].
Qed.

End FiniteBalance.

(** ** Profit factor (C2) *)

Lemma grossProfit_cons (t : Trade) (ts : list Trade) :
  TradingReport.grossProfit (t :: ts)
  == (if Qgtb (net_profit t) 0 then net_profit t else 0)
     + TradingReport.grossProfit ts.
Proof.
  unfold TradingReport.grossProfit. cbn [filter].
  destruct (Qgtb (net_profit t) 0); cbn [fold_left].
  - rewrite fold_net_profit_shift. lra.
  - lra.
Qed.

Lemma grossLoss_cons (t : Trade) (ts : list Trade) :
  TradingReport.grossLoss (t :: ts)
  == (if Qltb (net_profit t) 0 then net_profit t else 0)
     + TradingReport.grossLoss ts.
Proof.
  unfold TradingReport.grossLoss. cbn [filter].
  destruct (Qltb (net_profit t) 0); cbn [fold_left].
  - rewrite fold_net_profit_shift. lra.
  - lra.
Qed.

Lemma grossLoss_nonpos (ts : list Trade) : TradingReport.grossLoss ts <= 0.
Proof.
  induction ts as [|t ts IH].
  - unfold TradingReport.grossLoss. simpl. lra.
  - rewrite grossLoss_cons.
    destruct (Qltb (net_profit t) 0) eqn:E; qcases; lra.
Qed.

Lemma returnPct_sign (ib : Q) (t : Trade) :
  0 < ib ->
  Qltb 0 (returnPct ib t) = Qgtb (net_profit t) 0
  /\ Qltb (returnPct ib t) 0 = Qltb (net_profit t) 0.
Proof.
  intro Hib. unfold returnPct.
  assert (Hs : net_profit t / ib * 100 == net_profit t * (100 / ib))
    by (field; lra).
  assert (Hk : 0 < 100 / ib) by (apply Qlt_shift_div_l; lra).
  split.
  - destruct (Qgtb (net_profit t) 0) eqn:E; qcases.
    + apply Qltb_lt. rewrite Hs. apply Qmult_lt_0_compat; assumption.
    + apply Qltb_ge. rewrite Hs.
      setoid_replace (net_profit t * (100 / ib))
        with (- ((- net_profit t) * (100 / ib))) by ring.
      assert (0 <= - net_profit t * (100 / ib))
        by (apply Qmult_le_0_compat; lra).
      lra.
  - destruct (Qltb (net_profit t) 0) eqn:E; qcases.
    + apply Qltb_lt. rewrite Hs.
      setoid_replace (net_profit t * (100 / ib))
        with (- ((- net_profit t) * (100 / ib))) by ring.
      assert (0 < - net_profit t * (100 / ib))
        by (apply Qmult_lt_0_compat; lra).
      lra.
    + apply Qltb_ge. rewrite Hs. apply Qmult_le_0_compat; lra.
Qed.

Lemma wins_total (ib : Q) (ts : list Trade) :
  0 < ib ->
  fold_left Qplus (positiveReturns ib ts) 0
  == TradingReport.grossProfit ts / ib * 100.
Proof.
  intro Hib. unfold positiveReturns. induction ts as [|t ts IH].
  - unfold TradingReport.grossProfit. simpl. field. lra.
  - cbn [map filter]. rewrite grossProfit_cons.
    destruct (returnPct_sign ib t Hib) as [-> _].
    destruct (Qgtb (net_profit t) 0); cbn [fold_left].
    + rewrite fold_Qplus_shift, IH. unfold returnPct. field. lra.
    + rewrite IH. field. lra.
Qed.

Lemma losses_total (ib : Q) (ts : list Trade) :
  0 < ib ->
  fold_left Qplus (negativeReturns ib ts) 0
  == TradingReport.grossLoss ts / ib * 100.
Proof.
  intro Hib. unfold negativeReturns. induction ts as [|t ts IH].
  - unfold TradingReport.grossLoss. simpl. field. lra.
  - cbn [map filter]. rewrite grossLoss_cons.
    destruct (returnPct_sign ib t Hib) as [_ ->].
    destruct (Qltb (net_profit t) 0); cbn [fold_left].
    + rewrite fold_Qplus_shift, IH. unfold returnPct. field. lra.
    + rewrite IH. field. lra.
Qed.

(** C2, as amended.  On a positive initial balance RiskModel's profit factor
    is [grossProfit / |grossLoss|] whenever the gross loss is not zero and
    is 0 whenever it is zero, whatever the gross profit; it is always a
    finite number.  The mark for an unbounded factor exists in the display
    code only: AdvancedStats prints the infinity sign exactly for the values
    that are at least 999. *)
Theorem profitFactor_zero_without_losses
        (initialBalance : Q) (trades : list Trade) (m : RiskModel.Metrics) :
  0 < initialBalance ->
  RiskModel.riskMetrics initialBalance trades = Some m ->
  (~ TradingReport.grossLoss trades == 0 ->
   JS.eqv (RiskModel.profitFactor m)
          (Fin (TradingReport.grossProfit trades
                / Qabs (TradingReport.grossLoss trades))))
  /\ (TradingReport.grossLoss trades == 0 -> RiskModel.profitFactor m = Fin 0)
  /\ JS.isFinite (RiskModel.profitFactor m) = true
  /\ (forall pf, AdvancedStats.profitFactorDisplay pf
                 = AdvancedStats.infinity_sign
                 <-> JS.ge pf (Fin 999) = true).
Proof.
  intros Hib Hm.
  assert (Hnz : ~ initialBalance == 0) by lra.
  pose proof (grossLoss_nonpos trades) as Hgl.
  pose proof (wins_total initialBalance trades Hib) as Hw.
  pose proof (losses_total initialBalance trades Hib) as Hl.
  assert (Hpf := profitFactor_eq _ _ _ Hm).
  rewrite (winReturns_finite _ _ Hnz), (lossReturns_finite _ _ Hnz) in Hpf.
  rewrite !sum_Fin in Hpf. cbn [JS.abs] in Hpf.
  set (tw := fold_left Qplus _ 0) in *.
  set (tl := fold_left Qplus _ 0) in Hl, Hpf.
  unfold JS.gt in Hpf. cbn [JS.lt] in Hpf.
  assert (Habs : Qabs tl == - TradingReport.grossLoss trades / initialBalance * 100).
  { rewrite Qabs_neg.
    - rewrite Hl. field. lra.
    - rewrite Hl.
      setoid_replace (TradingReport.grossLoss trades / initialBalance * 100)
        with (- ((- TradingReport.grossLoss trades) * (100 / initialBalance)))
        by (field; lra).
      assert (0 < 100 / initialBalance) by (apply Qlt_shift_div_l; lra).
      assert (0 <= - TradingReport.grossLoss trades * (100 / initialBalance))
        by (apply Qmult_le_0_compat; lra).
      lra. }
  assert (Hscale : 0 < 100 / initialBalance)
    by (apply Qlt_shift_div_l; lra).
  split; [|split; [|split]].
  - intro Hne.
    assert (Hlt : TradingReport.grossLoss trades < 0).
    { destruct (Qlt_le_dec (TradingReport.grossLoss trades) 0) as [L|L];
        [exact L|]. exfalso. apply Hne. lra. }
    assert (Hpos : 0 < Qabs tl).
    { rewrite Habs.
      setoid_replace (- TradingReport.grossLoss trades / initialBalance * 100)
        with ((- TradingReport.grossLoss trades) * (100 / initialBalance))
        by (field; lra).
      apply Qmult_lt_0_compat; lra. }
    assert (E1 : Qltb 0 (Qabs tl) = true) by (apply Qltb_lt; exact Hpos).
    assert (E2 : Qeq_bool (Qabs tl) 0 = false)
      by (apply Qeq_bool_false; lra).
    rewrite E1 in Hpf. cbn [JS.div] in Hpf. rewrite E2 in Hpf.
    rewrite Hpf. cbn [JS.eqv].
    rewrite Habs, Hw. rewrite (Qabs_neg _ Hgl). field. lra.
  - intro Hz.
    assert (E1 : Qltb 0 (Qabs tl) = false).
    { apply Qltb_ge. rewrite Habs, Hz.
      assert (- 0 / initialBalance * 100 == 0) as -> by (field; lra). lra. }
    rewrite E1 in Hpf. exact Hpf.
  - rewrite Hpf. destruct (Qltb 0 (Qabs tl)) eqn:E1; [|reflexivity].
    qcases.
    assert (E2 : Qeq_bool (Qabs tl) 0 = false)
      by (apply Qeq_bool_false; lra).
    cbn [JS.div]. rewrite E2. reflexivity.
  - intro pf. unfold AdvancedStats.profitFactorDisplay.
    destruct (JS.ge pf (Fin 999)); split; intro H;
      try reflexivity; try discriminate.
Qed.

Lemma profitFactor_zero_without_losses_witness :
  let m := RiskModel.computeMetrics 1000 single_win in
  0 < 1000
  /\ RiskModel.riskMetrics 1000 single_win = Some m
  /\ (~ TradingReport.grossLoss single_win == 0 ->
      JS.eqv (RiskModel.profitFactor m)
             (Fin (TradingReport.grossProfit single_win
                   / Qabs (TradingReport.grossLoss single_win))))
  /\ (TradingReport.grossLoss single_win == 0
      -> RiskModel.profitFactor m = Fin 0)
  /\ JS.isFinite (RiskModel.profitFactor m) = true
  /\ (forall pf, AdvancedStats.profitFactorDisplay pf
                 = AdvancedStats.infinity_sign
                 <-> JS.ge pf (Fin 999) = true).
Proof.
  intro m. split; [reflexivity|]. split; [reflexivity|].
  apply (profitFactor_zero_without_losses 1000 single_win m); reflexivity.
Defined.

(** C2 as stated fails.  With a single winning trade the gross loss is 0
    and the gross profit positive, yet the profit factor is 0 and is printed
    as a number; and a real ratio of 999 to 1 is printed as the infinity
    sign. *)
Lemma no_loss_profit_factor_is_zero :
  let m := RiskModel.computeMetrics 1000 single_win in
  let m' := RiskModel.computeMetrics 1000 ratio_999 in
  RiskModel.riskMetrics 1000 single_win = Some m
  /\ TradingReport.grossLoss single_win == 0
  /\ 0 < TradingReport.grossProfit single_win
  /\ RiskModel.profitFactor m = Fin 0
  /\ AdvancedStats.profitFactorDisplay (RiskModel.profitFactor m)
     <> AdvancedStats.infinity_sign
  /\ ~ TradingReport.grossLoss ratio_999 == 0
  /\ JS.eqv (RiskModel.profitFactor m') (Fin 999)
  /\ AdvancedStats.profitFactorDisplay (RiskModel.profitFactor m')
     = AdvancedStats.infinity_sign.
Proof.
  intros m m'. subst m m'.
  split; [reflexivity|]. split; [reflexivity|]. split; [reflexivity|].
  split; [reflexivity|]. split; [vm_compute; discriminate|].
  split; [vm_compute; discriminate|].
  split; vm_compute; reflexivity.
Qed.

(** ** RiskModel on a zero balance: every return is an infinity or NaN *)

Lemma tradeReturns_zero (ib : Q) (ts : list Trade) :
  ib == 0 ->
  RiskModel.tradeReturns ib ts
  = map (fun t => JS.inf_of (net_profit t ?= 0)) ts.
Proof.
  intro H. apply Qeq_bool_iff in H. unfold RiskModel.tradeReturns.
  apply map_ext. intro t. cbn [JS.div]. rewrite H.
  destruct (net_profit t ?= 0); reflexivity.
Qed.

Lemma tradeReturns_zero_nonfinite (ib : Q) (ts : list Trade) :
  ib == 0 -> Forall nonfinite (RiskModel.tradeReturns ib ts).
Proof.
  intro H. rewrite tradeReturns_zero by exact H.
  apply Forall_forall. intros r Hr. apply in_map_iff in Hr.
  destruct Hr as [t [<- _]]. destruct (net_profit t ?= 0); reflexivity.
Qed.

Lemma winReturns_zero (ib : Q) (ts : list Trade) :
  ib == 0 -> Forall (eq PInf) (RiskModel.winReturns ib ts).
Proof.
  intro H. pose proof (tradeReturns_zero_nonfinite ib ts H) as Hall.
  rewrite Forall_forall in Hall.
  apply Forall_forall. intros r Hr. apply filter_In in Hr.
  destruct Hr as [Hin Hgt]. specialize (Hall r Hin).
  destruct r; try discriminate; reflexivity.
Qed.

Lemma lossReturns_zero (ib : Q) (ts : list Trade) :
  ib == 0 -> Forall (eq NInf) (RiskModel.lossReturns ib ts).
Proof.
  intro H. pose proof (tradeReturns_zero_nonfinite ib ts H) as Hall.
  rewrite Forall_forall in Hall.
  apply Forall_forall. intros r Hr. apply filter_In in Hr.
  destruct Hr as [Hin Hlt]. specialize (Hall r Hin).
  destruct r; try discriminate; reflexivity.
Qed.

Lemma sum_all_PInf (l : list number) (a : number) :
  Forall (eq PInf) l -> l <> [] -> a = PInf \/ (exists q, a = Fin q) ->
  JS.sum a l = PInf.
Proof.
  unfold JS.sum. revert a.
  induction l as [|x l IH]; intros a Hall Hne Ha; [congruence|].
  inversion Hall as [|? ? <- Hl]; subst. cbn [fold_left].
  assert (JS.add a PInf = PInf) as ->
    by (destruct Ha as [->|[q ->]]; reflexivity).
  destruct l as [|y l]; [reflexivity|].
  apply IH; [exact Hl|discriminate|left; reflexivity].
Qed.

Lemma sum_all_NInf (l : list number) (a : number) :
  Forall (eq NInf) l -> l <> [] -> a = NInf \/ (exists q, a = Fin q) ->
  JS.sum a l = NInf.
Proof.
  unfold JS.sum. revert a.
  induction l as [|x l IH]; intros a Hall Hne Ha; [congruence|].
  inversion Hall as [|? ? <- Hl]; subst. cbn [fold_left].
  assert (JS.add a NInf = NInf) as ->
    by (destruct Ha as [->|[q ->]]; reflexivity).
  destruct l as [|y l]; [reflexivity|].
  apply IH; [exact Hl|discriminate|left; reflexivity].
Qed.

Lemma div_PInf_count {A} (l : list A) :
  JS.div PInf (Fin (RiskModel.count l)) = PInf.
Proof.
  cbn [JS.div JS.sign].
  assert (Qltb (RiskModel.count l) 0 = false) as ->
    by (apply Qltb_ge, count_nonneg).
  reflexivity.
Qed.

Lemma div_NInf_count {A} (l : list A) :
  JS.div NInf (Fin (RiskModel.count l)) = NInf.
Proof.
  cbn [JS.div JS.sign].
  assert (Qltb (RiskModel.count l) 0 = false) as ->
    by (apply Qltb_ge, count_nonneg).
  reflexivity.
Qed.

(** The variance accumulates non-finite terms only. *)
Lemma variance_terms_nonfinite (l : list number) (avg acc : number) :
  Forall nonfinite l -> (l <> [] \/ nonfinite acc) ->
  nonfinite (fold_left
               (fun sum r => JS.add sum (JS.pow (JS.sub r avg) (Fin 2)))
               l acc).
Proof.
  revert acc. induction l as [|r l IH]; intros acc Hall Hacc.
  - destruct Hacc as [H|H]; [congruence|exact H].
  - inversion Hall as [|? ? Hr Hl]; subst. cbn [fold_left].
    apply IH; [exact Hl|]. right.
    assert (Ht : nonfinite (JS.pow (JS.sub r avg) (Fin 2))).
    { destruct r; try discriminate Hr; destruct avg; reflexivity. }
    destruct (JS.pow (JS.sub r avg) (Fin 2)); try discriminate Ht;
      destruct acc; reflexivity.
Qed.

Lemma div_nonfinite {A} (a : number) (l : list A) :
  nonfinite a -> nonfinite (JS.div a (Fin (RiskModel.count l))).
Proof.
  intro H. destruct a; try discriminate H.
  - rewrite div_PInf_count. reflexivity.
  - rewrite div_NInf_count. reflexivity.
  - reflexivity.
Qed.

Lemma consistency_points_nonfinite (v a : number) :
  nonfinite v -> (RiskModel.consistency_points v a <= 0)%Z.
Proof.
  intro H. unfold RiskModel.consistency_points.
  destruct v; try discriminate H; cbn [Sqrt.lt];
    destruct (Sqrt.gt _ _); lia.
Qed.

Lemma winRate_points_le (w : Q) : (RiskModel.winRate_points w <= 10)%Z.
Proof. unfold RiskModel.winRate_points. destruct (Qgeb w 50); lia. Qed.

Lemma match_nonempty {A B} (l : list A) (a b : B) :
  l <> [] -> match l with [] => a | _ :: _ => b end = b.
Proof. destruct l; [congruence|reflexivity]. Qed.

Section ZeroBalance.

Import RiskModel.

Variables (initialBalance : Q) (trades : list Trade) (m : Metrics).
Hypothesis Hm : riskMetrics initialBalance trades = Some m.
Hypothesis Hib : initialBalance == 0.

Lemma avgWinPct_zero_balance : avgWinPct m = Fin 0 \/ avgWinPct m = PInf.
Proof.
  rewrite (avgWinPct_eq _ _ _ Hm). unfold average_or_zero.
  pose proof (winReturns_zero initialBalance trades Hib) as Hall.
  destruct (winReturns initialBalance trades) as [|r l] eqn:E.
  - left. reflexivity.
  - right. rewrite (sum_all_PInf _ _ Hall) by
        (try discriminate; right; eexists; reflexivity).
    apply div_PInf_count.
Qed.

Lemma totalWins_zero_balance :
  JS.sum (Fin 0) (winReturns initialBalance trades) = Fin 0
  \/ JS.sum (Fin 0) (winReturns initialBalance trades) = PInf.
Proof.
  pose proof (winReturns_zero initialBalance trades Hib) as Hall.
  destruct (winReturns initialBalance trades) as [|r l] eqn:E.
  - left. reflexivity.
  - right. apply sum_all_PInf;
      [exact Hall|discriminate|right; eexists; reflexivity].
Qed.

Hypothesis Hloss : lossReturns initialBalance trades <> [].

Lemma totalLosses_zero_balance :
  JS.sum (Fin 0) (lossReturns initialBalance trades) = NInf.
Proof.
  apply sum_all_NInf;
    [apply lossReturns_zero, Hib|exact Hloss|right; eexists; reflexivity].
Qed.

Lemma avgLossPct_zero_balance : avgLossPct m = PInf.
Proof.
  rewrite (avgLossPct_eq _ _ _ Hm).
  rewrite (match_nonempty _ _ _ Hloss).
  rewrite totalLosses_zero_balance, div_NInf_count.
  reflexivity.
Qed.

Lemma edge_points_zero_balance : edge_points (edge m) = (-20)%Z.
Proof.
  rewrite (edge_eq _ _ _ Hm), (breakEvenWinRate_eq _ _ _ Hm).
  rewrite avgLossPct_zero_balance.
  destruct avgWinPct_zero_balance as [-> | ->]; reflexivity.
Qed.

Lemma expectancy_points_zero_balance :
  expectancy_points (expectancyPct m) = (-15)%Z.
Proof.
  rewrite (expectancyPct_eq _ _ _ Hm), avgLossPct_zero_balance.
  pose proof (winRate_below_one_when_losses _ _ _ Hm Hloss) as Hw1.
  pose proof (winRate_fraction_bounds _ _ _ Hm) as [Hw0 _].
  assert (Hl : JS.mul (Fin (1 - winRate m / 100)) PInf = PInf).
  { cbn [JS.mul JS.sign].
    assert ((1 - winRate m / 100 ?= 0) = Gt) as ->
      by (apply Qgt_alt; lra).
    reflexivity. }
  rewrite Hl.
  destruct avgWinPct_zero_balance as [-> | ->].
  - reflexivity.
  - cbn [JS.mul JS.sign].
    destruct (winRate m / 100 ?= 0); reflexivity.
Qed.

Lemma profitFactor_points_zero_balance :
  (profitFactor_points (profitFactor m) <= 0)%Z.
Proof.
  rewrite (profitFactor_eq _ _ _ Hm), totalLosses_zero_balance.
  destruct totalWins_zero_balance as [-> | ->]; vm_compute; discriminate.
Qed.

Lemma variance_zero_balance : nonfinite (variance m).
Proof.
  rewrite (variance_eq _ _ _ Hm).
  apply div_nonfinite, variance_terms_nonfinite.
  - apply tradeReturns_zero_nonfinite, Hib.
  - left. intro E.
    pose proof (tradeReturns_length initialBalance trades) as L.
    rewrite E in L. pose proof (trades_nonempty _ _ _ Hm).
    destruct trades; [congruence|discriminate].
Qed.

(** On a zero balance with a losing trade the score stays below the third
    tier. *)
Lemma riskScore_zero_balance : (riskScore m < 30)%Z.
Proof.
  unfold riskScore.
  rewrite edge_points_zero_balance, expectancy_points_zero_balance.
  pose proof (winRate_points_le (winRate m)).
  pose proof profitFactor_points_zero_balance.
  pose proof (consistency_points_nonfinite _ (avgLossPct m)
                variance_zero_balance).
  lia.
Qed.

End ZeroBalance.

(** ** The recommended risk (C6) *)

Lemma recommend_at_most_5 (score : Z) (k : number) :
  k <> NaN -> JS.le (fst (RiskModel.recommend score k)) (Fin 5) = true.
Proof.
  intro Hk. unfold RiskModel.recommend.
  destruct (75 <=? score)%Z; [|destruct (50 <=? score)%Z;
                                [|destruct (30 <=? score)%Z]];
    cbn [fst]; destruct k as [x| | |]; try congruence; try reflexivity.
  - cbn [JS.min JS.le]. destruct (Qle_bool x 5) eqn:E; [exact E|reflexivity].
  - cbn [JS.div]. change (Qeq_bool 2 0) with false. cbv iota.
    cbn [JS.min JS.le].
    destruct (Qle_bool (x / 2) 3) eqn:E; [|reflexivity].
    qcases. apply Qle_bool_iff. lra.
  - cbn [JS.div]. change (Qeq_bool 4 0) with false. cbv iota.
    cbn [JS.min JS.le].
    destruct (Qle_bool 1 (x / 4)) eqn:E; [reflexivity|].
    qcases. apply Qle_bool_iff. lra.
Qed.

Lemma recommend_weak (score : Z) (k : number) :
  (score < 30)%Z -> fst (RiskModel.recommend score k) = Fin (1 # 2).
Proof.
  intro H. unfold RiskModel.recommend.
  assert ((75 <=? score)%Z = false) as -> by lia.
  assert ((50 <=? score)%Z = false) as -> by lia.
  assert ((30 <=? score)%Z = false) as -> by lia.
  reflexivity.
Qed.

Lemma kellyHalf_NaN_weak_score
      (initialBalance : Q) (trades : list Trade) (m : RiskModel.Metrics) :
  RiskModel.riskMetrics initialBalance trades = Some m ->
  RiskModel.kellyHalf m = NaN -> (RiskModel.riskScore m < 30)%Z.
Proof.
  intros Hm Hk.
  assert (Hp : RiskModel.kellyPct m = NaN).
  { rewrite (kellyHalf_eq _ _ _ Hm) in Hk.
    destruct (RiskModel.kellyPct m); try discriminate Hk; reflexivity. }
  destruct (Qeq_dec initialBalance 0) as [Hz|Hnz].
  - apply (riskScore_zero_balance _ _ _ Hm Hz).
    intro E. rewrite (kellyPct_eq _ _ _ Hm) in Hp.
    rewrite (avgLossPct_eq _ _ _ Hm), E in Hp. discriminate.
  - exfalso. exact (kellyPct_not_NaN _ _ _ Hm Hnz Hp).
Qed.

(** C6.  For every non-empty trade list, and every initial balance, the
    recommended risk percentage is at most 5, whichever tier the score
    selects. *)
Theorem recommendedPct_at_most_5
        (initialBalance : Q) (trades : list Trade) (m : RiskModel.Metrics) :
  RiskModel.riskMetrics initialBalance trades = Some m ->
  JS.le (RiskModel.recommendedPct m) (Fin 5) = true.
Proof.
  intro Hm. unfold RiskModel.recommendedPct.
  destruct (RiskModel.kellyHalf m) as [x| | |] eqn:K.
  - apply recommend_at_most_5. discriminate.
  - apply recommend_at_most_5. discriminate.
  - apply recommend_at_most_5. discriminate.
  - rewrite recommend_weak; [reflexivity|].
    apply (kellyHalf_NaN_weak_score _ _ _ Hm K).
Qed.

Lemma recommendedPct_at_most_5_witness :
  let m := RiskModel.computeMetrics 1000 scenarioD in
  RiskModel.riskMetrics 1000 scenarioD = Some m
  /\ JS.le (RiskModel.recommendedPct m) (Fin 5) = true.
Proof.
  intro m. split; [reflexivity|].
  apply (recommendedPct_at_most_5 1000 scenarioD m). reflexivity.
Defined.

(** ** What the periods and the MAE points depend on *)

Lemma points_from_ext (draws1 draws2 : nat -> Q) (ts : list Trade) (i : nat) :
  (forall j, (i <= j < i + List.length ts)%nat -> draws1 j = draws2 j) ->
  MAEMFEChart.points_from draws1 i ts = MAEMFEChart.points_from draws2 i ts.
Proof.
  revert i. induction ts as [|t ts IH]; intros i H; [reflexivity|].
  cbn [MAEMFEChart.points_from].
  rewrite (H i) by (cbn [List.length]; lia).
  rewrite (IH (S i)); [reflexivity|].
  intros j Hj. apply H. cbn [List.length]. lia.
Qed.

(** C9 as stated fails: the outputs are not functions of the props alone.
    The same winning trade, closed one second after the epoch, makes a
    profit of 100 'Today' when the clock reads that day and of 0 when it
    reads the next one; and the trade's MAE is 0 or -150 for the draws 0 and
    1/2. *)
Lemma output_varies_with_clock_and_draws :
  PeriodsComparison.profit (PeriodsComparison.todayRow morning single_win)
    == 100
  /\ PeriodsComparison.profit (PeriodsComparison.todayRow next_day single_win)
    == 0
  /\ PeriodsComparison.todayRow morning single_win
     <> PeriodsComparison.todayRow next_day single_win
  /\ PeriodsComparison.weekRow morning single_win
     <> PeriodsComparison.weekRow (PeriodsComparison.mkHost 500 0) single_win
  /\ (exists p q,
         MAEMFEChart.points (fun _ => 0) single_win = ([p], [])
         /\ MAEMFEChart.points (fun _ => 1 # 2) single_win = ([q], [])
         /\ JS.eqv (MAEMFEChart.mae p) (Fin 0)
         /\ JS.eqv (MAEMFEChart.mae q) (Fin (-150)))
  /\ MAEMFEChart.points (fun _ => 0) single_win
     <> MAEMFEChart.points (fun _ => 1 # 2) single_win.
Proof.
  split; [reflexivity|]. split; [reflexivity|].
  split.
  { intro H. apply (f_equal PeriodsComparison.trades_count) in H.
    vm_compute in H. discriminate. }
  split.
  { intro H. apply (f_equal PeriodsComparison.trades_count) in H.
    vm_compute in H. discriminate. }
  split.
  { eexists. eexists. split; [reflexivity|]. split; [reflexivity|].
    split; reflexivity. }
  intro H. vm_compute in H. discriminate.
Qed.

(** * Further properties of the analytics code *)

(** ** Lists in time order *)

Lemma insertByTime_sorted (t : Trade) (l : list Trade) :
  StronglySorted byTime l -> StronglySorted byTime (insertByTime t l).
Proof.
  induction l as [|u l IH]; intro Hs; cbn [insertByTime].
  - constructor; constructor.
  - inversion Hs as [|? ? Hl Hu]; subst.
    destruct (time t <=? time u)%Z eqn:E.
    + apply Z.leb_le in E. constructor; [exact Hs|].
      constructor; [exact E|].
      eapply Forall_impl; [|exact Hu].
      unfold byTime. intros a Ha. lia.
    + apply Z.leb_gt in E. constructor; [apply IH, Hl|].
      eapply Permutation_Forall; [apply insertByTime_perm|].
      constructor; [unfold byTime; lia|exact Hu].
Qed.

Lemma sortByTime_sorted (ts : list Trade) :
  StronglySorted byTime (sortByTime ts).
Proof.
  induction ts as [|t ts IH]; cbn [sortByTime].
  - constructor.
  - apply insertByTime_sorted, IH.
Qed.

Lemma sortByTime_inTimeOrder (ts : list Trade) :
  inTimeOrder ts = true -> sortByTime ts = ts.
Proof.
  induction ts as [|t ts IH]; [reflexivity|].
  cbn [inTimeOrder sortByTime]. intro H.
  apply andb_prop in H. destruct H as [Hh Ht].
  rewrite (IH Ht).
  destruct ts as [|u ts]; [reflexivity|].
  cbn [insertByTime]. cbn [forallb] in Hh.
  apply andb_prop in Hh. destruct Hh as [-> _]. reflexivity.
Qed.

Lemma sum_net_profit_app (l l' : list Trade) :
  sum_net_profit (l ++ l') == sum_net_profit l + sum_net_profit l'.
Proof.
  induction l as [|t l IH].
  - unfold sum_net_profit at 2. simpl. lra.
  - cbn [app]. rewrite !sum_net_profit_cons, IH. lra.
Qed.

(** ** TradingReport: net P/L, the balance curve and the drawdown *)

Lemma grossProfit_nonneg (ts : list Trade) : 0 <= TradingReport.grossProfit ts.
Proof.
  induction ts as [|t ts IH].
  - unfold TradingReport.grossProfit. simpl. lra.
  - rewrite grossProfit_cons.
    destruct (Qgtb (net_profit t) 0) eqn:E; qcases; lra.
Qed.

Lemma gross_sum (ts : list Trade) :
  TradingReport.grossProfit ts + TradingReport.grossLoss ts
  == sum_net_profit ts.
Proof.
  induction ts as [|t ts IH].
  - reflexivity.
  - rewrite grossProfit_cons, grossLoss_cons, sum_net_profit_cons, <- IH.
    destruct (Qgtb (net_profit t) 0) eqn:E1;
      destruct (Qltb (net_profit t) 0) eqn:E2; qcases; lra.
Qed.

(** X1.  TradingReport's [netPL], the sum of the gross profit and the gross
    loss, is the sum of the net profits of all trades: a zero-profit trade
    belongs to neither part and adds nothing.  The gross profit is never
    negative and the gross loss never positive. *)
Theorem netPL_is_total_net_profit (trades : list Trade) :
  ReportMetrics.netPL trades == sum_net_profit trades
  /\ 0 <= TradingReport.grossProfit trades
  /\ TradingReport.grossLoss trades <= 0.
Proof.
  split; [|split].
  - destruct trades as [|t ts]; [reflexivity|].
    unfold ReportMetrics.netPL. apply gross_sum.
  - apply grossProfit_nonneg.
  - apply grossLoss_nonpos.
Qed.

Lemma balance_pass_dates (ts : list Trade) (rb : Q) :
  map TradingReport.fullDate (snd (TradingReport.balance_pass rb ts))
  = map time ts.
Proof.
  revert rb. induction ts as [|t ts IH]; intro rb; [reflexivity|].
  cbn [TradingReport.balance_pass]. unfold TradingReport.balance_step.
  specialize (IH (rb + net_profit t)).
  destruct (TradingReport.balance_pass (rb + net_profit t) ts) as [f ps].
  cbn [snd map TradingReport.fullDate] in *. rewrite IH. reflexivity.
Qed.

Lemma StronglySorted_map_time (l : list Trade) :
  StronglySorted byTime l -> StronglySorted Z.le (map time l).
Proof.
  induction 1 as [|t l Hs IH Hf]; cbn [map]; constructor.
  - exact IH.
  - apply Forall_map. exact Hf.
Qed.

(** X2.  [balanceData] holds one point per trade, and its points are in
    non-decreasing time order whatever the order of the trade list; their
    times are those of the trades. *)
Theorem balanceData_in_time_order (initialBalance : Q) (trades : list Trade) :
  List.length (TradingReport.balanceData initialBalance trades)
  = List.length trades
  /\ StronglySorted Z.le
       (map TradingReport.fullDate
            (TradingReport.balanceData initialBalance trades))
  /\ Permutation (map time trades)
       (map TradingReport.fullDate
            (TradingReport.balanceData initialBalance trades)).
Proof.
  unfold TradingReport.balanceData.
  pose proof (balance_pass_dates (sortByTime trades) initialBalance) as Hd.
  split; [|split].
  - rewrite <- (length_map TradingReport.fullDate), Hd, length_map.
    symmetry. apply Permutation_length, sortByTime_perm.
  - rewrite Hd. apply StronglySorted_map_time, sortByTime_sorted.
  - rewrite Hd. apply Permutation_map, sortByTime_perm.
Qed.

(** On a positive balance the peak stays positive, every drawdown is a
    finite number and [maxDD] is the largest of them. *)
Lemma dd_fold_positive (ts : list Trade) (s : TradingReport.DDState) (m : Q) :
  0 < TradingReport.dd_peak s ->
  TradingReport.maxDD s = Fin m -> 0 <= m ->
  exists d,
    TradingReport.maxDD (fold_left TradingReport.dd_step ts s) = Fin d
    /\ m <= d
    /\ Forall (fun x => JS.le x (Fin d) = true)
              (TradingReport.drawdowns (TradingReport.dd_running s)
                                       (TradingReport.dd_peak s) ts)
    /\ (d = m
        \/ In (Fin d)
              (TradingReport.drawdowns (TradingReport.dd_running s)
                                       (TradingReport.dd_peak s) ts)).
Proof.
  revert s m. induction ts as [|t ts IH]; intros s m Hpk Hm Hm0.
  - exists m. cbn [fold_left TradingReport.drawdowns].
    repeat split; [exact Hm|lra|constructor|left; reflexivity].
  - cbn [fold_left TradingReport.drawdowns].
    set (rb := TradingReport.dd_running s + net_profit t).
    set (pk := if Qgtb rb (TradingReport.dd_peak s) then rb
               else TradingReport.dd_peak s).
    assert (Hpk' : 0 < pk /\ rb <= pk).
    { unfold pk. destruct (Qgtb rb (TradingReport.dd_peak s)) eqn:E;
        qcases; split; lra. }
    destruct Hpk' as [Hp1 Hp2].
    assert (Hdd : TradingReport.drawdown_of pk rb
                  = Fin ((pk - rb) / pk * 100)).
    { unfold TradingReport.drawdown_of, JS.div.
      destruct (Qeq_bool pk 0) eqn:E0; [qcases; lra|]. reflexivity. }
    assert (Hx : 0 <= (pk - rb) / pk * 100).
    { apply Qmult_le_0_compat; [|lra].
      apply Qle_shift_div_l; [exact Hp1|]. lra. }
    set (x := (pk - rb) / pk * 100) in *.
    assert (Hstep : TradingReport.dd_step s t
                    = TradingReport.mkDD rb pk
                        (if JS.gt (Fin x) (Fin m) then Fin x else Fin m)).
    { unfold TradingReport.dd_step. fold rb. fold pk.
      rewrite Hdd, Hm. reflexivity. }
    rewrite Hstep, Hdd.
    destruct (JS.gt (Fin x) (Fin m)) eqn:G; unfold JS.gt in G;
      cbn [JS.lt] in G; qcases.
    + destruct (IH (TradingReport.mkDD rb pk (Fin x)) x Hp1 eq_refl Hx)
        as (d & Hd & Hle & Hall & Hin).
      cbn [TradingReport.dd_running TradingReport.dd_peak] in Hall, Hin.
      exists d. split; [exact Hd|]. split; [lra|]. split.
      * constructor; [|exact Hall]. cbn [JS.le]. apply Qle_bool_iff. exact Hle.
      * right. destruct Hin as [->|Hin]; [left; reflexivity|right; exact Hin].
    + destruct (IH (TradingReport.mkDD rb pk (Fin m)) m Hp1 eq_refl Hm0)
        as (d & Hd & Hle & Hall & Hin).
      cbn [TradingReport.dd_running TradingReport.dd_peak] in Hall, Hin.
      exists d. split; [exact Hd|]. split; [lra|]. split.
      * constructor; [|exact Hall]. cbn [JS.le]. apply Qle_bool_iff. lra.
      * destruct Hin as [->|Hin]; [left; reflexivity|right; right; exact Hin].
Qed.

(** X3.  On a positive initial balance [maxDrawdown] is a finite
    non-negative number; it bounds the drawdown computed at every trade (the
    trades taken in time order) and is either 0 or one of those
    drawdowns. *)
Theorem maxDrawdown_is_largest_drawdown
        (initialBalance : Q) (trades : list Trade) :
  0 < initialBalance ->
  exists d,
    TradingReport.maxDrawdown initialBalance trades = Fin d
    /\ 0 <= d
    /\ Forall (fun x => JS.le x (Fin d) = true)
              (TradingReport.drawdowns initialBalance initialBalance
                                       (sortByTime trades))
    /\ (d = 0
        \/ In (Fin d)
              (TradingReport.drawdowns initialBalance initialBalance
                                       (sortByTime trades))).
Proof.
  intro Hib.
  destruct (dd_fold_positive (sortByTime trades)
              (TradingReport.mkDD initialBalance initialBalance (Fin 0)) 0
              Hib eq_refl (Qle_refl 0)) as (d & Hd & Hle & Hall & Hin).
  cbn [TradingReport.dd_running TradingReport.dd_peak] in Hall, Hin.
  destruct trades as [|t ts].
  - exists 0. cbn. repeat split; [lra|constructor|left; reflexivity].
  - exists d. unfold TradingReport.maxDrawdown, TradingReport.dd_pass.
    repeat split; assumption.
Qed.

Lemma maxDrawdown_is_largest_drawdown_witness :
  exists d,
    TradingReport.maxDrawdown 1000 large_loss = Fin d
    /\ 0 <= d
    /\ Forall (fun x => JS.le x (Fin d) = true)
              (TradingReport.drawdowns 1000 1000 (sortByTime large_loss))
    /\ (d = 0
        \/ In (Fin d)
              (TradingReport.drawdowns 1000 1000 (sortByTime large_loss))).
Proof.
  apply (maxDrawdown_is_largest_drawdown 1000 large_loss). reflexivity.
Defined.

Lemma maxDrawdown_positive_balance (initialBalance : Q) (trades : list Trade) :
  0 < initialBalance ->
  exists d, TradingReport.maxDrawdown initialBalance trades = Fin d /\ 0 <= d.
Proof.
  intro Hib.
  destruct (dd_fold_positive (sortByTime trades)
              (TradingReport.mkDD initialBalance initialBalance (Fin 0)) 0
              Hib eq_refl (Qle_refl 0)) as (d & Hd & Hle & _).
  destruct trades as [|t ts].
  - exists 0. split; [reflexivity|lra].
  - exists d. split; [exact Hd|exact Hle].
Qed.

(** X4.  On a positive initial balance the recovery factor is a finite
    non-negative number: it is 0 when no drawdown was recorded, and
    otherwise the absolute net P/L over the largest drawdown in money,
    [initialBalance * maxDrawdown / 100]. *)
Theorem recoveryFactor_on_positive_balance
        (initialBalance : Q) (trades : list Trade) :
  0 < initialBalance ->
  exists d r,
    TradingReport.maxDrawdown initialBalance trades = Fin d
    /\ ReportMetrics.recoveryFactor initialBalance trades = Fin r
    /\ 0 <= r
    /\ (d == 0 -> r == 0)
    /\ (0 < d ->
        r * (initialBalance * d / 100) == Qabs (sum_net_profit trades)).
Proof.
  intro Hib.
  destruct (maxDrawdown_positive_balance initialBalance trades Hib)
    as (d & Hd & Hd0).
  exists d. unfold ReportMetrics.recoveryFactor.
  destruct trades as [|t ts].
  - exists 0. injection Hd as <-.
    split; [reflexivity|]. split; [reflexivity|]. split; [lra|].
    split; [reflexivity|]. intro H. lra.
  - set (ts' := t :: ts) in *. rewrite Hd.
    unfold JS.gt. cbn [JS.lt].
    destruct (Qltb 0 d) eqn:E; qcases.
    + assert (Hden : 0 < initialBalance * d / 100).
      { apply Qlt_shift_div_l; [lra|].
        setoid_replace (0 * 100) with (0 * d) by ring.
        apply Qmult_lt_compat_r; assumption. }
      cbn [JS.mul]. unfold JS.div.
      change (Qeq_bool 100 0) with false. cbv iota.
      destruct (Qeq_bool (initialBalance * d / 100) 0) eqn:E0; [qcases; lra|].
      eexists. split; [reflexivity|]. split; [reflexivity|].
      assert (Hn : ReportMetrics.netPL ts' == sum_net_profit ts')
        by (unfold ReportMetrics.netPL, ts'; apply gross_sum).
      split; [|split].
      * apply Qle_shift_div_l; [exact Hden|].
        pose proof (Qabs_nonneg (ReportMetrics.netPL ts')). lra.
      * intro H. lra.
      * intros _. rewrite <- Hn. field. lra.
    + exists 0. split; [reflexivity|]. split; [reflexivity|].
      split; [lra|]. split; [reflexivity|]. intro H. lra.
Qed.

Lemma recoveryFactor_on_positive_balance_witness :
  exists d r,
    TradingReport.maxDrawdown 1000 usual_loss = Fin d
    /\ ReportMetrics.recoveryFactor 1000 usual_loss = Fin r
    /\ 0 <= r
    /\ (d == 0 -> r == 0)
    /\ (0 < d -> r * (1000 * d / 100) == Qabs (sum_net_profit usual_loss)).
Proof.
  apply (recoveryFactor_on_positive_balance 1000 usual_loss). reflexivity.
Defined.

(** X5.  When no trade loses, whatever the initial balance (zero and
    negative ones included), no drawdown is recorded: [maxDrawdown], the
    recovery factor and the deposit load are all 0. *)
Theorem no_losing_trade_no_drawdown (initialBalance : Q) (trades : list Trade) :
  Forall (fun t => 0 <= net_profit t) trades ->
  TradingReport.maxDrawdown initialBalance trades = Fin 0
  /\ ReportMetrics.recoveryFactor initialBalance trades = Fin 0
  /\ JS.eqv (ReportMetrics.maxDepositLoad initialBalance trades) (Fin 0).
Proof.
  intro Hall.
  pose proof (maxDrawdown_zero_when_nondecreasing initialBalance trades Hall)
    as Hz.
  split; [exact Hz|].
  unfold ReportMetrics.recoveryFactor, ReportMetrics.maxDepositLoad.
  destruct trades as [|t ts]; [split; reflexivity|].
  rewrite Hz. split; reflexivity.
Qed.

Lemma no_losing_trade_no_drawdown_witness :
  TradingReport.maxDrawdown 0 single_win = Fin 0
  /\ ReportMetrics.recoveryFactor 0 single_win = Fin 0
  /\ JS.eqv (ReportMetrics.maxDepositLoad 0 single_win) (Fin 0).
Proof.
  apply (no_losing_trade_no_drawdown 0 single_win).
  repeat constructor. discriminate.
Defined.

(** ** TradingReport: the daily and the weekday P/L *)

Lemma or_zero_eq (x : Q) : ReportMetrics.or_zero x == x.
Proof.
  unfold ReportMetrics.or_zero.
  destruct (Qeq_bool x 0) eqn:E; [|reflexivity].
  apply Qeq_bool_iff in E. rewrite E. reflexivity.
Qed.

Lemma addDaily_In (k : Z) (p : Q) (m : list (Z * Q)) (d : Z) :
  In d (map fst (ReportMetrics.addDaily k p m))
  <-> d = k \/ In d (map fst m).
Proof.
  induction m as [|[k' v] m IH]; cbn [ReportMetrics.addDaily map fst In].
  - intuition.
  - destruct (k =? k')%Z eqn:E; cbn [map fst In].
    + apply Z.eqb_eq in E. subst. intuition.
    + rewrite IH. intuition.
Qed.

Lemma addDaily_NoDup (k : Z) (p : Q) (m : list (Z * Q)) :
  NoDup (map fst m) -> NoDup (map fst (ReportMetrics.addDaily k p m)).
Proof.
  induction m as [|[k' v] m IH]; cbn [ReportMetrics.addDaily map fst];
    intro H.
  - constructor; [intros []|constructor].
  - inversion H as [|? ? Hn Hd]; subst.
    destruct (k =? k')%Z eqn:E; cbn [map fst].
    + exact H.
    + apply Z.eqb_neq in E. constructor; [|apply IH, Hd].
      rewrite addDaily_In. intros [->|Hin]; [congruence|contradiction].
Qed.

Lemma addDaily_profit (k : Z) (p : Q) (m : list (Z * Q)) (d : Z) :
  profit_of d (ReportMetrics.addDaily k p m)
  == (if (d =? k)%Z then profit_of d m + p else profit_of d m).
Proof.
  induction m as [|[k' v] m IH]; cbn [ReportMetrics.addDaily profit_of].
  - destruct (d =? k)%Z; lra.
  - destruct (k =? k')%Z eqn:E; cbn [profit_of].
    + apply Z.eqb_eq in E. subst k'.
      destruct (d =? k)%Z; [rewrite or_zero_eq|]; reflexivity.
    + destruct (d =? k')%Z eqn:E'; [|exact IH].
      apply Z.eqb_eq in E'. subst k'.
      rewrite Z.eqb_sym, E. reflexivity.
Qed.

Lemma sum_days_addDaily (k : Z) (p : Q) (m : list (Z * Q)) :
  sum_days (ReportMetrics.addDaily k p m) == sum_days m + p.
Proof.
  induction m as [|[k' v] m IH]; cbn [ReportMetrics.addDaily sum_days fold_right].
  - cbn [snd]. lra.
  - destruct (k =? k')%Z; cbn [sum_days fold_right snd].
    + rewrite or_zero_eq. unfold sum_days. lra.
    + unfold sum_days in *. rewrite IH. lra.
Qed.

Lemma dailyMap_snoc (ts : list Trade) (t : Trade) :
  ReportMetrics.dailyMap (ts ++ [t])
  = ReportMetrics.addDaily (ReportMetrics.isoDate t) (net_profit t)
                           (ReportMetrics.dailyMap ts).
Proof. unfold ReportMetrics.dailyMap. rewrite fold_left_app. reflexivity. Qed.

Lemma onDate_snoc (d : Z) (ts : list Trade) (t : Trade) :
  sum_net_profit (onDate d (ts ++ [t]))
  == sum_net_profit (onDate d ts)
     + (if (d =? ReportMetrics.isoDate t)%Z then net_profit t else 0).
Proof.
  unfold onDate. rewrite filter_app, sum_net_profit_app. cbn [filter].
  rewrite (Z.eqb_sym d).
  destruct (ReportMetrics.isoDate t =? d)%Z.
  - rewrite sum_net_profit_cons. change (sum_net_profit []) with 0. lra.
  - change (sum_net_profit []) with 0. lra.
Qed.

Lemma dailyMap_spec (ts : list Trade) :
  NoDup (map fst (ReportMetrics.dailyMap ts))
  /\ (forall d, In d (map fst (ReportMetrics.dailyMap ts))
                <-> exists t, In t ts /\ ReportMetrics.isoDate t = d)
  /\ (forall d, profit_of d (ReportMetrics.dailyMap ts)
                == sum_net_profit (onDate d ts))
  /\ sum_days (ReportMetrics.dailyMap ts) == sum_net_profit ts.
Proof.
  induction ts as [|t ts IH] using rev_ind.
  - split; [constructor|]. split; [|split].
    + intro d. split; [intros []|intros (t & [] & _)].
    + intro d. reflexivity.
    + reflexivity.
  - destruct IH as (Hn & Hk & Hp & Hs). rewrite dailyMap_snoc.
    split; [apply addDaily_NoDup, Hn|]. split; [|split].
    + intro d. rewrite addDaily_In, Hk. split.
      * intros [->|(u & Hu & Hd)].
        -- exists t. split; [apply in_or_app; right; left|]; reflexivity.
        -- exists u. split; [apply in_or_app; left; exact Hu|exact Hd].
      * intros (u & Hu & Hd). apply in_app_or in Hu.
        destruct Hu as [Hu|[->|[]]]; [right; exists u; tauto|left; congruence].
    + intro d. rewrite addDaily_profit, onDate_snoc.
      destruct (d =? ReportMetrics.isoDate t)%Z; rewrite Hp; lra.
    + rewrite sum_days_addDaily, sum_net_profit_app, Hs.
      rewrite sum_net_profit_cons. change (sum_net_profit []) with 0. lra.
Qed.

Lemma insertByDate_perm (e : Z * Q) (l : list (Z * Q)) :
  Permutation (e :: l) (ReportMetrics.insertByDate e l).
Proof.
  induction l as [|f l IH]; cbn [ReportMetrics.insertByDate].
  - apply Permutation_refl.
  - destruct (fst e <=? fst f)%Z.
    + apply Permutation_refl.
    + eapply perm_trans; [apply perm_swap|]. apply perm_skip, IH.
Qed.

Lemma sortByDate_perm (l : list (Z * Q)) :
  Permutation l (ReportMetrics.sortByDate l).
Proof.
  induction l as [|e l IH]; cbn [ReportMetrics.sortByDate].
  - constructor.
  - eapply perm_trans; [apply perm_skip, IH|apply insertByDate_perm].
Qed.

Lemma insertByDate_sorted (e : Z * Q) (l : list (Z * Q)) :
  StronglySorted byDate l ->
  StronglySorted byDate (ReportMetrics.insertByDate e l).
Proof.
  induction l as [|f l IH]; intro Hs; cbn [ReportMetrics.insertByDate].
  - constructor; constructor.
  - inversion Hs as [|? ? Hl Hf]; subst.
    destruct (fst e <=? fst f)%Z eqn:E.
    + apply Z.leb_le in E. constructor; [exact Hs|].
      constructor; [exact E|].
      eapply Forall_impl; [|exact Hf]. unfold byDate. intros a Ha. lia.
    + apply Z.leb_gt in E. constructor; [apply IH, Hl|].
      eapply Permutation_Forall; [apply insertByDate_perm|].
      constructor; [unfold byDate; lia|exact Hf].
Qed.

Lemma sortByDate_sorted (l : list (Z * Q)) :
  StronglySorted byDate (ReportMetrics.sortByDate l).
Proof.
  induction l as [|e l IH]; cbn [ReportMetrics.sortByDate].
  - constructor.
  - apply insertByDate_sorted, IH.
Qed.

Lemma StronglySorted_map_date (l : list (Z * Q)) :
  StronglySorted byDate l -> StronglySorted Z.le (map fst l).
Proof.
  induction 1 as [|a l Hs IH Hf]; cbn [map]; constructor.
  - exact IH.
  - apply Forall_map. exact Hf.
Qed.

Lemma sorted_distinct_increasing (l : list Z) :
  StronglySorted Z.le l -> NoDup l -> StronglySorted Z.lt l.
Proof.
  induction 1 as [|a l Hs IH Hf]; intro Hn; constructor.
  - apply IH. inversion Hn; assumption.
  - inversion Hn as [|? ? Ha _]; subst.
    rewrite Forall_forall in *. intros x Hx.
    specialize (Hf x Hx). assert (a <> x) by (intros ->; contradiction).
    lia.
Qed.

Lemma profit_of_In (d : Z) (v : Q) (m : list (Z * Q)) :
  NoDup (map fst m) -> In (d, v) m -> profit_of d m = v.
Proof.
  induction m as [|[k w] m IH]; cbn [map fst profit_of In]; intros Hn Hin.
  - contradiction.
  - inversion Hn as [|? ? Hk Hm]; subst.
    destruct Hin as [E|Hin].
    + injection E as -> ->. rewrite Z.eqb_refl. reflexivity.
    + destruct (d =? k)%Z eqn:E; [|apply IH; assumption].
      apply Z.eqb_eq in E. subst k. exfalso. apply Hk.
      apply (in_map fst) in Hin. exact Hin.
Qed.

Lemma sum_days_perm (l l' : list (Z * Q)) :
  Permutation l l' -> sum_days l == sum_days l'.
Proof.
  unfold sum_days. induction 1; cbn [fold_right].
  - reflexivity.
  - rewrite IHPermutation. reflexivity.
  - lra.
  - etransitivity; eassumption.
Qed.

(** X6.  [dailyPnL] lists the UTC days on which a trade closed, each once
    and in increasing order; the profit listed for a day is the sum of the
    net profits of the trades closed on that day, and the listed profits add
    up to the net profit of all trades. *)
Theorem dailyPnL_groups_trades_by_day (trades : list Trade) :
  StronglySorted Z.lt (map fst (ReportMetrics.dailyPnL trades))
  /\ (forall t, In t trades ->
        In (ReportMetrics.isoDate t) (map fst (ReportMetrics.dailyPnL trades)))
  /\ (forall d v, In (d, v) (ReportMetrics.dailyPnL trades) ->
        onDate d trades <> [] /\ v == sum_net_profit (onDate d trades))
  /\ sum_days (ReportMetrics.dailyPnL trades) == sum_net_profit trades.
Proof.
  destruct (dailyMap_spec trades) as (Hn & Hk & Hp & Hs).
  unfold ReportMetrics.dailyPnL.
  pose proof (sortByDate_perm (ReportMetrics.dailyMap trades)) as P.
  pose proof (Permutation_map fst P) as Pk.
  split; [|split; [|split]].
  - apply sorted_distinct_increasing.
    + apply StronglySorted_map_date, sortByDate_sorted.
    + eapply Permutation_NoDup; eassumption.
  - intros t Ht. eapply Permutation_in; [exact Pk|].
    apply Hk. exists t. split; [exact Ht|reflexivity].
  - intros d v Hin.
    apply (Permutation_in _ (Permutation_sym P)) in Hin.
    split.
    + assert (Hd : In d (map fst (ReportMetrics.dailyMap trades)))
        by (apply (in_map fst) in Hin; exact Hin).
      apply Hk in Hd. destruct Hd as (t & Ht & Hd).
      intro E. assert (Hf : In t (onDate d trades)).
      { apply filter_In. split; [exact Ht|]. apply Z.eqb_eq. exact Hd. }
      rewrite E in Hf. exact Hf.
    + rewrite <- (profit_of_In d v _ Hn Hin). apply Hp.
  - rewrite <- (sum_days_perm _ _ P). exact Hs.
Qed.

Lemma lookup_addWeekday (i k : Z) (p : Q)
      (m : list (Z * ReportMetrics.WeekdayEntry)) :
  ReportMetrics.lookupWeekday i (ReportMetrics.addWeekday k p m)
  = if (i =? k)%Z
    then Some (match ReportMetrics.lookupWeekday k m with
               | Some e => ReportMetrics.mkWeekdayEntry
                             (ReportMetrics.w_profit e + p)
                             (S (ReportMetrics.w_count e))
               | None => ReportMetrics.mkWeekdayEntry (0 + p) 1
               end)
    else ReportMetrics.lookupWeekday i m.
Proof.
  unfold ReportMetrics.lookupWeekday.
  induction m as [|[k' e] m IH]; cbn [ReportMetrics.addWeekday find fst snd].
  - rewrite (Z.eqb_sym k i). destruct (i =? k)%Z; reflexivity.
  - destruct (k =? k')%Z eqn:E; cbn [find fst snd].
    + apply Z.eqb_eq in E. subst k'. rewrite Z.eqb_refl.
      rewrite (Z.eqb_sym k i). destruct (i =? k)%Z; reflexivity.
    + rewrite (Z.eqb_sym k' k), E.
      destruct (k' =? i)%Z eqn:E'; [|exact IH].
      apply Z.eqb_eq in E'. subst k'.
      rewrite Z.eqb_sym, E. reflexivity.
Qed.

Lemma weekdayMap_snoc (tz : Z) (ts : list Trade) (t : Trade) :
  ReportMetrics.weekdayMap tz (ts ++ [t])
  = ReportMetrics.addWeekday (ReportMetrics.getDay tz t) (net_profit t)
                             (ReportMetrics.weekdayMap tz ts).
Proof. unfold ReportMetrics.weekdayMap. rewrite fold_left_app. reflexivity. Qed.

Lemma weekdayMap_spec (tz i : Z) (ts : list Trade) :
  match ReportMetrics.lookupWeekday i (ReportMetrics.weekdayMap tz ts) with
  | Some e =>
      ReportMetrics.w_count e = List.length (onWeekday tz i ts)
      /\ ReportMetrics.w_profit e == sum_net_profit (onWeekday tz i ts)
  | None => onWeekday tz i ts = []
  end.
Proof.
  revert i. induction ts as [|t ts IH] using rev_ind; intro i.
  - reflexivity.
  - rewrite weekdayMap_snoc, lookup_addWeekday.
    unfold onWeekday in *. rewrite filter_app. cbn [filter].
    rewrite (Z.eqb_sym _ i).
    destruct (i =? ReportMetrics.getDay tz t)%Z eqn:E.
    + apply Z.eqb_eq in E. subst i.
      specialize (IH (ReportMetrics.getDay tz t)).
      rewrite length_app, sum_net_profit_app, sum_net_profit_cons.
      change (sum_net_profit []) with 0. cbn [List.length].
      destruct (ReportMetrics.lookupWeekday _ _) as [e|].
      * destruct IH as [Hc Hp]. cbn [ReportMetrics.w_count ReportMetrics.w_profit].
        split; [lia|]. rewrite Hp. lra.
      * rewrite IH. cbn [ReportMetrics.w_count ReportMetrics.w_profit].
        split; [reflexivity|]. change (sum_net_profit []) with 0. lra.
    + specialize (IH i). rewrite app_nil_r.
      destruct (ReportMetrics.lookupWeekday _ _) as [e|]; exact IH.
Qed.

Lemma weekdayRow_spec (tz i : Z) (ts : list Trade) :
  let r := ReportMetrics.weekdayRow (ReportMetrics.weekdayMap tz ts) i in
  ReportMetrics.day r = i
  /\ ReportMetrics.count r = List.length (onWeekday tz i ts)
  /\ ReportMetrics.profit r == sum_net_profit (onWeekday tz i ts).
Proof.
  unfold ReportMetrics.weekdayRow.
  pose proof (weekdayMap_spec tz i ts) as H.
  destruct (ReportMetrics.lookupWeekday _ _) as [e|]; cbn.
  - destruct H as [Hc Hp]. rewrite or_zero_eq. tauto.
  - rewrite H. repeat split; reflexivity.
Qed.

Lemma getDay_range (tz : Z) (t : Trade) :
  (0 <= ReportMetrics.getDay tz t < 7)%Z.
Proof. unfold ReportMetrics.getDay. apply Z.mod_pos_bound. lia. Qed.

Lemma getDay_cases (tz : Z) (t : Trade) :
  let g := ReportMetrics.getDay tz t in
  (g = 0 \/ g = 1 \/ g = 2 \/ g = 3 \/ g = 4 \/ g = 5 \/ g = 6)%Z.
Proof. pose proof (getDay_range tz t). cbv zeta. lia. Qed.

Lemma weekday_counts_total (tz : Z) (ts : list Trade) :
  list_sum (map (fun i => List.length (onWeekday tz i ts)) weekdayIndices)
  = List.length ts.
Proof.
  unfold weekdayIndices, onWeekday, list_sum. cbn [map fold_right].
  induction ts as [|t ts IH]; [reflexivity|].
  cbn [filter List.length].
  destruct (getDay_cases tz t) as [->|[->|[->|[->|[->|[->| ->]]]]]]; cbn [Z.eqb Pos.eqb];
    cbn [List.length]; lia.
Qed.

Lemma weekday_profits_total (tz : Z) (ts : list Trade) :
  fold_right (fun i s => sum_net_profit (onWeekday tz i ts) + s) 0
             weekdayIndices
  == sum_net_profit ts.
Proof.
  unfold weekdayIndices, onWeekday. cbn [fold_right].
  induction ts as [|t ts IH]; [reflexivity|].
  cbn [filter]. rewrite sum_net_profit_cons, <- IH.
  destruct (getDay_cases tz t) as [->|[->|[->|[->|[->|[->| ->]]]]]]; cbn [Z.eqb Pos.eqb];
    rewrite sum_net_profit_cons; lra.
Qed.

(** X7.  [weekdayPnL] has one row per weekday, Sunday first, unless there
    is no trade.  The row of a weekday counts the trades closed on that
    weekday in local time and carries the sum of their net profits; every
    trade is counted in exactly one row, so the counts add up to the number
    of trades and the profits to the net profit of all trades. *)
Theorem weekdayPnL_counts_each_trade_once (tz : Z) (trades : list Trade) :
  (trades <> [] ->
   map ReportMetrics.day (ReportMetrics.weekdayPnL tz trades)
   = [0; 1; 2; 3; 4; 5; 6]%Z)
  /\ (forall r, In r (ReportMetrics.weekdayPnL tz trades) ->
        ReportMetrics.count r
        = List.length (onWeekday tz (ReportMetrics.day r) trades)
        /\ ReportMetrics.profit r
           == sum_net_profit (onWeekday tz (ReportMetrics.day r) trades))
  /\ list_sum (map ReportMetrics.count (ReportMetrics.weekdayPnL tz trades))
     = List.length trades
  /\ fold_right (fun r s => ReportMetrics.profit r + s) 0
                (ReportMetrics.weekdayPnL tz trades)
     == sum_net_profit trades.
Proof.
  destruct trades as [|t ts].
  - split; [congruence|]. split; [intros r []|]. split; reflexivity.
  - set (trades := t :: ts).
    change (ReportMetrics.weekdayPnL tz trades)
      with (map (ReportMetrics.weekdayRow (ReportMetrics.weekdayMap tz trades))
                weekdayIndices).
    split; [|split; [|split]].
    + intros _. rewrite map_map.
      rewrite (map_ext _ (fun i => i)); [apply map_id|].
      intro i. apply weekdayRow_spec.
    + intros r Hr. apply in_map_iff in Hr. destruct Hr as (i & <- & _).
      destruct (weekdayRow_spec tz i trades) as (Hd & Hc & Hp).
      rewrite Hd. split; assumption.
    + rewrite map_map. rewrite <- (weekday_counts_total tz trades).
      f_equal. apply map_ext. intro i. apply weekdayRow_spec.
    + rewrite <- (weekday_profits_total tz trades).
      unfold weekdayIndices. cbn [map fold_right].
      repeat match goal with
             | |- context [ReportMetrics.profit
                             (ReportMetrics.weekdayRow _ ?i)] =>
                 let H := fresh in
                 destruct (weekdayRow_spec tz i trades) as (_ & _ & H);
                 rewrite H; clear H
             end.
      reflexivity.
Qed.

(** ** TradingReport: the estimated excursions and the streak lengths *)

(** X8.  In [maeMfeData] the closing P/L of every trade lies between its
    estimated adverse and favourable excursions: [mae <= profit <= mfe],
    with [mae <= 0 <= mfe]; a loser's [mae] is its loss and a winner's
    [mfe] is its profit. *)
Theorem maeMfeData_brackets_profit (trades : list Trade) :
  map ReportMetrics.e_profit (ReportMetrics.maeMfeData trades)
  = map net_profit trades
  /\ Forall (fun e =>
               ReportMetrics.mae e <= ReportMetrics.e_profit e
               /\ ReportMetrics.e_profit e <= ReportMetrics.mfe e
               /\ ReportMetrics.mae e <= 0
               /\ 0 <= ReportMetrics.mfe e
               /\ (ReportMetrics.e_profit e < 0 ->
                   ReportMetrics.mae e == ReportMetrics.e_profit e)
               /\ (0 < ReportMetrics.e_profit e ->
                   ReportMetrics.mfe e == ReportMetrics.e_profit e))
            (ReportMetrics.maeMfeData trades).
Proof.
  unfold ReportMetrics.maeMfeData. split.
  - rewrite map_map. reflexivity.
  - apply Forall_map, Forall_forall. intros t _.
    cbn [ReportMetrics.mae ReportMetrics.mfe ReportMetrics.e_profit].
    set (p := net_profit t).
    destruct (Qlt_le_dec p 0) as [Hn|Hp].
    + assert (Ha : Qabs p == - p) by (apply Qabs_neg; lra).
      rewrite Ha.
      destruct (Qltb p 0) eqn:E1; destruct (Qgtb p 0) eqn:E2; qcases;
        repeat split; intros; lra.
    + assert (Ha : Qabs p == p) by (apply Qabs_pos; exact Hp).
      rewrite Ha.
      destruct (Qltb p 0) eqn:E1; destruct (Qgtb p 0) eqn:E2; qcases;
        repeat split; intros; lra.
Qed.

Lemma run_prefix_le_filter {A} (p : A -> bool) (l : list A) :
  (StreakSpec.run_prefix p l <= List.length (filter p l))%nat.
Proof.
  induction l as [|x l IH]; cbn [StreakSpec.run_prefix filter]; [lia|].
  destruct (p x); cbn [List.length]; lia.
Qed.

Lemma longest_run_le_filter {A} (p : A -> bool) (l : list A) :
  (StreakSpec.longest_run p l <= List.length (filter p l))%nat.
Proof.
  induction l as [|x l IH]; [cbn; lia|].
  pose proof (run_prefix_le_filter p (x :: l)) as Hr.
  cbn [StreakSpec.longest_run]. cbn [filter] in *.
  destruct (p x); cbn [List.length] in *; lia.
Qed.

Lemma longest_run_pos {A} (p : A -> bool) (l : list A) (x : A) :
  In x l -> p x = true -> (1 <= StreakSpec.longest_run p l)%nat.
Proof.
  induction l as [|y l IH]; intros Hin Hp; [contradiction|].
  cbn [StreakSpec.longest_run StreakSpec.run_prefix].
  destruct Hin as [->|Hin].
  - rewrite Hp. lia.
  - specialize (IH Hin Hp). lia.
Qed.

(** The two streak lengths as runs in the time-ordered list. *)
Lemma streak_lengths_runs (trades : list Trade) :
  TradingReport.consecutiveWins (TradingReport.streaks trades)
  = StreakSpec.longest_run TradingReport.isWin (sortByTime trades)
  /\ TradingReport.consecutiveLosses (TradingReport.streaks trades)
     = StreakSpec.longest_run notWin (sortByTime trades).
Proof.
  assert (F : fresh_ok TradingReport.streak_init) by (intro; reflexivity).
  destruct trades as [|t ts]; [split; reflexivity|].
  unfold TradingReport.streaks, TradingReport.streak_pass.
  cbn [TradingReport.consecutiveWins TradingReport.consecutiveLosses].
  rewrite (streak_wins_from _ _ F), (streak_losses_from _ _ F).
  pose proof (run_prefix_le_longest TradingReport.isWin (sortByTime (t :: ts))).
  pose proof (run_prefix_le_longest notWin (sortByTime (t :: ts))).
  unfold carryW, carryL, TradingReport.streak_init.
  cbn [TradingReport.truthy TradingReport.lastWasWin negb
       TradingReport.maxWinStreak TradingReport.maxLossStreak
       TradingReport.currentStreak].
  split; lia.
Qed.

Lemma filter_length_perm {A} (p : A -> bool) (l l' : list A) :
  Permutation l l' -> List.length (filter p l) = List.length (filter p l').
Proof.
  induction 1; cbn [filter].
  - reflexivity.
  - destruct (p x); cbn [List.length]; lia.
  - destruct (p x), (p y); reflexivity.
  - lia.
Qed.

Lemma filter_complement_length {A} (p : A -> bool) (l : list A) :
  (List.length (filter p l) + List.length (filter (fun x => negb (p x)) l)
   = List.length l)%nat.
Proof.
  induction l as [|x l IH]; [reflexivity|].
  cbn [filter]. destruct (p x); cbn [negb List.length]; lia.
Qed.

(** X9.  The longest winning streak is no longer than the number of
    winning trades and the longest losing streak no longer than the number
    of trades that did not win, so the two together never exceed the number
    of trades; with at least one trade, one of them is at least 1. *)
Theorem streak_lengths_bounded_by_counts (trades : list Trade) :
  (TradingReport.consecutiveWins (TradingReport.streaks trades)
   <= List.length (wins trades))%nat
  /\ (TradingReport.consecutiveLosses (TradingReport.streaks trades)
      <= List.length trades - List.length (wins trades))%nat
  /\ (trades <> [] ->
      1 <= TradingReport.consecutiveWins (TradingReport.streaks trades)
           + TradingReport.consecutiveLosses (TradingReport.streaks trades))%nat.
Proof.
  destruct (streak_lengths_runs trades) as [-> ->].
  pose proof (sortByTime_perm trades) as P.
  pose proof (filter_complement_length TradingReport.isWin trades) as Hc.
  split; [|split].
  - unfold wins. rewrite (filter_length_perm _ _ _ P).
    apply longest_run_le_filter.
  - pose proof (longest_run_le_filter notWin (sortByTime trades)) as H.
    rewrite <- (filter_length_perm _ _ _ P) in H.
    unfold wins, notWin in *. unfold TradingReport.isWin in *. lia.
  - intro Hne. destruct trades as [|t ts]; [congruence|].
    assert (Hin : In t (sortByTime (t :: ts)))
      by (eapply Permutation_in; [exact P|left; reflexivity]).
    destruct (TradingReport.isWin t) eqn:E.
    + pose proof (longest_run_pos TradingReport.isWin _ t Hin E). lia.
    + assert (E' : notWin t = true) by (unfold notWin; rewrite E; reflexivity).
      pose proof (longest_run_pos notWin _ t Hin E'). lia.
Qed.

(** ** RiskOfRuin: the longest losing streak of the history *)

Lemma maxConsLosses_from (ts : list Trade) (m c : nat) :
  (c <= m)%nat ->
  fst (fold_left RiskHistory.step ts (m, c))
  = Nat.max m (Nat.max (c + StreakSpec.run_prefix RiskOfRuin.isLoss ts)
                       (StreakSpec.longest_run RiskOfRuin.isLoss ts)).
Proof.
  revert m c. induction ts as [|t ts IH]; intros m c Hc.
  - cbn. lia.
  - cbn [fold_left StreakSpec.run_prefix StreakSpec.longest_run].
    pose proof (run_prefix_le_longest RiskOfRuin.isLoss ts) as Hr.
    unfold RiskHistory.step at 2. unfold RiskOfRuin.isLoss at 1 3.
    cbn [fst snd].
    destruct (Qltb (net_profit t) 0).
    + rewrite IH by lia. lia.
    + rewrite IH by lia. lia.
Qed.

(** X10.  RiskOfRuin's [maxConsecutiveLosses] is the length of the longest
    run of trades with a negative net profit, in the order the trades are
    listed (the list is not sorted first); a zero-profit trade ends the
    run. *)
Theorem maxConsecutiveLosses_is_longest_losing_run (trades : list Trade) :
  RiskHistory.maxConsecutiveLosses trades
  = StreakSpec.longest_run RiskOfRuin.isLoss trades
  /\ (RiskHistory.maxConsecutiveLosses trades
      <= List.length (losses trades))%nat.
Proof.
  assert (E : RiskHistory.maxConsecutiveLosses trades
              = StreakSpec.longest_run RiskOfRuin.isLoss trades).
  { destruct trades as [|t ts]; [reflexivity|].
    unfold RiskHistory.maxConsecutiveLosses.
    rewrite maxConsLosses_from by lia.
    pose proof (run_prefix_le_longest RiskOfRuin.isLoss (t :: ts)). lia. }
  split; [exact E|].
  rewrite E. apply (longest_run_le_filter RiskOfRuin.isLoss).
Qed.

Lemma run_prefix_mono {A} (p q : A -> bool) (l : list A) :
  (forall x, In x l -> p x = true -> q x = true) ->
  (StreakSpec.run_prefix p l <= StreakSpec.run_prefix q l)%nat.
Proof.
  induction l as [|x l IH]; intro H; cbn [StreakSpec.run_prefix]; [lia|].
  destruct (p x) eqn:E; [|lia].
  rewrite (H x (or_introl eq_refl) E).
  assert (StreakSpec.run_prefix p l <= StreakSpec.run_prefix q l)%nat
    by (apply IH; intros y Hy; apply H; right; exact Hy).
  lia.
Qed.

Lemma longest_run_mono {A} (p q : A -> bool) (l : list A) :
  (forall x, In x l -> p x = true -> q x = true) ->
  (StreakSpec.longest_run p l <= StreakSpec.longest_run q l)%nat.
Proof.
  induction l as [|x l IH]; intro H; [cbn; lia|].
  pose proof (run_prefix_mono p q (x :: l) H) as Hr.
  assert (StreakSpec.longest_run p l <= StreakSpec.longest_run q l)%nat
    by (apply IH; intros y Hy; apply H; right; exact Hy).
  cbn [StreakSpec.longest_run]. lia.
Qed.

(** X11.  On a trade list that is already in time order, the longest
    losing streak RiskOfRuin reports never exceeds the one TradingReport
    reports (which also counts zero-profit trades); the two agree when no
    trade has a zero net profit. *)
Theorem losing_streaks_of_the_two_components (trades : list Trade) :
  inTimeOrder trades = true ->
  (RiskHistory.maxConsecutiveLosses trades
   <= TradingReport.consecutiveLosses (TradingReport.streaks trades))%nat
  /\ (forallb (fun t => negb (Qeq_bool (net_profit t) 0)) trades = true ->
      RiskHistory.maxConsecutiveLosses trades
      = TradingReport.consecutiveLosses (TradingReport.streaks trades)).
Proof.
  intro Hord.
  destruct (streak_lengths_runs trades) as [_ ->].
  rewrite (sortByTime_inTimeOrder trades Hord).
  assert (E : RiskHistory.maxConsecutiveLosses trades
              = StreakSpec.longest_run RiskOfRuin.isLoss trades).
  { destruct trades as [|t ts]; [reflexivity|].
    unfold RiskHistory.maxConsecutiveLosses.
    rewrite maxConsLosses_from by lia.
    pose proof (run_prefix_le_longest RiskOfRuin.isLoss (t :: ts)). lia. }
  rewrite E.
  assert (Hle : forall x, In x trades ->
                  RiskOfRuin.isLoss x = true -> notWin x = true).
  { intros x _. unfold RiskOfRuin.isLoss, notWin, TradingReport.isWin.
    intro H. destruct (Qgtb (net_profit x) 0) eqn:G; [|reflexivity].
    qcases. lra. }
  split; [apply longest_run_mono, Hle|].
  intro Hnz. apply Nat.le_antisymm; [apply longest_run_mono, Hle|].
  apply longest_run_mono. intros x Hx.
  rewrite forallb_forall in Hnz. specialize (Hnz x Hx).
  unfold RiskOfRuin.isLoss, notWin, TradingReport.isWin. intro H.
  destruct (Qgtb (net_profit x) 0) eqn:G; [discriminate|].
  destruct (Qeq_bool (net_profit x) 0) eqn:Z0; [discriminate|].
  qcases. apply Qltb_lt. lra.
Qed.

Lemma losing_streaks_of_the_two_components_witness :
  (RiskHistory.maxConsecutiveLosses scenarioD
   <= TradingReport.consecutiveLosses (TradingReport.streaks scenarioD))%nat
  /\ (forallb (fun t => negb (Qeq_bool (net_profit t) 0)) scenarioD = true ->
      RiskHistory.maxConsecutiveLosses scenarioD
      = TradingReport.consecutiveLosses (TradingReport.streaks scenarioD)).
Proof.
  apply (losing_streaks_of_the_two_components scenarioD). reflexivity.
Defined.

(** ** HourlyChart *)

Lemma hourOf_range (timezoneOffset : Z) (t : Trade) :
  (0 <= HourlyChart.hourOf timezoneOffset t < 24)%Z.
Proof.
  unfold HourlyChart.hourOf.
  set (a := (HourlyChart.getUTCHours t + timezoneOffset)%Z).
  pose proof (Z.rem_bound_abs a 24 ltac:(lia)) as Hb.
  destruct (Z.rem a 24 <? 0)%Z eqn:E;
    [apply Z.ltb_lt in E|apply Z.ltb_ge in E]; lia.
Qed.

Lemma update_map_seq (g : nat -> HourlyChart.HourData)
      (f : HourlyChart.HourData -> HourlyChart.HourData) (n a k : nat) :
  (k < n)%nat ->
  HourlyChart.update k f (map g (seq a n))
  = Some (map (fun i => if (i =? a + k)%nat then f (g i) else g i) (seq a n)).
Proof.
  revert a k. induction n as [|n IH]; intros a k Hk; [lia|].
  cbn [seq map]. destruct k as [|k]; cbn [HourlyChart.update].
  - rewrite Nat.add_0_r, Nat.eqb_refl. do 2 f_equal.
    apply map_ext_in. intros i Hi. apply in_seq in Hi.
    destruct (Nat.eqb_spec i a); [lia|reflexivity].
  - rewrite (IH (S a) k) by lia.
    destruct (Nat.eqb_spec a (a + S k)); [lia|].
    do 2 f_equal. apply map_ext. intro i.
    replace (S a + k)%nat with (a + S k)%nat by lia. reflexivity.
Qed.

Lemma inHour_snoc (timezoneOffset i : Z) (ts : list Trade) (t : Trade) :
  inHour timezoneOffset i (ts ++ [t])
  = inHour timezoneOffset i ts
    ++ (if (HourlyChart.hourOf timezoneOffset t =? i)%Z then [t] else []).
Proof. unfold inHour. rewrite filter_app. reflexivity. Qed.

Lemma hourRow_snoc (timezoneOffset : Z) (ts : list Trade) (t : Trade)
      (i : nat) :
  hourRow timezoneOffset (ts ++ [t]) i
  = if (i =? Z.to_nat (HourlyChart.hourOf timezoneOffset t))%nat
    then HourlyChart.record t (hourRow timezoneOffset ts i)
    else hourRow timezoneOffset ts i.
Proof.
  pose proof (hourOf_range timezoneOffset t) as Hr.
  unfold hourRow. cbv zeta. rewrite inHour_snoc.
  destruct (Nat.eqb_spec i (Z.to_nat (HourlyChart.hourOf timezoneOffset t)))
    as [E|E].
  - assert (E' : HourlyChart.hourOf timezoneOffset t = Z.of_nat i) by lia.
    rewrite E', Z.eqb_refl.
    unfold HourlyChart.record, wins, losses, sum_net_profit.
    cbn [HourlyChart.hour HourlyChart.winners HourlyChart.losers
         HourlyChart.total HourlyChart.netProfit].
    rewrite !filter_app, !length_app, fold_left_app. cbn [filter fold_left].
    f_equal.
    + destruct (Qgtb (net_profit t) 0); cbn [List.length]; lia.
    + destruct (Qgtb (net_profit t) 0) eqn:G;
        destruct (Qltb (net_profit t) 0) eqn:L; cbn [List.length];
        try lia.
      exfalso. qcases. lra.
    + cbn [List.length]. lia.
  - assert (E' : (HourlyChart.hourOf timezoneOffset t =? Z.of_nat i)%Z = false)
      by (apply Z.eqb_neq; lia).
    rewrite E', app_nil_r. reflexivity.
Qed.

Lemma hours_spec (timezoneOffset : Z) (trades : list Trade) :
  HourlyChart.hours timezoneOffset trades
  = Some (map (hourRow timezoneOffset trades) (seq 0 24)).
Proof.
  induction trades as [|t ts IH] using rev_ind.
  - reflexivity.
  - unfold HourlyChart.hours in *. rewrite fold_left_app, IH.
    cbn [fold_left HourlyChart.step].
    pose proof (hourOf_range timezoneOffset t) as Hr.
    destruct (HourlyChart.hourOf timezoneOffset t <? 0)%Z eqn:E;
      [apply Z.ltb_lt in E; lia|].
    rewrite update_map_seq by lia.
    f_equal. apply map_ext. intro i. rewrite hourRow_snoc. reflexivity.
Qed.

(** X12.  [hourlyData] never fails: for every integer [timezoneOffset],
    negative ones included, the hour index stays within the 24 rows.  The
    result is, in hour order, the rows of the hours in which a trade closed,
    each with the number of its trades, of its winners and of its losers and
    with the sum of their net profits. *)
Theorem hourlyData_rows (timezoneOffset : Z) (trades : list Trade) :
  HourlyChart.hourlyData timezoneOffset trades
  = Some (filter (fun h => (0 <? HourlyChart.total h)%nat)
                 (map (hourRow timezoneOffset trades) (seq 0 24)))
  /\ forall t, In t trades ->
       (0 <= HourlyChart.hourOf timezoneOffset t < 24)%Z
       /\ In (hourRow timezoneOffset trades
                      (Z.to_nat (HourlyChart.hourOf timezoneOffset t)))
             (filter (fun h => (0 <? HourlyChart.total h)%nat)
                     (map (hourRow timezoneOffset trades) (seq 0 24))).
Proof.
  split.
  - unfold HourlyChart.hourlyData. rewrite hours_spec. reflexivity.
  - intros t Ht. pose proof (hourOf_range timezoneOffset t) as Hr.
    split; [exact Hr|]. apply filter_In. split.
    + apply in_map, in_seq. lia.
    + unfold hourRow. cbn [HourlyChart.total]. apply Nat.ltb_lt.
      assert (Hin : In t (inHour timezoneOffset
                            (Z.of_nat (Z.to_nat
                               (HourlyChart.hourOf timezoneOffset t))) trades)).
      { apply filter_In. split; [exact Ht|]. apply Z.eqb_eq. lia. }
      destruct (inHour _ _ _); [contradiction|cbn; lia].
Qed.

Lemma filter_split_length {A} (p q r : A -> bool) (l : list A) :
  (forall x, r x = p x || q x) -> (forall x, p x && q x = false) ->
  List.length (filter r l)
  = (List.length (filter p l) + List.length (filter q l))%nat.
Proof.
  intros Hr Hd. induction l as [|x l IH]; [reflexivity|].
  cbn [filter]. rewrite (Hr x). specialize (Hd x).
  destruct (p x), (q x); cbn [orb List.length]; try discriminate; lia.
Qed.

Lemma filter_split_sum (p q r : Trade -> bool) (l : list Trade) :
  (forall x, r x = p x || q x) -> (forall x, p x && q x = false) ->
  sum_net_profit (filter r l)
  == sum_net_profit (filter p l) + sum_net_profit (filter q l).
Proof.
  intros Hr Hd. induction l as [|x l IH]; [reflexivity|].
  cbn [filter]. rewrite (Hr x). specialize (Hd x).
  destruct (p x), (q x); cbn [orb]; try discriminate;
    rewrite ?sum_net_profit_cons, IH; lra.
Qed.

Lemma below_split (timezoneOffset : Z) (n : nat) (t : Trade) :
  (HourlyChart.hourOf timezoneOffset t <? Z.of_nat (S n))%Z
  = (HourlyChart.hourOf timezoneOffset t <? Z.of_nat n)%Z
    || (HourlyChart.hourOf timezoneOffset t =? Z.of_nat n)%Z.
Proof.
  destruct (Z.ltb_spec (HourlyChart.hourOf timezoneOffset t) (Z.of_nat (S n)));
    destruct (Z.ltb_spec (HourlyChart.hourOf timezoneOffset t) (Z.of_nat n));
    destruct (Z.eqb_spec (HourlyChart.hourOf timezoneOffset t) (Z.of_nat n));
    cbn [orb]; try reflexivity; lia.
Qed.

Lemma below_disjoint (timezoneOffset : Z) (n : nat) (t : Trade) :
  (HourlyChart.hourOf timezoneOffset t <? Z.of_nat n)%Z
  && (HourlyChart.hourOf timezoneOffset t =? Z.of_nat n)%Z = false.
Proof.
  destruct (Z.ltb_spec (HourlyChart.hourOf timezoneOffset t) (Z.of_nat n));
    destruct (Z.eqb_spec (HourlyChart.hourOf timezoneOffset t) (Z.of_nat n));
    cbn [andb]; try reflexivity; lia.
Qed.

Lemma hours_partition_count (timezoneOffset : Z) (ts : list Trade) (n : nat) :
  list_sum (map (fun i => List.length (inHour timezoneOffset (Z.of_nat i) ts))
                (seq 0 n))
  = List.length
      (filter (fun t => (HourlyChart.hourOf timezoneOffset t <? Z.of_nat n)%Z)
              ts).
Proof.
  induction n as [|n IH].
  - cbn [seq map list_sum fold_right].
    induction ts as [|t ts IHts]; [reflexivity|]. cbn [filter].
    pose proof (hourOf_range timezoneOffset t).
    destruct (Z.ltb_spec (HourlyChart.hourOf timezoneOffset t) (Z.of_nat 0));
      [lia|exact IHts].
  - rewrite seq_S, map_app, list_sum_app, IH. cbn [map list_sum fold_right].
    rewrite (filter_split_length _ _ _ ts (below_split timezoneOffset n)
               (below_disjoint timezoneOffset n)).
    unfold inHour. cbn [Nat.add]. lia.
Qed.

Lemma hours_partition_sum (timezoneOffset : Z) (ts : list Trade) (n : nat) :
  fold_right (fun i s => sum_net_profit (inHour timezoneOffset (Z.of_nat i) ts)
                         + s) 0 (seq 0 n)
  == sum_net_profit
       (filter (fun t => (HourlyChart.hourOf timezoneOffset t <? Z.of_nat n)%Z)
               ts).
Proof.
  induction n as [|n IH].
  - cbn [seq fold_right].
    induction ts as [|t ts IHts]; [reflexivity|]. cbn [filter].
    pose proof (hourOf_range timezoneOffset t).
    destruct (Z.ltb_spec (HourlyChart.hourOf timezoneOffset t) (Z.of_nat 0));
      [lia|exact IHts].
  - rewrite seq_S, fold_right_app. cbn [fold_right Nat.add].
    rewrite (filter_split_sum _ _ _ ts (below_split timezoneOffset n)
               (below_disjoint timezoneOffset n)).
    rewrite <- IH. unfold inHour.
    generalize (sum_net_profit
                  (filter (fun t => (HourlyChart.hourOf timezoneOffset t
                                     =? Z.of_nat n)%Z) ts)).
    intro q. clear IH. induction (seq 0 n) as [|i l IHl]; cbn [fold_right].
    + lra.
    + rewrite IHl. lra.
Qed.

Lemma all_hours_below_24 (timezoneOffset : Z) (ts : list Trade) :
  filter (fun t => (HourlyChart.hourOf timezoneOffset t <? Z.of_nat 24)%Z) ts
  = ts.
Proof.
  induction ts as [|t ts IH]; [reflexivity|]. cbn [filter].
  pose proof (hourOf_range timezoneOffset t).
  destruct (Z.ltb_spec (HourlyChart.hourOf timezoneOffset t) (Z.of_nat 24));
    [rewrite IH; reflexivity|lia].
Qed.

Lemma filter_comm {A} (p q : A -> bool) (l : list A) :
  filter p (filter q l) = filter q (filter p l).
Proof.
  induction l as [|x l IH]; [reflexivity|]. cbn [filter].
  destruct (p x) eqn:P, (q x) eqn:Q'; cbn [filter]; rewrite ?P, ?Q', IH;
    reflexivity.
Qed.

Lemma list_sum_filter_zero {A} (f : A -> nat) (p : A -> bool) (l : list A) :
  (forall x, In x l -> p x = false -> f x = 0%nat) ->
  list_sum (map f (filter p l)) = list_sum (map f l).
Proof.
  induction l as [|x l IH]; intro H; [reflexivity|]. cbn [filter map].
  assert (IH' : list_sum (map f (filter p l)) = list_sum (map f l))
    by (apply IH; intros y Hy; apply H; right; exact Hy).
  destruct (p x) eqn:P; cbn [map list_sum fold_right] in *.
  - unfold list_sum in *. cbn [fold_right]. lia.
  - unfold list_sum in *. cbn [fold_right].
    rewrite (H x (or_introl eq_refl) P). lia.
Qed.

Lemma wins_losses_le (l : list Trade) :
  (List.length (wins l) + List.length (losses l) <= List.length l)%nat.
Proof.
  unfold wins, losses. induction l as [|t l IH]; [cbn; lia|].
  cbn [filter].
  destruct (Qgtb (net_profit t) 0) eqn:G, (Qltb (net_profit t) 0) eqn:L;
    cbn [List.length]; try lia.
  exfalso. qcases. lra.
Qed.

(** X13.  Every trade is counted in exactly one row of the hourly chart:
    over the rows shown, the totals add up to the number of trades, the
    winners to the number of winning trades, the losers to the number of
    losing trades and the net profits to the net profit of all trades; each
    row shown has at least one trade, and its winners and losers together
    do not exceed its total. *)
Theorem hourlyData_counts_each_trade_once
        (timezoneOffset : Z) (trades : list Trade) :
  exists rows,
    HourlyChart.hourlyData timezoneOffset trades = Some rows
    /\ list_sum (map HourlyChart.total rows) = List.length trades
    /\ list_sum (map HourlyChart.winners rows) = List.length (wins trades)
    /\ list_sum (map HourlyChart.losers rows) = List.length (losses trades)
    /\ fold_right (fun h s => HourlyChart.netProfit h + s) 0 rows
       == sum_net_profit trades
    /\ Forall (fun h => (0 < HourlyChart.total h)%nat
                        /\ (HourlyChart.winners h + HourlyChart.losers h
                            <= HourlyChart.total h)%nat) rows.
Proof.
  eexists. split.
  { unfold HourlyChart.hourlyData. rewrite hours_spec. reflexivity. }
  set (all := map (hourRow timezoneOffset trades) (seq 0 24)).
  assert (Hempty : forall h, In h all ->
            (0 <? HourlyChart.total h)%nat = false ->
            HourlyChart.total h = 0%nat /\ HourlyChart.winners h = 0%nat
            /\ HourlyChart.losers h = 0%nat /\ HourlyChart.netProfit h = 0).
  { intros h Hh Hz. apply in_map_iff in Hh. destruct Hh as (i & <- & _).
    apply Nat.ltb_ge in Hz. unfold hourRow in *.
    cbn [HourlyChart.total HourlyChart.winners HourlyChart.losers
         HourlyChart.netProfit] in *.
    destruct (inHour timezoneOffset (Z.of_nat i) trades);
      [repeat split; reflexivity|cbn [List.length] in Hz; lia]. }
  split; [|split; [|split; [|split]]].
  - rewrite list_sum_filter_zero by (intros h Hh Hz; apply Hempty; assumption).
    unfold all. rewrite map_map.
    etransitivity;
      [|apply (f_equal (@List.length Trade)),
               (all_hours_below_24 timezoneOffset trades)].
    rewrite <- hours_partition_count. reflexivity.
  - rewrite list_sum_filter_zero by (intros h Hh Hz; apply Hempty; assumption).
    unfold all. rewrite map_map.
    etransitivity;
      [|apply (f_equal (@List.length Trade)),
               (all_hours_below_24 timezoneOffset (wins trades))].
    rewrite <- hours_partition_count.
    f_equal. apply map_ext. intro i. unfold hourRow.
    cbn [HourlyChart.winners]. unfold wins, inHour.
    rewrite filter_comm. reflexivity.
  - rewrite list_sum_filter_zero by (intros h Hh Hz; apply Hempty; assumption).
    unfold all. rewrite map_map.
    etransitivity;
      [|apply (f_equal (@List.length Trade)),
               (all_hours_below_24 timezoneOffset (losses trades))].
    rewrite <- hours_partition_count.
    f_equal. apply map_ext. intro i. unfold hourRow.
    cbn [HourlyChart.losers]. unfold losses, inHour.
    rewrite filter_comm. reflexivity.
  - assert (E : sum_net_profit trades
                = sum_net_profit
                    (filter (fun t => (HourlyChart.hourOf timezoneOffset t
                                       <? Z.of_nat 24)%Z) trades))
      by (rewrite all_hours_below_24; reflexivity).
    rewrite E, <- hours_partition_sum. clear E.
    assert (Hall : forall l,
              (forall h, In h l -> (0 <? HourlyChart.total h)%nat = false ->
                         HourlyChart.netProfit h = 0) ->
              fold_right (fun h s => HourlyChart.netProfit h + s) 0
                         (filter (fun h => (0 <? HourlyChart.total h)%nat) l)
              == fold_right (fun h s => HourlyChart.netProfit h + s) 0 l).
    { induction l as [|h l IH]; intro H; [reflexivity|]. cbn [filter].
      assert (IH' := IH (fun y Hy => H y (or_intror Hy))).
      destruct (0 <? HourlyChart.total h)%nat eqn:P; cbn [fold_right].
      - rewrite IH'. reflexivity.
      - rewrite IH', (H h (or_introl eq_refl) P). lra. }
    rewrite Hall by (intros h Hh Hz; apply Hempty; assumption).
    unfold all. clear. induction (seq 0 24) as [|i l IH]; [reflexivity|].
    cbn [map fold_right]. rewrite IH. reflexivity.
  - apply Forall_forall. intros h Hh. apply filter_In in Hh.
    destruct Hh as [Hh Hpos]. apply Nat.ltb_lt in Hpos. split; [exact Hpos|].
    apply in_map_iff in Hh. destruct Hh as (i & <- & _). unfold hourRow.
    cbn [HourlyChart.total HourlyChart.winners HourlyChart.losers].
    apply wins_losses_le.
Qed.

(** ** DailyStats and PeriodsComparison *)

(** An instant falls on the local day that starts at [q] days after the
    epoch exactly when it lies in the 24 hours from that midnight on. *)
Lemma midnight_window (h : PeriodsComparison.Host) (x q : Z) :
  let start := (q * PeriodsComparison.day_ms - PeriodsComparison.tz h)%Z in
  (DailyStats.midnight h x =? start)%Z
  = (start <=? x)%Z && (x <? start + PeriodsComparison.day_ms)%Z.
Proof.
  unfold DailyStats.midnight, PeriodsComparison.day_ms. cbv zeta.
  set (tz := PeriodsComparison.tz h).
  destruct (Z.eqb_spec ((x + tz) / 86400000 * 86400000 - tz)
                       (q * 86400000 - tz)) as [E|E];
    destruct (Z.leb_spec (q * 86400000 - tz) x) as [L|L];
    destruct (Z.ltb_spec x (q * 86400000 - tz + 86400000)) as [U|U];
    cbn [andb]; try reflexivity; exfalso;
    pose proof (Z.div_mod (x + tz) 86400000 ltac:(lia));
    pose proof (Z.mod_pos_bound (x + tz) 86400000 ltac:(lia)); lia.
Qed.

Lemma todaysTrades_window (h : PeriodsComparison.Host) (trades : list Trade) :
  DailyStats.todaysTrades h trades
  = filter (fun t => (PeriodsComparison.today h <=? time t)%Z
                     && (time t <? PeriodsComparison.today h
                                   + PeriodsComparison.day_ms)%Z) trades.
Proof.
  unfold DailyStats.todaysTrades. apply filter_ext. intro t.
  apply (midnight_window h (time t)
           ((PeriodsComparison.clock h + PeriodsComparison.tz h)
            / PeriodsComparison.day_ms)).
Qed.

Lemma yesterdaysTrades_window (h : PeriodsComparison.Host)
      (trades : list Trade) :
  DailyStats.yesterdaysTrades h trades
  = filter (fun t => (PeriodsComparison.today h - PeriodsComparison.day_ms
                      <=? time t)%Z
                     && (time t <? PeriodsComparison.today h)%Z) trades.
Proof.
  unfold DailyStats.yesterdaysTrades. apply filter_ext. intro t.
  pose proof (midnight_window h (time t)
                ((PeriodsComparison.clock h + PeriodsComparison.tz h)
                 / PeriodsComparison.day_ms - 1)) as H.
  cbv zeta in H.
  replace (DailyStats.yesterday h)
    with (((PeriodsComparison.clock h + PeriodsComparison.tz h)
           / PeriodsComparison.day_ms - 1) * PeriodsComparison.day_ms
          - PeriodsComparison.tz h)%Z
    by (unfold DailyStats.yesterday, DailyStats.today, DailyStats.midnight;
        lia).
  rewrite H. unfold PeriodsComparison.today. f_equal; f_equal; lia.
Qed.

(** X14.  DailyStats and the 'Today' row of PeriodsComparison pick the
    same trades, although one compares local midnights for equality and the
    other tests a half-open window of 24 hours: profit, number of trades,
    lots and win percentage of today agree, and so do yesterday's profit
    and the change of profit from yesterday to today. *)
Theorem dailyStats_agrees_with_today_row
        (h : PeriodsComparison.Host) (trades : list Trade) :
  let row := PeriodsComparison.todayRow h trades in
  PeriodsComparison.profit row = DailyStats.todayProfit h trades
  /\ PeriodsComparison.trades_count row
     = List.length (DailyStats.todaysTrades h trades)
  /\ PeriodsComparison.lots row = DailyStats.todayLots h trades
  /\ PeriodsComparison.winPct row
     = PeriodsComparison.pct_of (DailyStats.todayWins h trades)
         (List.length (DailyStats.todaysTrades h trades))
  /\ PeriodsComparison.prevProfit row = DailyStats.yesterdayProfit h trades
  /\ DailyStats.profitChange h trades
     = PeriodsComparison.profit row - PeriodsComparison.prevProfit row.
Proof.
  cbv zeta.
  unfold DailyStats.profitChange, DailyStats.todayProfit, DailyStats.todayLots,
    DailyStats.todayWins, DailyStats.yesterdayProfit.
  rewrite todaysTrades_window, yesterdaysTrades_window.
  repeat split.
Qed.

Lemma maxOrZero_spec (xs : list Q) :
  Forall (fun x => x <= DailyStats.maxOrZero xs) xs
  /\ (xs <> [] -> In (DailyStats.maxOrZero xs) xs).
Proof.
  destruct xs as [|x xs]; [split; [constructor|congruence]|].
  unfold DailyStats.maxOrZero.
  assert (H : forall l a,
            a <= fold_left Qmax l a
            /\ Forall (fun y => y <= fold_left Qmax l a) l
            /\ (fold_left Qmax l a = a \/ In (fold_left Qmax l a) l)).
  { induction l as [|y l IH]; intro a; cbn [fold_left].
    - split; [lra|]. split; [constructor|left; reflexivity].
    - destruct (IH (Qmax a y)) as (H1 & H2 & H3).
      assert (Ha : a <= Qmax a y /\ y <= Qmax a y
                   /\ (Qmax a y = a \/ Qmax a y = y)).
      { unfold Qmax. destruct (Qle_bool a y) eqn:E; qcases;
          repeat split; try lra; tauto. }
      destruct Ha as (Ha1 & Ha2 & Ha3).
      split; [lra|]. split.
      + constructor; [lra|exact H2].
      + destruct H3 as [H3|H3]; [|right; right; exact H3].
        rewrite H3. destruct Ha3 as [->| ->];
          [left; reflexivity|right; left; reflexivity]. }
  destruct (H xs x) as (H1 & H2 & H3).
  split.
  - constructor; assumption.
  - intros _. destruct H3 as [->|H3]; [left; reflexivity|right; exact H3].
Qed.

Lemma minOrZero_spec (xs : list Q) :
  Forall (fun x => DailyStats.minOrZero xs <= x) xs
  /\ (xs <> [] -> In (DailyStats.minOrZero xs) xs).
Proof.
  destruct xs as [|x xs]; [split; [constructor|congruence]|].
  unfold DailyStats.minOrZero.
  assert (H : forall l a,
            fold_left Qmin l a <= a
            /\ Forall (fun y => fold_left Qmin l a <= y) l
            /\ (fold_left Qmin l a = a \/ In (fold_left Qmin l a) l)).
  { induction l as [|y l IH]; intro a; cbn [fold_left].
    - split; [lra|]. split; [constructor|left; reflexivity].
    - destruct (IH (Qmin a y)) as (H1 & H2 & H3).
      assert (Ha : Qmin a y <= a /\ Qmin a y <= y
                   /\ (Qmin a y = a \/ Qmin a y = y)).
      { unfold Qmin. destruct (Qle_bool a y) eqn:E; qcases;
          repeat split; try lra; tauto. }
      destruct Ha as (Ha1 & Ha2 & Ha3).
      split; [lra|]. split.
      + constructor; [lra|exact H2].
      + destruct H3 as [H3|H3]; [|right; right; exact H3].
        rewrite H3. destruct Ha3 as [->| ->];
          [left; reflexivity|right; left; reflexivity]. }
  destruct (H xs x) as (H1 & H2 & H3).
  split.
  - constructor; assumption.
  - intros _. destruct H3 as [->|H3]; [left; reflexivity|right; exact H3].
Qed.

(** X15.  DailyStats's best and worst trade bound the net profit of every
    trade of today, and each is the net profit of one of today's trades
    when there is one; both are 0 on a day without trades.  Today's wins
    and losses together do not exceed today's trades. *)
Theorem best_and_worst_trade_of_today
        (h : PeriodsComparison.Host) (trades : list Trade) :
  Forall (fun t => DailyStats.worstTrade h trades <= net_profit t
                   /\ net_profit t <= DailyStats.bestTrade h trades)
         (DailyStats.todaysTrades h trades)
  /\ (DailyStats.todaysTrades h trades <> [] ->
      (exists t, In t (DailyStats.todaysTrades h trades)
                 /\ net_profit t = DailyStats.bestTrade h trades)
      /\ (exists t, In t (DailyStats.todaysTrades h trades)
                    /\ net_profit t = DailyStats.worstTrade h trades))
  /\ (DailyStats.todaysTrades h trades = [] ->
      DailyStats.bestTrade h trades = 0 /\ DailyStats.worstTrade h trades = 0)
  /\ (DailyStats.todayWins h trades + DailyStats.todayLosses h trades
      <= List.length (DailyStats.todaysTrades h trades))%nat.
Proof.
  unfold DailyStats.bestTrade, DailyStats.worstTrade, DailyStats.todayWins,
    DailyStats.todayLosses.
  set (today := DailyStats.todaysTrades h trades).
  destruct (maxOrZero_spec (map net_profit today)) as [Hmax Hin].
  destruct (minOrZero_spec (map net_profit today)) as [Hmin Hin'].
  rewrite Forall_map in Hmax, Hmin. rewrite Forall_forall in Hmax, Hmin.
  split; [|split; [|split; [|apply (wins_losses_le today)]]].
  - apply Forall_forall. intros t Ht. split; [apply Hmin|apply Hmax]; exact Ht.
  - intro Hne.
    assert (Hne' : map net_profit today <> [])
      by (destruct today; [congruence|discriminate]).
    split.
    + apply Hin, in_map_iff in Hne'. destruct Hne' as (t & E & Ht).
      exists t. split; assumption.
    + apply Hin', in_map_iff in Hne'. destruct Hne' as (t & E & Ht).
      exists t. split; assumption.
  - intros ->. split; reflexivity.
Qed.

Lemma addToSet_spec (seen : list string) (s : string) :
  NoDup seen ->
  NoDup (DailyStats.addToSet seen s)
  /\ forall x, In x (DailyStats.addToSet seen s) <-> In x seen \/ x = s.
Proof.
  intro Hn. unfold DailyStats.addToSet.
  destruct (existsb (String.eqb s) seen) eqn:E.
  - split; [exact Hn|]. intro x. split; [tauto|].
    intros [H| ->]; [exact H|].
    apply existsb_exists in E. destruct E as (y & Hy & Ey).
    apply String.eqb_eq in Ey. subst y. exact Hy.
  - assert (Hs : ~ In s seen).
    { intro Hin. assert (existsb (String.eqb s) seen = true).
      { apply existsb_exists. exists s. split; [exact Hin|].
        apply String.eqb_refl. }
      congruence. }
    split.
    + apply NoDup_app; [exact Hn|constructor; [intros []|constructor]|].
      intros x Hx [<-|[]]. contradiction.
    + intro x. rewrite in_app_iff. cbn [In]. intuition.
Qed.

Lemma distinct_from (xs seen : list string) :
  NoDup seen ->
  NoDup (fold_left DailyStats.addToSet xs seen)
  /\ forall x, In x (fold_left DailyStats.addToSet xs seen)
               <-> In x seen \/ In x xs.
Proof.
  revert seen. induction xs as [|s xs IH]; intros seen Hn; cbn [fold_left].
  - split; [exact Hn|]. intro x. cbn [In]. tauto.
  - destruct (addToSet_spec seen s Hn) as [Hn' Hin'].
    destruct (IH _ Hn') as [H1 H2].
    split; [exact H1|]. intro x. rewrite H2, Hin'. cbn [In]. intuition.
Qed.

(** X16.  [symbolsToday] lists every symbol traded today exactly once and
    nothing else. *)
Theorem symbolsToday_lists_each_symbol_once
        (h : PeriodsComparison.Host) (trades : list Trade) :
  NoDup (DailyStats.symbolsToday h trades)
  /\ forall s, In s (DailyStats.symbolsToday h trades)
               <-> exists t, In t (DailyStats.todaysTrades h trades)
                             /\ symbol t = s.
Proof.
  unfold DailyStats.symbolsToday, DailyStats.distinct.
  destruct (distinct_from (map symbol (DailyStats.todaysTrades h trades)) []
              (NoDup_nil _)) as [H1 H2].
  split; [exact H1|].
  intro s. rewrite H2, in_map_iff. split.
  - intros [[]|(t & E & Ht)]. exists t. split; assumption.
  - intros (t & Ht & E). right. exists t. split; assumption.
Qed.

(** X17.  The week of PeriodsComparison starts on the Monday of the
    current week at local midnight, for every reading of the clock and every
    offset of local time: the start is a local midnight, its weekday is
    Monday, it lies at most six days before today's midnight and never after
    it; the previous week starts exactly seven days earlier, so the two
    windows of the 'This Week' row are adjacent. *)
Theorem week_starts_on_monday (h : PeriodsComparison.Host) :
  let start := PeriodsComparison.thisWeekStart h in
  DailyStats.midnight h start = start
  /\ PeriodsComparison.getDay
       (PeriodsComparison.mkHost start (PeriodsComparison.tz h)) = 1%Z
  /\ (PeriodsComparison.today h - 6 * PeriodsComparison.day_ms <= start)%Z
  /\ (start <= PeriodsComparison.today h <= PeriodsComparison.clock h)%Z
  /\ PeriodsComparison.getDay
       (PeriodsComparison.mkHost (PeriodsComparison.lastWeekStart h)
                                 (PeriodsComparison.tz h)) = 1%Z
  /\ (PeriodsComparison.lastWeekStart h + 7 * PeriodsComparison.day_ms
      = start)%Z.
Proof.
  cbv zeta.
  unfold PeriodsComparison.lastWeekStart, PeriodsComparison.thisWeekStart,
    PeriodsComparison.getDay, PeriodsComparison.today, DailyStats.midnight,
    PeriodsComparison.day_ms.
  cbn [PeriodsComparison.clock PeriodsComparison.tz].
  set (c := PeriodsComparison.clock h). set (tz := PeriodsComparison.tz h).
  set (q := ((c + tz) / 86400000)%Z).
  assert (Hq : (q * 86400000 <= c + tz < q * 86400000 + 86400000)%Z).
  { unfold q. pose proof (Z.div_mod (c + tz) 86400000 ltac:(lia)).
    pose proof (Z.mod_pos_bound (c + tz) 86400000 ltac:(lia)). lia. }
  set (g := ((q + 4) mod 7)%Z).
  assert (Hg : (0 <= g < 7)%Z) by (apply Z.mod_pos_bound; lia).
  assert (Hk : exists k, (q + 4 = 7 * k + g)%Z).
  { exists ((q + 4) / 7)%Z. unfold g. apply Z.div_mod. lia. }
  destruct Hk as (k & Hk).
  set (off := if (g =? 0)%Z then (-6)%Z else (1 - g)%Z).
  assert (Hoff : (-6 <= off <= 0)%Z /\ (g + off = 1 \/ g + off = -6)%Z).
  { unfold off. destruct (Z.eqb_spec g 0); lia. }
  destruct Hoff as [Ho1 Ho2].
  assert (Hd : forall j : Z,
            ((q * 86400000 - tz + j * 86400000 + tz) / 86400000 = q + j)%Z).
  { intro j. replace (q * 86400000 - tz + j * 86400000 + tz)%Z
      with ((q + j) * 86400000)%Z by lia.
    apply Z.div_mul. lia. }
  assert (Hmon : forall j : Z, (g + j = 1 \/ g + j = -6 \/ g + j = -13)%Z ->
                   ((q + j + 4) mod 7 = 1)%Z).
  { intros j Hj. symmetry.
    destruct Hj as [Hj|[Hj|Hj]].
    - apply (Z.mod_unique _ _ k); lia.
    - apply (Z.mod_unique _ _ (k - 1)); lia.
    - apply (Z.mod_unique _ _ (k - 2)); lia. }
  split; [|split; [|split; [|split; [|split]]]].
  - rewrite Hd. lia.
  - rewrite Hd. apply Hmon. lia.
  - lia.
  - lia.
  - replace (q * 86400000 - tz + off * 86400000 - 7 * 86400000 + tz)%Z
      with (q * 86400000 - tz + (off - 7) * 86400000 + tz)%Z by lia.
    rewrite Hd. apply Hmon. lia.
  - lia.
Qed.

Lemma fold_weight_shift (f : Trade -> Q) (ts : list Trade) (a : Q) :
  fold_left (fun s t => s + f t) ts a
  == a + fold_left (fun s t => s + f t) ts 0.
Proof.
  revert a. induction ts as [|t ts IH]; intro a; cbn [fold_left].
  - lra.
  - rewrite IH. rewrite (IH (0 + f t)). lra.
Qed.

Lemma filter_split_weight (f : Trade -> Q) (p q r : Trade -> bool)
      (l : list Trade) :
  (forall x, r x = p x || q x) -> (forall x, p x && q x = false) ->
  fold_left (fun s t => s + f t) (filter r l) 0
  == fold_left (fun s t => s + f t) (filter p l) 0
     + fold_left (fun s t => s + f t) (filter q l) 0.
Proof.
  intros Hr Hd. induction l as [|x l IH]; [reflexivity|].
  cbn [filter]. rewrite (Hr x). specialize (Hd x).
  destruct (p x), (q x); cbn [orb fold_left]; try discriminate;
    rewrite ?(fold_weight_shift f _ (0 + f x)), IH; lra.
Qed.

Lemma window_split (a b c : Z) (t : Trade) :
  (a <= b <= c)%Z ->
  inWindow a c t = inWindow a b t || inWindow b c t.
Proof.
  intro H. unfold inWindow.
  destruct (Z.leb_spec a (time t)); destruct (Z.ltb_spec (time t) c);
    destruct (Z.ltb_spec (time t) b); destruct (Z.leb_spec b (time t));
    cbn [andb orb]; try reflexivity; lia.
Qed.

Lemma window_disjoint (a b c : Z) (t : Trade) :
  inWindow a b t && inWindow b c t = false.
Proof.
  unfold inWindow.
  destruct (Z.leb_spec a (time t)); destruct (Z.ltb_spec (time t) c);
    destruct (Z.ltb_spec (time t) b); destruct (Z.leb_spec b (time t));
    cbn [andb orb]; try reflexivity; lia.
Qed.

(** X18.  [calculatePeriod] uses half-open windows, so adjacent periods
    neither overlap nor leave a gap: for [a <= b <= c] the profit, the
    number of trades, the number of wins and the lots of the window from
    [a] to [c] are the sums of those of the windows from [a] to [b] and from
    [b] to [c]. *)
Theorem calculatePeriod_additive (trades : list Trade) (a b c : Z) :
  (a <= b <= c)%Z ->
  let whole := PeriodsComparison.calculatePeriod trades a c in
  let first := PeriodsComparison.calculatePeriod trades a b in
  let second := PeriodsComparison.calculatePeriod trades b c in
  PeriodsComparison.p_profit whole
  == PeriodsComparison.p_profit first + PeriodsComparison.p_profit second
  /\ PeriodsComparison.p_total whole
     = (PeriodsComparison.p_total first + PeriodsComparison.p_total second)%nat
  /\ PeriodsComparison.p_wins whole
     = (PeriodsComparison.p_wins first + PeriodsComparison.p_wins second)%nat
  /\ PeriodsComparison.p_lots whole
     == PeriodsComparison.p_lots first + PeriodsComparison.p_lots second.
Proof.
  intro H. cbv zeta. unfold PeriodsComparison.calculatePeriod.
  cbn [PeriodsComparison.p_profit PeriodsComparison.p_total
       PeriodsComparison.p_wins PeriodsComparison.p_lots].
  change (fun t => (a <=? time t)%Z && (time t <? c)%Z) with (inWindow a c).
  change (fun t => (a <=? time t)%Z && (time t <? b)%Z) with (inWindow a b).
  change (fun t => (b <=? time t)%Z && (time t <? c)%Z) with (inWindow b c).
  pose proof (fun t => window_split a b c t H) as Hs.
  pose proof (window_disjoint a b c) as Hd.
  split; [|split; [|split]].
  - apply (filter_split_weight net_profit); assumption.
  - apply filter_split_length; assumption.
  - rewrite !(filter_comm (fun t => Qgtb (net_profit t) 0)).
    apply filter_split_length; assumption.
  - apply (filter_split_weight volume); assumption.
Qed.

Lemma calculatePeriod_additive_witness :
  let whole := PeriodsComparison.calculatePeriod scenarioD 0 7000 in
  let first := PeriodsComparison.calculatePeriod scenarioD 0 3000 in
  let second := PeriodsComparison.calculatePeriod scenarioD 3000 7000 in
  PeriodsComparison.p_profit whole
  == PeriodsComparison.p_profit first + PeriodsComparison.p_profit second
  /\ PeriodsComparison.p_total whole
     = (PeriodsComparison.p_total first + PeriodsComparison.p_total second)%nat
  /\ PeriodsComparison.p_wins whole
     = (PeriodsComparison.p_wins first + PeriodsComparison.p_wins second)%nat
  /\ PeriodsComparison.p_lots whole
     == PeriodsComparison.p_lots first + PeriodsComparison.p_lots second.
Proof.
  apply (calculatePeriod_additive scenarioD 0 3000 7000). lia.
Defined.

(** ** RiskModel: edge, ruin probability and the recommendation *)

Lemma min_negative_l (k : number) (c : Q) :
  0 <= c -> JS.lt (JS.min k (Fin c)) (Fin 0) = JS.lt k (Fin 0).
Proof.
  intro Hc. destruct k as [q| | |]; cbn [JS.min JS.le JS.lt];
    try reflexivity.
  - destruct (Qle_bool q c) eqn:E; cbn [JS.lt]; [reflexivity|].
    qcases.
    transitivity false; [apply Qltb_ge|symmetry; apply Qltb_ge]; lra.
  - apply Qltb_ge. exact Hc.
Qed.

Lemma min_negative_r (k : number) (c : Q) :
  0 <= c -> JS.lt (JS.min (Fin c) k) (Fin 0) = JS.lt k (Fin 0).
Proof.
  intro Hc. destruct k as [q| | |]; cbn [JS.min JS.le JS.lt];
    try reflexivity.
  - destruct (Qle_bool c q) eqn:E; cbn [JS.lt]; [|reflexivity].
    apply Qle_bool_iff in E.
    transitivity false; [apply Qltb_ge|symmetry; apply Qltb_ge]; lra.
  - apply Qltb_ge. exact Hc.
Qed.

Lemma div_negative (k : number) (c : Q) :
  0 < c -> JS.lt (JS.div k (Fin c)) (Fin 0) = JS.lt k (Fin 0).
Proof.
  intro Hc.
  assert (Hz : Qeq_bool c 0 = false) by (apply Qeq_bool_false; lra).
  assert (Hn : Qltb c 0 = false) by (apply Qltb_ge; lra).
  destruct k as [q| | |]; cbn [JS.div JS.sign]; rewrite ?Hz, ?Hn;
    cbn [JS.sign_mul JS.inf_of JS.lt]; try reflexivity.
  destruct (Qltb q 0) eqn:L; qcases.
  - apply Qltb_lt. apply Qlt_shift_div_r; lra.
  - apply Qltb_ge. apply Qle_shift_div_l; lra.
Qed.

(** X19.  The recommended position size is negative exactly when the score
    is at least 30 and the half Kelly is negative: the caps of the three
    upper tiers bound the size from above only, and only the weakest tier
    replaces the Kelly figure by a constant.  The advice never reaches the
    'aggressive' level.  A negative size does occur: five wins of 2, one
    loss of 5 and four zero-profit trades on a balance of 1000 score 45 with
    a half Kelly of -37.5. *)
Theorem recommendedPct_negative_iff (m : RiskModel.Metrics) :
  JS.lt (RiskModel.recommendedPct m) (Fin 0)
  = (30 <=? RiskModel.riskScore m)%Z
    && JS.lt (RiskModel.kellyHalf m) (Fin 0)
  /\ RiskModel.riskLevel m <> RiskModel.aggressive
  /\ JS.lt (RiskModel.recommendedPct
              (RiskModel.computeMetrics 1000 mostly_flat)) (Fin 0) = true.
Proof.
  split; [|split; [|vm_compute; reflexivity]];
    [|unfold RiskModel.riskLevel, RiskModel.recommend;
      destruct (75 <=? _)%Z; [discriminate|];
      destruct (50 <=? _)%Z; [discriminate|];
      destruct (30 <=? _)%Z; discriminate].
  unfold RiskModel.recommendedPct, RiskModel.recommend.
  set (s := RiskModel.riskScore m). set (k := RiskModel.kellyHalf m).
  destruct (Z.leb_spec 75 s); [|destruct (Z.leb_spec 50 s);
                                 [|destruct (Z.leb_spec 30 s)]];
    cbn [fst snd].
  - assert ((30 <=? s)%Z = true) as -> by (apply Z.leb_le; lia).
    apply min_negative_l. lra.
  - assert ((30 <=? s)%Z = true) as -> by (apply Z.leb_le; lia).
    rewrite min_negative_l by lra. apply div_negative. lra.
  - rewrite min_negative_r by lra. apply div_negative. lra.
  - reflexivity.
Qed.

Lemma average_positive (x : Q) (l : list Q) (a : Q) :
  Forall (fun q => 0 < q) (x :: l) ->
  RiskModel.average_or_zero (map Fin (x :: l)) = Fin a -> 0 < a.
Proof.
  intros Hall. unfold RiskModel.average_or_zero.
  set (xs := x :: l) in *.
  assert (Hne : map Fin xs <> []) by discriminate.
  change (match map Fin xs with
          | [] => Fin 0
          | _ :: _ => JS.div (JS.sum (Fin 0) (map Fin xs))
                             (Fin (RiskModel.count (map Fin xs)))
          end)
    with (JS.div (JS.sum (Fin 0) (map Fin xs))
                 (Fin (RiskModel.count (map Fin xs)))).
  rewrite sum_Fin. cbn [JS.div]. rewrite (count_nonzero _ Hne).
  intro H. injection H as <-.
  pose proof (count_pos _ Hne).
  assert (Hx : xs <> []) by discriminate.
  destruct (fold_Qplus_strict xs Hx) as [Hp _]. specialize (Hp Hall).
  apply Qlt_shift_div_l; [assumption|].
  change (fold_left Qplus l (0 + x)) with (fold_left Qplus xs 0). lra.
Qed.

Lemma Qpower_ge_1 (x : Q) (k : nat) : 1 <= x -> 1 <= Qpower x (Z.of_nat k).
Proof.
  intro H. induction k as [|k IH].
  - cbn. lra.
  - rewrite Nat2Z.inj_succ. unfold Z.succ.
    rewrite Qpower_plus' by lia. rewrite Qpower_1_r.
    assert (1 * 1 <= x ^ Z.of_nat k * x) as L
      by (apply Qmult_le_compat_nonneg; split; lra).
    lra.
Qed.

Lemma ruinProbability_eq
      (initialBalance : Q) (trades : list Trade) (m : RiskModel.Metrics) :
  RiskModel.riskMetrics initialBalance trades = Some m ->
  RiskModel.ruinProbability m
  = JS.min (Fin 100)
      (JS.max (Fin 0)
         (JS.mul (JS.pow (JS.div (Fin (1 - RiskModel.winRate m / 100))
                                 (Fin (RiskModel.winRate m / 100)))
                         (Fin 10))
                 (Fin 100))).
Proof.
  intro Hm. rewrite (riskMetrics_compute _ _ _ Hm). reflexivity.
Qed.

(** X21.  RiskModel's [ruinProbability] is always a number between 0 and
    100, whatever the trades and the initial balance: it is 100 whenever
    the win rate is at most 50% (with no win at all the ratio is infinite
    and the cap applies) and 0 when every trade wins. *)
Theorem ruinProbability_within_0_100
        (initialBalance : Q) (trades : list Trade) (m : RiskModel.Metrics) :
  RiskModel.riskMetrics initialBalance trades = Some m ->
  exists p,
    RiskModel.ruinProbability m = Fin p
    /\ 0 <= p <= 100
    /\ (RiskModel.winRate m <= 50 -> p == 100)
    /\ (RiskModel.winRate m == 100 -> p == 0).
Proof.
  intro Hm. rewrite (ruinProbability_eq _ _ _ Hm).
  pose proof (winRate_fraction_bounds _ _ _ Hm) as [Hw0 Hw1].
  set (W := RiskModel.winRate m) in *.
  assert (HW : W == W / 100 * 100) by (field).
  set (w := W / 100) in *.
  cbn [JS.div].
  destruct (Qeq_bool w 0) eqn:E0.
  - apply Qeq_bool_iff in E0.
    assert (Hc : (1 - w ?= 0) = Gt) by (apply Qgt_alt; lra).
    rewrite Hc. exists 100. split; [reflexivity|].
    split; [lra|]. split; [reflexivity|]. intro H. lra.
  - qcases.
    change (Fin 10) with (Fin (inject_Z 10)).
    rewrite pow_Fin_pos by lia. cbn [JS.mul].
    set (x := (1 - w) / w).
    assert (Hx : 0 <= x) by (apply Qle_shift_div_l; lra).
    assert (Hp : 0 <= x ^ 10) by (apply Qpower_0_le; exact Hx).
    cbn [JS.max JS.le].
    assert (L0 : Qle_bool 0 (x ^ 10 * 100) = true)
      by (apply Qle_bool_iff; lra).
    rewrite L0. cbn [JS.min JS.le].
    destruct (Qle_bool 100 (x ^ 10 * 100)) eqn:L1; qcases.
    + exists 100. split; [reflexivity|]. split; [lra|].
      split; [reflexivity|]. intro H.
      exfalso. assert (Hx0 : x == 0) by (unfold x; rewrite HW in H; field_simplify_eq; lra).
      rewrite Hx0 in L1. rewrite Qpower_0 in L1 by discriminate. lra.
    + eexists. split; [reflexivity|]. split; [lra|]. split.
      * intro H. exfalso.
        assert (Hx1 : 1 <= x) by (apply Qle_shift_div_l; lra).
        pose proof (Qpower_ge_1 x 10 Hx1) as Hge.
        change (Z.of_nat 10) with 10%Z in Hge. lra.
      * intro H.
        assert (Hx0 : x == 0) by (unfold x; field_simplify_eq; lra).
        rewrite Hx0, Qpower_0 by discriminate. lra.
Qed.

Lemma ruinProbability_within_0_100_witness :
  exists p,
    RiskModel.ruinProbability (RiskModel.computeMetrics 0 single_loss) = Fin p
    /\ 0 <= p <= 100
    /\ (RiskModel.winRate (RiskModel.computeMetrics 0 single_loss) <= 50 ->
        p == 100)
    /\ (RiskModel.winRate (RiskModel.computeMetrics 0 single_loss) == 100 ->
        p == 0).
Proof.
  apply (ruinProbability_within_0_100 0 single_loss). reflexivity.
Defined.

Lemma inject_Z_pos (n : Z) : (0 < n)%Z -> 0 < inject_Z n.
Proof. intro H. change 0 with (inject_Z 0). rewrite <- Zlt_Qlt. exact H. Qed.

Lemma inject_Z_neg (n : Z) : (n < 0)%Z -> inject_Z n < 0.
Proof. intro H. change 0 with (inject_Z 0). rewrite <- Zlt_Qlt. exact H. Qed.

Lemma tradingDays_sign (first second : Trade) (rest : list Trade) :
  let trades := first :: second :: rest in
  let lastListed := last trades first in
  ((time lastListed < time first)%Z ->
   (0 < RiskModelAnnual.tradingDays trades)%Z)
  /\ ((time first <= time lastListed)%Z ->
      (RiskModelAnnual.tradingDays trades <= 0)%Z)
  /\ ((time first + RiskModelAnnual.day_ms <= time lastListed)%Z ->
      (RiskModelAnnual.tradingDays trades < 0)%Z).
Proof.
  cbv zeta. unfold RiskModelAnnual.tradingDays.
  set (trades := first :: second :: rest).
  set (a := (time first - time (last trades first))%Z).
  assert (HD : 0 < inject_Z RiskModelAnnual.day_ms) by reflexivity.
  split; [|split]; intro H.
  - assert (Hx : 0 < inject_Z a / inject_Z RiskModelAnnual.day_ms).
    { apply Qlt_shift_div_l; [exact HD|].
      pose proof (inject_Z_pos a ltac:(unfold a; lia)). lra. }
    pose proof (Qle_ceiling (inject_Z a / inject_Z RiskModelAnnual.day_ms)).
    rewrite Zlt_Qlt. change (inject_Z 0) with 0. lra.
  - change 0%Z with (Qceiling 0). apply Qceiling_resp_le.
    apply Qle_shift_div_r; [exact HD|].
    assert (inject_Z a <= inject_Z 0) by (rewrite <- Zle_Qle; unfold a; lia).
    change (inject_Z 0) with 0 in *. lra.
  - assert (Hle : (Qceiling (inject_Z a / inject_Z RiskModelAnnual.day_ms)
                   <= Qceiling (inject_Z (-1)))%Z).
    { apply Qceiling_resp_le.
      apply Qle_shift_div_r; [exact HD|].
      rewrite <- inject_Z_mult, <- Zle_Qle. unfold a. lia. }
    rewrite Qceiling_Z in Hle. lia.
Qed.

(** X22.  RiskModel's [tradesPerYear] subtracts the time of the last
    listed trade from the time of the first: with two or more trades it is
    a positive number only when the first listed trade is later than the
    last one (a list in newest-first order).  When the first listed trade
    is not later than the last, [tradesPerYear] is not a positive finite
    number, and when it is a day or more earlier, [tradesPerYear] is
    negative. *)
Theorem tradesPerYear_positive_only_newest_first
        (first second : Trade) (rest : list Trade) :
  let trades := first :: second :: rest in
  let lastListed := last trades first in
  ((time lastListed < time first)%Z ->
   exists q, RiskModelAnnual.tradesPerYear trades = Fin q /\ 0 < q)
  /\ ((time first <= time lastListed)%Z ->
      JS.isFinite (RiskModelAnnual.tradesPerYear trades)
      && JS.gt (RiskModelAnnual.tradesPerYear trades) (Fin 0) = false)
  /\ ((time first + RiskModelAnnual.day_ms <= time lastListed)%Z ->
      exists q, RiskModelAnnual.tradesPerYear trades = Fin q /\ q < 0).
Proof.
  cbv zeta.
  destruct (tradingDays_sign first second rest) as (Hpos & Hnonpos & Hneg).
  cbv zeta in Hpos, Hnonpos, Hneg.
  unfold RiskModelAnnual.tradesPerYear.
  set (trades := first :: second :: rest) in *.
  set (d := RiskModelAnnual.tradingDays trades) in *.
  assert (Hc : 0 < RiskModel.count trades)
    by (apply count_pos; discriminate).
  split; [|split]; intro H.
  - specialize (Hpos H). pose proof (inject_Z_pos d Hpos) as Hd.
    cbn [JS.div].
    assert (Hz : Qeq_bool (inject_Z d) 0 = false)
      by (apply Qeq_bool_false; lra).
    rewrite Hz. cbn [JS.mul]. eexists. split; [reflexivity|].
    apply Qmult_lt_0_compat; [|lra].
    apply Qlt_shift_div_l; lra.
  - specialize (Hnonpos H). cbn [JS.div].
    destruct (Qeq_bool (inject_Z d) 0) eqn:Hz.
    + assert (Hg : (RiskModel.count trades ?= 0) = Gt)
        by (apply Qgt_alt; exact Hc).
      rewrite Hg. reflexivity.
    + qcases. cbn [JS.mul JS.isFinite andb]. unfold JS.gt. cbn [JS.lt].
      apply Qltb_ge.
      assert (Hd : inject_Z d < 0).
      { assert (inject_Z d <= inject_Z 0) by (rewrite <- Zle_Qle; exact Hnonpos).
        change (inject_Z 0) with 0 in *. lra. }
      assert (Hq : RiskModel.count trades / inject_Z d
                   == - (RiskModel.count trades / (- inject_Z d)))
        by (field; lra).
      assert (0 < RiskModel.count trades / (- inject_Z d))
        by (apply Qlt_shift_div_l; lra).
      rewrite Hq. lra.
  - specialize (Hneg H). pose proof (inject_Z_neg d Hneg) as Hd.
    cbn [JS.div].
    assert (Hz : Qeq_bool (inject_Z d) 0 = false)
      by (apply Qeq_bool_false; lra).
    rewrite Hz. cbn [JS.mul]. eexists. split; [reflexivity|].
    assert (Hq : RiskModel.count trades / inject_Z d
                 == - (RiskModel.count trades / (- inject_Z d)))
      by (field; lra).
    assert (0 < RiskModel.count trades / (- inject_Z d))
      by (apply Qlt_shift_div_l; lra).
    rewrite Hq. lra.
Qed.

(** ** The win rate and the average return across components *)

Lemma positiveReturns_length (ib : Q) (ts : list Trade) :
  0 < ib ->
  List.length (positiveReturns ib ts) = List.length (wins ts).
Proof.
  intro Hib. unfold positiveReturns, wins.
  induction ts as [|t ts IH]; [reflexivity|].
  cbn [map filter]. destruct (returnPct_sign ib t Hib) as [-> _].
  destruct (Qgtb (net_profit t) 0); cbn [List.length]; rewrite IH; reflexivity.
Qed.

Lemma count_length {A B} (l : list A) (l' : list B) :
  List.length l = List.length l' -> RiskModel.count l = RiskModel.count l'.
Proof. unfold RiskModel.count. intros ->. reflexivity. Qed.

(** X23.  On a positive initial balance the win rate of RiskModel, which
    counts the positive percentage returns, is the profitability of
    AdvancedStats, which counts the trades with a positive net profit; it
    lies between 0 and 100. *)
Theorem winRate_agrees_with_profitability
        (initialBalance : Q) (trades : list Trade) (m : RiskModel.Metrics) :
  RiskModel.riskMetrics initialBalance trades = Some m ->
  0 < initialBalance ->
  RiskModel.winRate m = AdvancedMetrics.profitabilityPct trades
  /\ 0 <= RiskModel.winRate m <= 100.
Proof.
  intros Hm Hib.
  assert (Hib' : ~ initialBalance == 0) by lra.
  split.
  - rewrite (winRate_eq _ _ _ Hm), (winReturns_finite _ _ Hib').
    pose proof (trades_nonempty _ _ _ Hm) as Hne.
    unfold AdvancedMetrics.profitabilityPct.
    destruct trades as [|t ts]; [congruence|].
    f_equal. f_equal. apply count_length.
    rewrite length_map. apply positiveReturns_length, Hib.
  - pose proof (winRate_fraction_bounds _ _ _ Hm) as [H0 H1].
    assert (HW : RiskModel.winRate m == RiskModel.winRate m / 100 * 100)
      by field.
    split; lra.
Qed.

Lemma winRate_agrees_with_profitability_witness :
  RiskModel.winRate (RiskModel.computeMetrics 1000 usual_loss)
  = AdvancedMetrics.profitabilityPct usual_loss
  /\ 0 <= RiskModel.winRate (RiskModel.computeMetrics 1000 usual_loss) <= 100.
Proof.
  apply (winRate_agrees_with_profitability 1000 usual_loss);
    reflexivity.
Defined.

Lemma fold_scaled (k : Q) (ts : list Trade) :
  fold_left Qplus (map (fun t => net_profit t * k) ts) 0
  == sum_net_profit ts * k.
Proof.
  induction ts as [|t ts IH]; [cbn; change (sum_net_profit []) with 0; lra|].
  cbn [map fold_left]. rewrite fold_Qplus_shift, IH, sum_net_profit_cons. lra.
Qed.

Lemma fold_Qplus_ext (f g : Trade -> Q) (ts : list Trade) :
  (forall t, f t == g t) ->
  fold_left Qplus (map f ts) 0 == fold_left Qplus (map g ts) 0.
Proof.
  intro H. induction ts as [|t ts IH]; [reflexivity|].
  cbn [map fold_left].
  rewrite fold_Qplus_shift, (fold_Qplus_shift _ (0 + g t)), IH, (H t).
  reflexivity.
Qed.

Lemma returns_sum (ts : list Trade) :
  AdvancedMetrics.sumOf (AdvancedMetrics.returns ts)
  == sum_net_profit ts / 10000.
Proof.
  unfold AdvancedMetrics.sumOf, AdvancedMetrics.returns,
    AdvancedMetrics.initialBalance.
  rewrite (fold_Qplus_ext _ (fun t => net_profit t * (1 / 10000)))
    by (intro t; field).
  rewrite fold_scaled. field.
Qed.

Lemma returnPct_sum (ib : Q) (ts : list Trade) :
  ~ ib == 0 ->
  fold_left Qplus (map (returnPct ib) ts) 0 == sum_net_profit ts / ib * 100.
Proof.
  intro Hib.
  rewrite (fold_Qplus_ext _ (fun t => net_profit t * (100 / ib)))
    by (intro t; unfold returnPct; field; exact Hib).
  rewrite fold_scaled. field. exact Hib.
Qed.

(** X24.  AdvancedStats's [ahpr] is the average net profit per trade as a
    percentage of a balance of 10000: [ahpr * number of trades] is the net
    profit of all trades over 100; it is the number RiskModel reports as
    [avgReturnPct] when the initial balance is 10000. *)
Theorem ahpr_is_average_return (trades : list Trade) :
  AdvancedMetrics.ahpr trades * RiskModel.count trades
  == sum_net_profit trades / 100
  /\ (trades <> [] ->
      exists q,
        RiskModel.avgReturnPct
          (RiskModel.computeMetrics AdvancedMetrics.initialBalance trades)
        = Fin q
        /\ q == AdvancedMetrics.ahpr trades).
Proof.
  destruct trades as [|t ts].
  - split; [reflexivity|congruence].
  - set (trades := t :: ts).
    assert (Hne : trades <> []) by discriminate.
    pose proof (count_pos trades Hne) as Hc.
    assert (Hn : RiskModel.count (AdvancedMetrics.returns trades)
                 = RiskModel.count trades)
      by (apply count_length, length_map).
    assert (Ha : AdvancedMetrics.ahpr trades
                 == sum_net_profit trades / 10000
                    / RiskModel.count trades * 100).
    { unfold AdvancedMetrics.ahpr, trades. fold trades.
      rewrite Hn, returns_sum. reflexivity. }
    split.
    + rewrite Ha. field. lra.
    + intros _.
      assert (Hr : RiskModel.avgReturnPct
                     (RiskModel.computeMetrics AdvancedMetrics.initialBalance
                                               trades)
                   = JS.div (JS.sum (Fin 0)
                               (RiskModel.tradeReturns
                                  AdvancedMetrics.initialBalance trades))
                            (Fin (RiskModel.count
                                    (RiskModel.tradeReturns
                                       AdvancedMetrics.initialBalance trades))))
        by reflexivity.
      rewrite Hr.
      assert (Hib : ~ AdvancedMetrics.initialBalance == 0) by discriminate.
      rewrite (tradeReturns_finite _ _ Hib), sum_Fin.
      assert (Hn' : RiskModel.count
                      (map Fin (map (returnPct AdvancedMetrics.initialBalance)
                                    trades))
                    = RiskModel.count trades)
        by (apply count_length; rewrite !length_map; reflexivity).
      rewrite Hn'. cbn [JS.div].
      assert (Hz : Qeq_bool (RiskModel.count trades) 0 = false)
        by (apply Qeq_bool_false; lra).
      rewrite Hz. eexists. split; [reflexivity|].
      rewrite Ha, (returnPct_sum _ _ Hib).
      unfold AdvancedMetrics.initialBalance. field. lra.
Qed.

Lemma fold_sq_shift (mu : Q) (l : list Q) (a : Q) :
  fold_left (fun s r => s + (r - mu) * (r - mu)) l a
  == a + fold_left (fun s r => s + (r - mu) * (r - mu)) l 0.
Proof.
  revert a. induction l as [|r l IH]; intro a; cbn [fold_left].
  - lra.
  - rewrite IH, (IH (0 + _)). lra.
Qed.

Lemma square_nonneg (x : Q) : 0 <= x * x.
Proof.
  destruct (Qlt_le_dec x 0) as [H|H].
  - setoid_replace (x * x) with ((- x) * (- x)) by ring.
    apply Qmult_le_0_compat; lra.
  - apply Qmult_le_0_compat; assumption.
Qed.

Lemma fold_sq_nonneg (mu : Q) (l : list Q) :
  0 <= fold_left (fun s r => s + (r - mu) * (r - mu)) l 0.
Proof.
  induction l as [|r l IH]; cbn [fold_left]; [lra|].
  rewrite fold_sq_shift. pose proof (square_nonneg (r - mu)). lra.
Qed.

(** X25.  The variance AdvancedStats takes the square root of for
    [stdDev] is never negative, so [stdDev] is never NaN; with a single
    trade, or none, it is 0. *)
Theorem variance_never_negative (trades : list Trade) :
  0 <= AdvancedMetrics.variance trades
  /\ ((List.length trades <= 1)%nat -> AdvancedMetrics.variance trades == 0).
Proof.
  split.
  - destruct trades as [|t0 ts]; [cbn; lra|].
    set (trades := t0 :: ts).
    assert (Hne : AdvancedMetrics.returns trades <> []) by discriminate.
    pose proof (count_pos _ Hne) as Hc.
    pose proof (fold_sq_nonneg (AdvancedMetrics.mean trades)
                               (AdvancedMetrics.returns trades)) as HS.
    change (AdvancedMetrics.variance trades)
      with (fold_left (fun s r => s + (r - AdvancedMetrics.mean trades)
                                      * (r - AdvancedMetrics.mean trades))
                      (AdvancedMetrics.returns trades) 0
            / RiskModel.count (AdvancedMetrics.returns trades)).
    apply Qle_shift_div_l; [exact Hc|]. lra.
  - intro Hlen. destruct trades as [|t [|u ts]];
      [reflexivity| |cbn [List.length] in Hlen; lia].
    unfold AdvancedMetrics.variance, AdvancedMetrics.mean,
      AdvancedMetrics.sumOf, AdvancedMetrics.returns.
    cbn [map fold_left].
    change (RiskModel.count [net_profit t / AdvancedMetrics.initialBalance])
      with 1.
    unfold AdvancedMetrics.initialBalance. field.
Qed.

(** ** RiskOfRuin: the loss levels *)

Lemma results_eq (trades : list Trade) :
  trades <> [] ->
  RiskOfRuin.results trades
  = map (RiskOfRuin.result (ruinWinRate trades) (ruinLossPerTrade trades))
        RiskOfRuin.lossLevels.
Proof. destruct trades as [|t ts]; [congruence|]. reflexivity. Qed.

Lemma result_losses (w lpta l : Q) :
  RiskOfRuin.consecutiveLosses (RiskOfRuin.result w lpta l)
  = JS.max (Fin 1) (lossesNeeded lpta l).
Proof. reflexivity. Qed.

Lemma ruinWinRate_bounds (trades : list Trade) :
  trades <> [] -> 0 <= ruinWinRate trades <= 1.
Proof.
  intro Hne. unfold ruinWinRate.
  change (@RiskOfRuin.count) with (@RiskModel.count).
  pose proof (count_pos trades Hne) as Hc.
  pose proof (count_nonneg (filter RiskOfRuin.isWin trades)) as H0.
  pose proof (count_le (filter RiskOfRuin.isWin trades) trades
                (filter_length_le _ _)) as H1.
  split.
  - apply Qle_shift_div_l; [exact Hc|]. lra.
  - apply Qle_shift_div_r; [exact Hc|]. lra.
Qed.

Lemma ruinLossPerTrade_pos (trades : list Trade) :
  0 < ruinLossPerTrade trades.
Proof.
  unfold ruinLossPerTrade.
  change (@RiskOfRuin.count) with (@RiskModel.count).
  destruct (filter RiskOfRuin.isLoss trades) as [|x l] eqn:E.
  - reflexivity.
  - apply Qlt_shift_div_l; [reflexivity|].
    assert (Hne : x :: l <> []) by discriminate.
    pose proof (count_pos _ Hne) as Hc.
    assert (Hneg : Forall (fun t => net_profit t < 0) (x :: l)).
    { rewrite <- E. apply Forall_forall. intros t Ht.
      apply filter_In in Ht. destruct Ht as [_ Ht].
      unfold RiskOfRuin.isLoss in Ht. qcases. exact Ht. }
    assert (Hs : fold_left (fun s t => s + net_profit t) (x :: l) 0 < 0).
    { change (sum_net_profit (x :: l) < 0).
      clear E Hne Hc. induction l as [|y l IH].
      - inversion Hneg; subst. rewrite sum_net_profit_cons.
        change (sum_net_profit []) with 0. lra.
      - inversion Hneg as [|? ? Hx Hr]; subst.
        inversion Hr as [|? ? Hy Hl]; subst.
        assert (IH' : sum_net_profit (x :: l) < 0)
          by (apply IH; constructor; assumption).
        rewrite !sum_net_profit_cons in *. lra. }
    set (S := fold_left (fun s t => s + net_profit t) (x :: l) 0) in *.
    assert (Hq : S / RiskModel.count (x :: l) < 0).
    { assert (E1 : S / RiskModel.count (x :: l)
                   == - ((- S) / RiskModel.count (x :: l)))
        by (field; lra).
      assert (0 < (- S) / RiskModel.count (x :: l))
        by (apply Qlt_shift_div_l; lra).
      lra. }
    rewrite Qabs_neg by lra. lra.
Qed.

Lemma pow_Fin_nonneg (x : Q) (n : Z) :
  (0 <= n)%Z -> JS.pow (Fin x) (Fin (inject_Z n)) = Fin (Qpower x n).
Proof.
  intro Hn. destruct (Z.eq_dec n 0) as [->|Hz]; [reflexivity|].
  apply pow_Fin_pos. lia.
Qed.

Lemma Qpower_unit_interval (x : Q) (n : Z) :
  0 <= x <= 1 -> (0 <= n)%Z -> 0 <= Qpower x n <= 1.
Proof.
  intros Hx Hn. split; [apply Qpower_0_le; lra|].
  rewrite <- (Z2Nat.id n Hn). apply Qpower_le_1. exact Hx.
Qed.

Lemma Qpower_antitone_nonneg (x : Q) (n k : Z) :
  0 <= x <= 1 -> (0 <= n <= k)%Z -> Qpower x k <= Qpower x n.
Proof.
  intros Hx [Hn Hk]. destruct (Z.eq_dec n 0) as [->|Hz].
  - change (x ^ 0) with 1. apply Qpower_unit_interval; [exact Hx|lia].
  - apply Qpower_antitone; [exact Hx|lia].
Qed.

Lemma clamp_within (p : Q) :
  0 <= p <= 100 ->
  exists q, RiskOfRuin.clamp (Fin p) = Fin q /\ q == p.
Proof.
  intros [H0 H1]. unfold RiskOfRuin.clamp. cbn [JS.min JS.le].
  destruct (Qle_bool 100 p) eqn:E; cbn [JS.max JS.le].
  - apply Qle_bool_iff in E. exists 100. split; [reflexivity|lra].
  - assert (L : Qle_bool 0 p = true) by (apply Qle_bool_iff; exact H0).
    rewrite L. exists p. split; reflexivity.
Qed.

(** The probability [result] derives from a natural count of losses. *)
Lemma result_probability (w lpta l : Q) (n : Z) :
  0 <= w <= 1 -> lossesNeeded lpta l = Fin (inject_Z n) -> (0 <= n)%Z ->
  (Qgtb w (1 # 2) = true
   /\ exists q, RiskOfRuin.probability (RiskOfRuin.result w lpta l)
                = RiskOfRuin.Exact (Fin q)
                /\ q == Qpower ((1 - w) / w) n * 100
                /\ 0 <= (1 - w) / w <= 1)
  \/ (Qgtb w (1 # 2) = false
      /\ RiskOfRuin.probability (RiskOfRuin.result w lpta l)
         = RiskOfRuin.Root10 (Qpower (1 - w) n * Qpower 100 10)).
Proof.
  intros [Hw0 Hw1] Hn Hn0.
  unfold RiskOfRuin.result. cbn [RiskOfRuin.probability].
  fold (lossesNeeded lpta l). rewrite Hn.
  destruct (Qgtb w (1 # 2)) eqn:G.
  - left. split; [reflexivity|]. qcases. cbn [JS.div].
    assert (Hz : Qeq_bool w 0 = false) by (apply Qeq_bool_false; lra).
    rewrite Hz, pow_Fin_nonneg by exact Hn0. cbn [JS.mul].
    assert (Hx : 0 <= (1 - w) / w <= 1).
    { split; [apply Qle_shift_div_l|apply Qle_shift_div_r]; lra. }
    pose proof (Qpower_unit_interval _ n Hx Hn0) as [Hp0 Hp1].
    destruct (clamp_within (((1 - w) / w) ^ n * 100)) as (q & Hq & Eq);
      [split; lra|].
    exists q. rewrite Hq. split; [reflexivity|]. split; [exact Eq|exact Hx].
  - right. split; [reflexivity|].
    rewrite as_integer_inject.
    assert ((0 <=? n)%Z = true) as -> by (apply Z.leb_le; exact Hn0).
    reflexivity.
Qed.

Lemma ceiling_pos (x : Q) : 0 < x -> (1 <= Qceiling x)%Z.
Proof.
  intro H. pose proof (Qle_ceiling x) as Hc.
  assert (0 < inject_Z (Qceiling x)) as Hp by lra.
  change 0 with (inject_Z 0) in Hp. rewrite <- Zlt_Qlt in Hp. lia.
Qed.

Lemma fallback_losses (lpta l : Q) :
  0 < lpta -> 0 < l ->
  JS.ceil (JS.div (Fin l) (Fin (lpta * 100)))
  = Fin (inject_Z (Qceiling (l / (lpta * 100))))
  /\ (1 <= Qceiling (l / (lpta * 100)))%Z.
Proof.
  intros Hp Hl. cbn [JS.div].
  assert (Hz : Qeq_bool (lpta * 100) 0 = false)
    by (apply Qeq_bool_false; lra).
  rewrite Hz. split; [reflexivity|].
  apply ceiling_pos. apply Qlt_shift_div_l; lra.
Qed.

(** The count of losses at a level below 100, by the sign of the base
    [1 - lossPerTradeAvg] of the logarithm. *)
Lemma lossesNeeded_below_100 (lpta l : Q) :
  0 < lpta -> 0 < l -> l < 100 ->
  let b := 1 - lpta in
  let r := (100 - l) / 100 in
  (0 < b
   /\ exists n, lossesNeeded lpta l = Fin (inject_Z n)
                /\ (0 <= n)%Z /\ b ^ n <= r
                /\ (forall k, (0 <= k < n)%Z -> r < b ^ k))
  \/ (b == 0 /\ lossesNeeded lpta l = Fin (inject_Z 0))
  \/ (b < 0
      /\ lossesNeeded lpta l = Fin (inject_Z (Qceiling (l / (lpta * 100))))).
Proof.
  intros Hp Hl0 Hl1. cbv zeta.
  set (b := 1 - lpta). set (r := (100 - l) / 100).
  assert (Hr0 : 0 < r) by (unfold r; apply Qlt_shift_div_l; lra).
  assert (Hr1 : r < 1) by (unfold r; apply Qlt_shift_div_r; lra).
  assert (Hb1 : b < 1) by (unfold b; lra).
  unfold lossesNeeded. fold b. fold r.
  assert (G : Qgtb lpta 0 = true) by (apply Qgtb_gt; exact Hp).
  rewrite G. unfold RiskOfRuin.ceil_log_ratio.
  assert (T1 : Qltb r 0 = false) by (apply Qltb_ge; lra).
  assert (T2 : Qle_bool 1 r = false) by (apply Qle_bool_gt; exact Hr1).
  assert (T3 : Qle_bool 1 b = false) by (apply Qle_bool_gt; exact Hb1).
  assert (T4 : Qeq_bool r 0 = false) by (apply Qeq_bool_false; lra).
  rewrite T1, T2, T3, T4. cbn [orb].
  destruct (Qltb b 0) eqn:B0.
  - right. right. qcases. split; [exact B0|].
    cbn [JS.lt JS.isFinite negb orb].
    apply (fallback_losses lpta l Hp Hl0).
  - qcases. destruct (Qeq_bool b 0) eqn:B1.
    + right. left. apply Qeq_bool_iff in B1. split; [exact B1|reflexivity].
    + qcases. left. assert (Hb0 : 0 < b) by lra. split; [exact Hb0|].
      destruct (least_exp_total b r Hb0 Hb1 Hr0) as (n & Hn & Hn0 & Hle & Hmin).
      rewrite Hn. exists n.
      assert (L : JS.lt (Fin (inject_Z n)) (Fin 0) = false).
      { cbn [JS.lt]. apply Qltb_ge. change 0 with (inject_Z 0).
        rewrite <- Zle_Qle. exact Hn0. }
      rewrite L. cbn [JS.isFinite negb orb].
      repeat split; assumption.
Qed.

(** At the 100% level the logarithm of the remaining share is not finite
    and the fall-back count is used. *)
Lemma lossesNeeded_at_100 (lpta : Q) :
  0 < lpta ->
  lossesNeeded lpta 100
  = Fin (inject_Z (Qceiling (100 / (lpta * 100)))).
Proof.
  intro Hp. unfold lossesNeeded.
  assert (G : Qgtb lpta 0 = true) by (apply Qgtb_gt; exact Hp).
  rewrite G. unfold RiskOfRuin.ceil_log_ratio.
  change (Qltb ((100 - 100) / 100) 0) with false.
  change (Qle_bool 1 ((100 - 100) / 100)) with false.
  change (Qeq_bool ((100 - 100) / 100) 0) with true.
  assert (T3 : Qle_bool 1 (1 - lpta) = false) by (apply Qle_bool_gt; lra).
  rewrite T3. cbn [orb].
  destruct (fallback_losses lpta 100 Hp ltac:(lra)) as [F _].
  destruct (Qltb (1 - lpta) 0); [exact F|].
  destruct (Qeq_bool (1 - lpta) 0); exact F.
Qed.

Lemma lossesNeeded_natural (lpta l : Q) :
  0 < lpta -> 0 < l -> l <= 100 ->
  exists n, lossesNeeded lpta l = Fin (inject_Z n) /\ (0 <= n)%Z.
Proof.
  intros Hp Hl0 Hl1.
  destruct (Qlt_le_dec l 100) as [Hlt|Hge].
  - destruct (lossesNeeded_below_100 lpta l Hp Hl0 Hlt)
      as [(_ & n & Hn & Hn0 & _)|[(_ & Hn)|(_ & Hn)]].
    + exists n. split; assumption.
    + exists 0%Z. split; [exact Hn|lia].
    + eexists. split; [exact Hn|].
      pose proof (proj2 (fallback_losses lpta l Hp Hl0)). lia.
  - assert (E : l == 100) by lra.
    assert (El : lossesNeeded lpta l = lossesNeeded lpta 100
                 \/ exists n, lossesNeeded lpta l = Fin (inject_Z n)
                              /\ (0 <= n)%Z).
    { right. unfold lossesNeeded.
      assert (G : Qgtb lpta 0 = true) by (apply Qgtb_gt; exact Hp).
      rewrite G. unfold RiskOfRuin.ceil_log_ratio.
      assert (Hr : (100 - l) / 100 == 0) by (rewrite E; reflexivity).
      assert (T1 : Qltb ((100 - l) / 100) 0 = false)
        by (apply Qltb_ge; lra).
      assert (T2 : Qle_bool 1 ((100 - l) / 100) = false)
        by (apply Qle_bool_gt; lra).
      assert (T3 : Qle_bool 1 (1 - lpta) = false)
        by (apply Qle_bool_gt; lra).
      assert (T4 : Qeq_bool ((100 - l) / 100) 0 = true)
        by (apply Qeq_bool_iff; exact Hr).
      rewrite T1, T2, T3, T4. cbn [orb].
      destruct (fallback_losses lpta l Hp Hl0) as [F F1].
      eexists.
      split; [|eapply Z.le_trans; [|exact F1]; lia].
      destruct (Qltb (1 - lpta) 0); [exact F|].
      destruct (Qeq_bool (1 - lpta) 0); exact F. }
    destruct El as [El|El]; [|exact El].
    rewrite El, (lossesNeeded_at_100 lpta Hp).
    eexists. split; [reflexivity|].
    pose proof (proj2 (fallback_losses lpta 100 Hp ltac:(lra))). lia.
Qed.

Lemma lossLevels_range (l : Q) :
  In l RiskOfRuin.lossLevels -> 0 < l /\ l <= 100.
Proof.
  unfold RiskOfRuin.lossLevels. cbn [In].
  intros [<-|[<-|[<-|[<-|[<-|[<-|[<-|[<-|[<-|[<-|[]]]]]]]]]]]; split;
    reflexivity || discriminate.
Qed.

(** X26.  Every row of RiskOfRuin reports a whole number of consecutive
    losses that is at least 1, and a probability between 0 and 100, for
    every non-empty trade list; the rows are those of the ten loss levels,
    from 100% down to 10%. *)
Theorem ruin_rows_within_range (trades : list Trade) :
  trades <> [] ->
  map RiskOfRuin.lossSize (RiskOfRuin.results trades) = RiskOfRuin.lossLevels
  /\ Forall (fun r =>
               (exists n, RiskOfRuin.consecutiveLosses r = Fin (inject_Z n)
                          /\ (1 <= n)%Z)
               /\ withinPercent (RiskOfRuin.probability r))
            (RiskOfRuin.results trades).
Proof.
  intro Hne. rewrite (results_eq trades Hne).
  pose proof (ruinWinRate_bounds trades Hne) as Hw.
  pose proof (ruinLossPerTrade_pos trades) as Hp.
  set (w := ruinWinRate trades) in *. set (lpta := ruinLossPerTrade trades) in *.
  split.
  - rewrite map_map. cbn [RiskOfRuin.result RiskOfRuin.lossSize].
    apply map_id.
  - apply Forall_map, Forall_forall. intros l Hl.
    destruct (lossLevels_range l Hl) as [Hl0 Hl1].
    destruct (lossesNeeded_natural lpta l Hp Hl0 Hl1) as (n & Hn & Hn0).
    split.
    + rewrite result_losses, Hn. cbn [JS.max JS.le].
      destruct (Qle_bool 1 (inject_Z n)) eqn:E.
      * exists n. split; [reflexivity|].
        apply Qle_bool_iff in E. change 1 with (inject_Z 1) in E.
        rewrite <- Zle_Qle in E. exact E.
      * exists 1%Z. split; [reflexivity|lia].
    + destruct (result_probability w lpta l n Hw Hn Hn0)
        as [(_ & q & -> & Eq & Hx)|(_ & ->)]; cbn [withinPercent].
      * pose proof (Qpower_unit_interval _ n Hx Hn0). lra.
      * assert (Hlr : 0 <= 1 - w <= 1) by lra.
        pose proof (Qpower_unit_interval _ n Hlr Hn0) as [H0 H1].
        assert (H100 : 0 < Qpower 100 10) by reflexivity.
        split.
        -- apply Qmult_le_0_compat; lra.
        -- setoid_replace (Qpower 100 10) with (1 * Qpower 100 10) at 2
             by ring.
           apply Qmult_le_compat_r; lra.
Qed.

Lemma ruin_rows_within_range_witness :
  map RiskOfRuin.lossSize (RiskOfRuin.results usual_loss)
  = RiskOfRuin.lossLevels
  /\ Forall (fun r =>
               (exists n, RiskOfRuin.consecutiveLosses r = Fin (inject_Z n)
                          /\ (1 <= n)%Z)
               /\ withinPercent (RiskOfRuin.probability r))
            (RiskOfRuin.results usual_loss).
Proof.
  apply (ruin_rows_within_range usual_loss). discriminate.
Defined.

Lemma lossesNeeded_monotone (lpta l1 l2 : Q) :
  0 < lpta -> 0 < l1 -> l1 <= l2 -> l2 < 100 ->
  exists n1 n2,
    lossesNeeded lpta l1 = Fin (inject_Z n1)
    /\ lossesNeeded lpta l2 = Fin (inject_Z n2)
    /\ (0 <= n1 <= n2)%Z.
Proof.
  intros Hp Hl1 Hle Hl2.
  assert (Hr : (100 - l2) / 100 <= (100 - l1) / 100).
  { unfold Qdiv. apply Qmult_le_compat_r; [lra|discriminate]. }
  destruct (lossesNeeded_below_100 lpta l1 Hp Hl1 ltac:(lra))
    as [(Hb & n1 & Hn1 & Hn10 & Hle1 & Hmin1)|[(Hb & Hn1)|(Hb & Hn1)]];
    destruct (lossesNeeded_below_100 lpta l2 Hp ltac:(lra) Hl2)
      as [(Hb' & n2 & Hn2 & Hn20 & Hle2 & Hmin2)|[(Hb' & Hn2)|(Hb' & Hn2)]];
    try (exfalso; lra).
  - exists n1, n2. split; [exact Hn1|]. split; [exact Hn2|].
    split; [exact Hn10|].
    destruct (Z.le_gt_cases n1 n2) as [H|H]; [exact H|].
    exfalso. specialize (Hmin1 n2 ltac:(lia)). lra.
  - exists 0%Z, 0%Z. split; [exact Hn1|]. split; [exact Hn2|]. lia.
  - eexists. eexists. split; [exact Hn1|]. split; [exact Hn2|].
    pose proof (proj2 (fallback_losses lpta l1 Hp Hl1)).
    split; [lia|].
    apply Qceiling_resp_le. unfold Qdiv.
    apply Qmult_le_compat_r; [exact Hle|].
    apply Qlt_le_weak, Qinv_lt_0_compat. lra.
Qed.

(** X27.  Below the 100% level the rows of RiskOfRuin are ordered as one
    expects: a deeper loss level needs at least as many consecutive losses
    and is at most as probable.  The 100% level is left out: there the
    logarithm is not finite and the fall-back count takes over. *)
Theorem ruin_probability_monotone_below_100
        (trades : list Trade) (r1 r2 : RiskOfRuin.LossLevel) :
  In r1 (RiskOfRuin.results trades) -> In r2 (RiskOfRuin.results trades) ->
  RiskOfRuin.lossSize r1 <= RiskOfRuin.lossSize r2 ->
  RiskOfRuin.lossSize r2 < 100 ->
  JS.le (RiskOfRuin.consecutiveLosses r1) (RiskOfRuin.consecutiveLosses r2)
  = true
  /\ RiskOfRuin.Prob_le (RiskOfRuin.probability r2)
                        (RiskOfRuin.probability r1) = true.
Proof.
  intros H1 H2 Hle Hlt.
  assert (Hne : trades <> []) by (intros ->; exact H1).
  rewrite (results_eq trades Hne) in H1, H2.
  pose proof (ruinWinRate_bounds trades Hne) as Hw.
  pose proof (ruinLossPerTrade_pos trades) as Hp.
  set (w := ruinWinRate trades) in *. set (lpta := ruinLossPerTrade trades) in *.
  apply in_map_iff in H1. destruct H1 as (l1 & <- & Hl1).
  apply in_map_iff in H2. destruct H2 as (l2 & <- & Hl2).
  change (l1 <= l2) in Hle. change (l2 < 100) in Hlt.
  destruct (lossLevels_range l1 Hl1) as [Hl10 _].
  destruct (lossesNeeded_monotone lpta l1 l2 Hp Hl10 Hle Hlt)
    as (n1 & n2 & Hn1 & Hn2 & Hn10 & Hn12).
  split.
  - rewrite !result_losses, Hn1, Hn2.
    assert (Hq : inject_Z n1 <= inject_Z n2) by (rewrite <- Zle_Qle; exact Hn12).
    cbn [JS.max JS.le].
    destruct (Qle_bool 1 (inject_Z n1)) eqn:E1;
      destruct (Qle_bool 1 (inject_Z n2)) eqn:E2; cbn [JS.le]; qcases;
      apply Qle_bool_iff; lra.
  - destruct (result_probability w lpta l1 n1 Hw Hn1 Hn10)
      as [(G1 & q1 & -> & Eq1 & Hx)|(G1 & ->)];
      destruct (result_probability w lpta l2 n2 Hw Hn2 ltac:(lia))
        as [(G2 & q2 & -> & Eq2 & _)|(G2 & ->)];
      try congruence; cbn [RiskOfRuin.Prob_le JS.le]; apply Qle_bool_iff.
    + rewrite Eq1, Eq2.
      apply Qmult_le_compat_r; [|discriminate].
      apply Qpower_antitone_nonneg; [exact Hx|lia].
    + apply Qmult_le_compat_r; [|discriminate].
      apply Qpower_antitone_nonneg; [lra|lia].
Qed.

Lemma ruin_probability_monotone_below_100_witness :
  let r1 := RiskOfRuin.result (ruinWinRate usual_loss)
                              (ruinLossPerTrade usual_loss) 50 in
  let r2 := RiskOfRuin.result (ruinWinRate usual_loss)
                              (ruinLossPerTrade usual_loss) 80 in
  JS.le (RiskOfRuin.consecutiveLosses r1) (RiskOfRuin.consecutiveLosses r2)
  = true
  /\ RiskOfRuin.Prob_le (RiskOfRuin.probability r2)
                        (RiskOfRuin.probability r1) = true.
Proof.
  intros r1 r2.
  apply (ruin_probability_monotone_below_100 usual_loss r1 r2).
  - rewrite results_eq by discriminate. apply in_map.
    unfold RiskOfRuin.lossLevels. cbn [In]. tauto.
  - rewrite results_eq by discriminate. apply in_map.
    unfold RiskOfRuin.lossLevels. cbn [In]. tauto.
  - discriminate.
  - reflexivity.
Defined.

(** ** ChartPanel: the points of the chart *)













(** ** MAEMFEChart: the estimated adverse excursion *)

Lemma estimatePips_finite (t : Trade) :
  0 < volume t ->
  exists x, estimatePips t = Fin x
            /\ (0 < net_profit t -> 0 < x)
            /\ (net_profit t <= 0 -> x <= 0).
Proof.
  intro Hv. unfold estimatePips.
  assert (Hz : Qeq_bool (volume t) 0 = false) by (apply Qeq_bool_false; lra).
  assert (Hq : forall p, (0 < p -> 0 < p / volume t)
                         /\ (p <= 0 -> p / volume t <= 0)).
  { intro p. split; intro Hp.
    - apply Qlt_shift_div_l; lra.
    - apply Qle_shift_div_r; lra. }
  destruct (Hq (net_profit t)) as [Hpos Hneg].
  destruct (includes "xau" (toLowerCase (symbol t))); cbn [JS.div JS.mul];
    rewrite Hz; cbn [JS.div JS.mul].
  - change (Qeq_bool 10 0) with false. cbv iota.
    eexists. split; [reflexivity|]. split; intro Hp.
    + apply Qlt_shift_div_l; [reflexivity|]. specialize (Hpos Hp). lra.
    + apply Qle_shift_div_r; [reflexivity|]. specialize (Hneg Hp). lra.
  - eexists. split; [reflexivity|]. split; intro Hp.
    + specialize (Hpos Hp). lra.
    + specialize (Hneg Hp). lra.
Qed.

Lemma point_bounds (random : Q) (t : Trade) :
  0 <= random < 1 -> 0 < volume t ->
  let p := MAEMFEChart.point random t in
  MAEMFEChart.profit p = net_profit t
  /\ MAEMFEChart.isWinner p = Qgtb (net_profit t) 0
  /\ exists x m,
       MAEMFEChart.pips p = Fin x /\ MAEMFEChart.mae p = Fin m
       /\ (0 < net_profit t -> 0 < x /\ - ((3 # 10) * x) < m /\ m <= 0)
       /\ (net_profit t <= 0 -> x <= 0 /\ (3 # 2) * x <= m /\ m <= x).
Proof.
  intros [Hr0 Hr1] Hv. cbv zeta. unfold MAEMFEChart.point.
  cbn [MAEMFEChart.profit MAEMFEChart.isWinner MAEMFEChart.pips
       MAEMFEChart.mae].
  split; [reflexivity|]. split; [reflexivity|].
  destruct (estimatePips_finite t Hv) as (x & Hx & Hpos & Hneg).
  rewrite Hx. exists x.
  destruct (Qgtb (net_profit t) 0) eqn:G; qcases.
  - specialize (Hpos G). cbn [JS.abs JS.neg JS.mul].
    eexists. split; [reflexivity|]. split; [reflexivity|].
    split; [|intro; lra]. intros _.
    rewrite (Qabs_pos x) by lra.
    assert (Hm : 0 <= x * random) by (apply Qmult_le_0_compat; lra).
    assert (Hm' : x * random < x * 1)
      by (apply Qmult_lt_l; [exact Hpos|exact Hr1]).
    split; [exact Hpos|]. split; lra.
  - specialize (Hneg G). cbn [JS.mul].
    eexists. split; [reflexivity|]. split; [reflexivity|].
    split; [intro; lra|]. intros _.
    assert (Hm : 0 <= (- x) * random) by (apply Qmult_le_0_compat; lra).
    assert (Hm' : 0 <= (- x) * (1 - random))
      by (apply Qmult_le_0_compat; lra).
    split; [exact Hneg|]. split; lra.
Qed.

(** X29.  MAEMFEChart puts every trade in exactly one of its two series, a
    trade with a positive net profit among the winners and any other among
    the losers.  With draws of [Math.random()] in [0, 1) and positive
    volumes, a winner's estimated MAE lies between -30% of its pips
    (excluded) and 0, and a loser's between 150% of its (non-positive) pips
    and its pips. *)
Theorem mae_estimates_within_bounds (draws : nat -> Q) (trades : list Trade) :
  (forall i, 0 <= draws i < 1) ->
  Forall (fun t => 0 < volume t) trades ->
  Forall (fun p =>
            MAEMFEChart.isWinner p = true /\ 0 < MAEMFEChart.profit p
            /\ exists x m,
                 MAEMFEChart.pips p = Fin x /\ MAEMFEChart.mae p = Fin m
                 /\ 0 < x /\ - ((3 # 10) * x) < m /\ m <= 0)
         (fst (MAEMFEChart.points draws trades))
  /\ Forall (fun p =>
               MAEMFEChart.isWinner p = false /\ MAEMFEChart.profit p <= 0
               /\ exists x m,
                    MAEMFEChart.pips p = Fin x /\ MAEMFEChart.mae p = Fin m
                    /\ x <= 0 /\ (3 # 2) * x <= m /\ m <= x)
            (snd (MAEMFEChart.points draws trades))
  /\ (List.length (fst (MAEMFEChart.points draws trades))
      + List.length (snd (MAEMFEChart.points draws trades))
      = List.length trades)%nat.
Proof.
  intros Hd Hv. unfold MAEMFEChart.points. generalize 0%nat.
  induction Hv as [|t ts Ht Hts IH]; intro i.
  - cbn. repeat split; constructor.
  - cbn [MAEMFEChart.points_from].
    destruct (IH (S i)) as (Hw & Hl & Hn).
    destruct (MAEMFEChart.points_from draws (S i) ts) as [ws ls].
    cbn [fst snd] in Hw, Hl, Hn.
    destruct (point_bounds (draws i) t (Hd i) Ht)
      as (Hp & Hi & x & m & Hx & Hm & Hpos & Hneg).
    cbv zeta in Hp, Hi, Hx, Hm.
    destruct (MAEMFEChart.isWinner (MAEMFEChart.point (draws i) t)) eqn:E;
      cbn [fst snd List.length]; symmetry in Hi.
    + qcases. specialize (Hpos Hi). split; [|split; [exact Hl|lia]].
      constructor; [|exact Hw].
      split; [exact E|]. split; [rewrite Hp; exact Hi|].
      exists x, m. tauto.
    + qcases. specialize (Hneg Hi). split; [exact Hw|split; [|lia]].
      constructor; [|exact Hl].
      split; [exact E|]. split; [rewrite Hp; exact Hi|].
      exists x, m. tauto.
Qed.

Lemma mae_estimates_within_bounds_witness :
  let draws := fun _ : nat => 1 # 2 in
  Forall (fun p =>
            MAEMFEChart.isWinner p = true /\ 0 < MAEMFEChart.profit p
            /\ exists x m,
                 MAEMFEChart.pips p = Fin x /\ MAEMFEChart.mae p = Fin m
                 /\ 0 < x /\ - ((3 # 10) * x) < m /\ m <= 0)
         (fst (MAEMFEChart.points draws usual_loss))
  /\ Forall (fun p =>
               MAEMFEChart.isWinner p = false /\ MAEMFEChart.profit p <= 0
               /\ exists x m,
                    MAEMFEChart.pips p = Fin x /\ MAEMFEChart.mae p = Fin m
                    /\ x <= 0 /\ (3 # 2) * x <= m /\ m <= x)
            (snd (MAEMFEChart.points draws usual_loss))
  /\ (List.length (fst (MAEMFEChart.points draws usual_loss))
      + List.length (snd (MAEMFEChart.points draws usual_loss))
      = List.length usual_loss)%nat.
Proof.
  intro draws. apply (mae_estimates_within_bounds draws usual_loss).
  - intro i. split; [discriminate|reflexivity].
  - repeat constructor.
Defined.

(** ** RiskModel: the drawdown risk table *)

(** X30.  RiskModel's drawdown table has one row per level (10, 20, 30 and
    50%); every probability in it is a number between 0 and 100, and the
    probability does not increase with the level. *)
Theorem riskTable_probabilities_ordered
        (initialBalance : Q) (trades : list Trade) (m : RiskModel.Metrics) :
  RiskModel.riskMetrics initialBalance trades = Some m ->
  map RiskModel.row_level (RiskModel.riskTable m) = RiskModel.drawdownLevels
  /\ Forall (fun r => exists p, RiskModel.probability r = Fin p
                                /\ 0 <= p <= 100)
            (RiskModel.riskTable m)
  /\ forall r1 r2,
       In r1 (RiskModel.riskTable m) -> In r2 (RiskModel.riskTable m) ->
       RiskModel.row_level r1 <= RiskModel.row_level r2 ->
       JS.le (RiskModel.probability r2) (RiskModel.probability r1) = true.
Proof.
  intro Hm. split; [|split].
  - unfold RiskModel.riskTable.
    rewrite (consecutiveLosses_eq _ _ _ Hm), !map_map.
    destruct (JS.le (RiskModel.avgLossPct m) (Fin 0)); apply map_id.
  - apply Forall_forall. intros r Hr.
    pose proof (winRate_fraction_bounds _ _ _ Hm) as [Hw0 Hw1].
    assert (Hl : 0 <= 1 - RiskModel.winRate m / 100 <= 1) by (split; lra).
    destruct (riskTable_rows _ _ _ Hm r Hr)
      as [_ [(_ & _ & P)|[(_ & P)|(al & _ & _ & Hn & P)]]]; rewrite P.
    + pose proof (Qpower_unit_interval _ 999 Hl ltac:(lia)) as [H0 H1].
      set (q := Qpower _ 999) in *. eexists. split; [reflexivity|].
      split; lra.
    + eexists. split; [reflexivity|]. split; discriminate.
    + pose proof (Qpower_unit_interval _ _ Hl (Z.lt_le_incl _ _ Hn))
        as [H0 H1].
      set (q := Qpower _ _) in *. eexists. split; [reflexivity|].
      split; lra.
  - intros r1 r2. apply (riskTable_monotone _ _ _ Hm).
Qed.

Lemma riskTable_probabilities_ordered_witness :
  let m := RiskModel.computeMetrics 1000 usual_loss in
  map RiskModel.row_level (RiskModel.riskTable m) = RiskModel.drawdownLevels
  /\ Forall (fun r => exists p, RiskModel.probability r = Fin p
                                /\ 0 <= p <= 100)
            (RiskModel.riskTable m)
  /\ forall r1 r2,
       In r1 (RiskModel.riskTable m) -> In r2 (RiskModel.riskTable m) ->
       RiskModel.row_level r1 <= RiskModel.row_level r2 ->
       JS.le (RiskModel.probability r2) (RiskModel.probability r1) = true.
Proof.
  intro m. apply (riskTable_probabilities_ordered 1000 usual_loss m).
  reflexivity.
Defined.

(** ** What the components depend on besides their props *)

Lemma today_of_localDay (h : PeriodsComparison.Host) :
  PeriodsComparison.today h
  = (localDay h * PeriodsComparison.day_ms - PeriodsComparison.tz h)%Z.
Proof. reflexivity. Qed.

Lemma midnight_shift (h : PeriodsComparison.Host) (x k : Z) :
  DailyStats.midnight h (x + k * PeriodsComparison.day_ms)
  = (DailyStats.midnight h x + k * PeriodsComparison.day_ms)%Z.
Proof.
  unfold DailyStats.midnight.
  replace (x + k * PeriodsComparison.day_ms + PeriodsComparison.tz h)%Z
    with (x + PeriodsComparison.tz h + k * PeriodsComparison.day_ms)%Z
    by ring.
  rewrite Z.div_add by discriminate. ring.
Qed.

(** WeeklyChart shifts the clock reading and then goes to midnight;
    PeriodsComparison goes to midnight and then shifts: the same Monday. *)
Lemma monday_is_thisWeekStart (h : PeriodsComparison.Host) :
  WeeklyChart.monday h = PeriodsComparison.thisWeekStart h.
Proof.
  unfold WeeklyChart.monday, PeriodsComparison.thisWeekStart.
  cbv zeta. rewrite midnight_shift. reflexivity.
Qed.

(** Two readings on the same local day of the same zone give the same
    calendar. *)
Lemma same_day_same_fields (h1 h2 : PeriodsComparison.Host) :
  PeriodsComparison.tz h1 = PeriodsComparison.tz h2 ->
  localDay h1 = localDay h2 ->
  PeriodsComparison.today h1 = PeriodsComparison.today h2
  /\ PeriodsComparison.getDay h1 = PeriodsComparison.getDay h2
  /\ PeriodsComparison.getFullYear h1 = PeriodsComparison.getFullYear h2
  /\ PeriodsComparison.getMonth h1 = PeriodsComparison.getMonth h2.
Proof.
  intros Htz Hday.
  split; [rewrite !today_of_localDay, Hday, Htz; reflexivity|].
  unfold PeriodsComparison.getDay, PeriodsComparison.getFullYear,
    PeriodsComparison.getMonth.
  unfold localDay in Hday. rewrite Hday. repeat split; reflexivity.
Qed.

Lemma same_day_same_calendar (h1 h2 : PeriodsComparison.Host) :
  PeriodsComparison.tz h1 = PeriodsComparison.tz h2 ->
  localDay h1 = localDay h2 ->
  PeriodsComparison.today h1 = PeriodsComparison.today h2
  /\ PeriodsComparison.thisWeekStart h1 = PeriodsComparison.thisWeekStart h2
  /\ PeriodsComparison.lastWeekStart h1 = PeriodsComparison.lastWeekStart h2
  /\ PeriodsComparison.thisMonthStart h1 = PeriodsComparison.thisMonthStart h2
  /\ PeriodsComparison.lastMonthStart h1 = PeriodsComparison.lastMonthStart h2
  /\ PeriodsComparison.thisYearStart h1 = PeriodsComparison.thisYearStart h2
  /\ PeriodsComparison.lastYearStart h1 = PeriodsComparison.lastYearStart h2.
Proof.
  intros Htz Hday.
  destruct (same_day_same_fields h1 h2 Htz Hday) as (Ht & Hg & Hy & Hm).
  assert (Hw : PeriodsComparison.thisWeekStart h1
               = PeriodsComparison.thisWeekStart h2)
    by (unfold PeriodsComparison.thisWeekStart; rewrite Ht, Hg; reflexivity).
  split; [exact Ht|]. split; [exact Hw|].
  split; [unfold PeriodsComparison.lastWeekStart; rewrite Hw; reflexivity|].
  unfold PeriodsComparison.thisMonthStart, PeriodsComparison.lastMonthStart,
    PeriodsComparison.thisYearStart, PeriodsComparison.lastYearStart,
    PeriodsComparison.newDate.
  rewrite Hy, Hm, Htz. repeat split; reflexivity.
Qed.

(** A window that ends at the clock reading holds the same trades for two
    readings when no trade closes between them. *)
Lemma calculatePeriod_to_clock
      (h1 h2 : PeriodsComparison.Host) (trades : list Trade) (start : Z) :
  noCloseBetween h1 h2 trades ->
  PeriodsComparison.calculatePeriod trades start (PeriodsComparison.clock h1)
  = PeriodsComparison.calculatePeriod trades start
                                      (PeriodsComparison.clock h2).
Proof.
  intro Hno. unfold PeriodsComparison.calculatePeriod. cbv zeta.
  assert (E : filter (fun t => (start <=? time t)%Z
                               && (time t <? PeriodsComparison.clock h1)%Z)
                     trades
              = filter (fun t => (start <=? time t)%Z
                                 && (time t <? PeriodsComparison.clock h2)%Z)
                       trades).
  { apply filter_ext_in. intros t Ht.
    unfold noCloseBetween in Hno. rewrite Forall_forall in Hno.
    specialize (Hno t Ht). cbv beta in Hno. f_equal.
    destruct (Z.ltb_spec (time t) (PeriodsComparison.clock h1));
      destruct (Z.ltb_spec (time t) (PeriodsComparison.clock h2));
      try reflexivity; exfalso; apply Hno; lia. }
  rewrite E. reflexivity.
Qed.

Lemma periodsData_same_day
      (h1 h2 : PeriodsComparison.Host) (trades : list Trade) :
  PeriodsComparison.tz h1 = PeriodsComparison.tz h2 ->
  localDay h1 = localDay h2 ->
  noCloseBetween h1 h2 trades ->
  PeriodsComparison.periodsData h1 trades
  = PeriodsComparison.periodsData h2 trades.
Proof.
  intros Htz Hday Hno.
  destruct (same_day_same_calendar h1 h2 Htz Hday)
    as (Ht & Hw & Hlw & Hm & Hlm & Hy & Hly).
  unfold PeriodsComparison.periodsData, PeriodsComparison.todayRow,
    PeriodsComparison.weekRow, PeriodsComparison.monthRow,
    PeriodsComparison.yearRow.
  rewrite Ht, Hw, Hlw, Hm, Hlm, Hy, Hly.
  rewrite !(calculatePeriod_to_clock h1 h2 trades _ Hno). reflexivity.
Qed.

Lemma weeklyData_same_day
      (h1 h2 : PeriodsComparison.Host) (trades : list Trade) :
  PeriodsComparison.tz h1 = PeriodsComparison.tz h2 ->
  localDay h1 = localDay h2 ->
  WeeklyChart.weeklyData h1 trades = WeeklyChart.weeklyData h2 trades.
Proof.
  intros Htz Hday.
  destruct (same_day_same_calendar h1 h2 Htz Hday) as (_ & Hw & _).
  unfold WeeklyChart.weeklyData. apply map_ext. intro i.
  unfold WeeklyChart.dayRow, WeeklyChart.toLocaleDateString. cbv zeta.
  rewrite !monday_is_thisWeekStart, Hw, Htz. reflexivity.
Qed.

Lemma profits_same_day
      (h1 h2 : PeriodsComparison.Host) (trades : list Trade) :
  PeriodsComparison.tz h1 = PeriodsComparison.tz h2 ->
  localDay h1 = localDay h2 ->
  GoalTracker.profits h1 trades = GoalTracker.profits h2 trades.
Proof.
  intros Htz Hday.
  destruct (same_day_same_fields h1 h2 Htz Hday) as (Ht & Hg & Hy & Hm).
  unfold GoalTracker.profits, GoalTracker.weekStart, GoalTracker.monthStart,
    PeriodsComparison.newDate.
  rewrite Ht, Hg, Hy, Hm, Htz. reflexivity.
Qed.

Lemma midnight_same_zone (h1 h2 : PeriodsComparison.Host) (x : Z) :
  PeriodsComparison.tz h1 = PeriodsComparison.tz h2 ->
  DailyStats.midnight h1 x = DailyStats.midnight h2 x.
Proof. intro Htz. unfold DailyStats.midnight. rewrite Htz. reflexivity. Qed.

Lemma dailyTrades_same_day
      (h1 h2 : PeriodsComparison.Host) (trades : list Trade) :
  PeriodsComparison.tz h1 = PeriodsComparison.tz h2 ->
  localDay h1 = localDay h2 ->
  DailyStats.todaysTrades h1 trades = DailyStats.todaysTrades h2 trades
  /\ DailyStats.yesterdaysTrades h1 trades
     = DailyStats.yesterdaysTrades h2 trades
  /\ Dashboard.todaysTrades h1 trades = Dashboard.todaysTrades h2 trades.
Proof.
  intros Htz Hday.
  destruct (same_day_same_calendar h1 h2 Htz Hday) as (Ht & _).
  assert (Hd : DailyStats.today h1 = DailyStats.today h2) by exact Ht.
  unfold DailyStats.todaysTrades, DailyStats.yesterdaysTrades,
    DailyStats.yesterday, Dashboard.todaysTrades.
  fold (DailyStats.today h1). fold (DailyStats.today h2). rewrite Hd.
  repeat split; apply filter_ext; intro t;
    rewrite (midnight_same_zone h1 h2 _ Htz); reflexivity.
Qed.

(** The trade closed at local midnight of a host's day is one of today's
    trades for that host and for no host of the same zone whose clock
    reads another day. *)
Lemma midnight_of_today (h : PeriodsComparison.Host) :
  DailyStats.midnight h (PeriodsComparison.today h)
  = PeriodsComparison.today h.
Proof.
  unfold DailyStats.midnight. rewrite today_of_localDay.
  replace (localDay h * PeriodsComparison.day_ms - PeriodsComparison.tz h
           + PeriodsComparison.tz h)%Z
    with (localDay h * PeriodsComparison.day_ms)%Z by ring.
  rewrite Z.div_mul by discriminate. reflexivity.
Qed.

Lemma todayRow_count_one (h h' : PeriodsComparison.Host) :
  PeriodsComparison.trades_count
    (PeriodsComparison.todayRow h' [closedAtMidnight h])
  = if ((PeriodsComparison.today h' <=? PeriodsComparison.today h)%Z
        && (PeriodsComparison.today h
            <? PeriodsComparison.today h' + PeriodsComparison.day_ms)%Z)%bool
    then 1%nat else 0%nat.
Proof.
  unfold PeriodsComparison.todayRow, PeriodsComparison.entry,
    PeriodsComparison.calculatePeriod, closedAtMidnight.
  cbn [PeriodsComparison.trades_count PeriodsComparison.p_total filter time].
  destruct ((_ <=? _)%Z && (_ <? _)%Z)%bool; reflexivity.
Qed.

Lemma todayRow_tells_the_day (h1 h2 : PeriodsComparison.Host) :
  PeriodsComparison.tz h1 = PeriodsComparison.tz h2 ->
  (forall trades, PeriodsComparison.todayRow h1 trades
                  = PeriodsComparison.todayRow h2 trades) ->
  localDay h1 = localDay h2.
Proof.
  intros Htz H. specialize (H [closedAtMidnight h1]).
  apply (f_equal PeriodsComparison.trades_count) in H.
  rewrite !todayRow_count_one in H. rewrite !today_of_localDay in H.
  rewrite <- Htz in H. unfold PeriodsComparison.day_ms in H.
  destruct (Z.leb_spec (localDay h1 * 86400000 - PeriodsComparison.tz h1)
                       (localDay h1 * 86400000 - PeriodsComparison.tz h1));
    [|lia].
  destruct (Z.ltb_spec (localDay h1 * 86400000 - PeriodsComparison.tz h1)
                       (localDay h1 * 86400000 - PeriodsComparison.tz h1
                        + 86400000)); [|lia].
  destruct (Z.leb_spec (localDay h2 * 86400000 - PeriodsComparison.tz h1)
                       (localDay h1 * 86400000 - PeriodsComparison.tz h1));
    [|discriminate].
  destruct (Z.ltb_spec (localDay h1 * 86400000 - PeriodsComparison.tz h1)
                       (localDay h2 * 86400000 - PeriodsComparison.tz h1
                        + 86400000)); [|discriminate].
  lia.
Qed.

Lemma todaysTrades_tell_the_day (h1 h2 : PeriodsComparison.Host) :
  PeriodsComparison.tz h1 = PeriodsComparison.tz h2 ->
  (forall trades, DailyStats.todaysTrades h1 trades
                  = DailyStats.todaysTrades h2 trades) ->
  localDay h1 = localDay h2.
Proof.
  intros Htz H. specialize (H [closedAtMidnight h1]).
  unfold DailyStats.todaysTrades, DailyStats.today in H.
  cbn [filter closedAtMidnight time] in H.
  change (time (closedAtMidnight h1)) with (PeriodsComparison.today h1) in H.
  rewrite <- (midnight_same_zone h1 h2 _ Htz) in H.
  rewrite midnight_of_today in H.
  change (DailyStats.midnight h1 (PeriodsComparison.clock h1))
    with (PeriodsComparison.today h1) in H.
  change (DailyStats.midnight h2 (PeriodsComparison.clock h2))
    with (PeriodsComparison.today h2) in H.
  rewrite Z.eqb_refl in H.
  destruct (Z.eqb_spec (PeriodsComparison.today h1)
                       (PeriodsComparison.today h2)) as [E|N];
    [|discriminate].
  rewrite !today_of_localDay, Htz in E.
  unfold PeriodsComparison.day_ms in E. lia.
Qed.

(** The draws DurationChart reads: one for each trade without an entry
    time. *)
Lemma duration_points_from_ext
      (draws1 draws2 : nat -> Q) (ts : list DurationChart.TimedTrade)
      (i : nat) :
  (forall j, (i <= j < i + List.length (untimed ts))%nat ->
             draws1 j = draws2 j) ->
  DurationChart.points_from draws1 i ts
  = DurationChart.points_from draws2 i ts.
Proof.
  revert i. induction ts as [|t ts IH]; intros i H; [reflexivity|].
  cbn [DurationChart.points_from]. cbv zeta.
  unfold untimed in H. cbn [filter] in H. fold (untimed ts) in H.
  unfold DurationChart.point.
  destruct (DurationChart.entry_time t) as [e|].
  - rewrite (IH i H). reflexivity.
  - cbn [List.length] in H.
    rewrite (H i) by lia.
    rewrite (IH (S i)); [reflexivity|].
    intros j Hj. apply H. lia.
Qed.

Lemma mae_points_without_mae
      (draws1 draws2 : nat -> Q) (ts : list Trade) (i j : nat) :
  map withoutMae (fst (MAEMFEChart.points_from draws1 i ts))
  = map withoutMae (fst (MAEMFEChart.points_from draws2 j ts))
  /\ map withoutMae (snd (MAEMFEChart.points_from draws1 i ts))
     = map withoutMae (snd (MAEMFEChart.points_from draws2 j ts)).
Proof.
  revert i j. induction ts as [|t ts IH]; intros i j;
    [split; reflexivity|].
  cbn [MAEMFEChart.points_from]. cbv zeta.
  destruct (IH (S i) (S j)) as [IH1 IH2].
  destruct (MAEMFEChart.points_from draws1 (S i) ts) as [ws1 ls1].
  destruct (MAEMFEChart.points_from draws2 (S j) ts) as [ws2 ls2].
  cbn [fst snd] in IH1, IH2.
  unfold MAEMFEChart.point. cbn [MAEMFEChart.isWinner].
  destruct (Qgtb (net_profit t) 0); cbn [fst snd map withoutMae
    MAEMFEChart.pips MAEMFEChart.profit MAEMFEChart.isWinner];
    rewrite ?IH1, ?IH2; split; reflexivity.
Qed.

Lemma duration_points_without_duration
      (draws1 draws2 : nat -> Q) (ts : list DurationChart.TimedTrade)
      (i j : nat) :
  map withoutDuration (fst (DurationChart.points_from draws1 i ts))
  = map withoutDuration (fst (DurationChart.points_from draws2 j ts))
  /\ map withoutDuration (snd (DurationChart.points_from draws1 i ts))
     = map withoutDuration (snd (DurationChart.points_from draws2 j ts)).
Proof.
  revert i j. induction ts as [|t ts IH]; intros i j;
    [split; reflexivity|].
  cbn [DurationChart.points_from]. cbv zeta.
  set (ni := match DurationChart.entry_time t with
             | Some _ => i | None => S i end).
  set (nj := match DurationChart.entry_time t with
             | Some _ => j | None => S j end).
  destruct (IH ni nj) as [IH1 IH2].
  destruct (DurationChart.points_from draws1 ni ts) as [ws1 ls1].
  destruct (DurationChart.points_from draws2 nj ts) as [ws2 ls2].
  cbn [fst snd] in IH1, IH2.
  unfold DurationChart.point. cbv zeta. cbn [DurationChart.isWinner].
  destruct (Qgtb (net_profit (DurationChart.closed t)) 0);
    cbn [fst snd map withoutDuration DurationChart.growth
         DurationChart.profit DurationChart.isWinner];
    rewrite ?IH1, ?IH2; split; reflexivity.
Qed.

(** C9, as amended.  The components are functions of their props together
    with what they sample themselves; [now] is not supplied by the caller
    and two charts draw random numbers.  On a host with a fixed offset from
    UTC:
    - two clock readings give the same 'Today' row of PeriodsComparison for
      every trade list exactly when they fall on the same local day, and
      likewise the same today's trades of DailyStats;
    - on the same local day they also give the same yesterday's trades,
      the same Daily tab of the page, the same WeeklyChart rows and
      GoalTracker profits, and the same four rows of PeriodsComparison
      when no trade closes between the two readings (its week, month and
      year windows end at the reading itself);
    - MAEMFEChart reads one draw per trade and DurationChart one per trade
      without an entry time: the same draws give the same points, and
      whatever the draws only [mae], and the duration with its label, can
      differ. *)
Theorem outputs_fixed_by_trades_clock_and_draws
        (h1 h2 : PeriodsComparison.Host) :
  PeriodsComparison.tz h1 = PeriodsComparison.tz h2 ->
  (localDay h1 = localDay h2
   <-> forall trades, PeriodsComparison.todayRow h1 trades
                      = PeriodsComparison.todayRow h2 trades)
  /\ (localDay h1 = localDay h2
      <-> forall trades, DailyStats.todaysTrades h1 trades
                         = DailyStats.todaysTrades h2 trades)
  /\ (localDay h1 = localDay h2 ->
      forall trades,
        DailyStats.yesterdaysTrades h1 trades
        = DailyStats.yesterdaysTrades h2 trades
        /\ Dashboard.todaysTrades h1 trades = Dashboard.todaysTrades h2 trades
        /\ WeeklyChart.weeklyData h1 trades = WeeklyChart.weeklyData h2 trades
        /\ GoalTracker.profits h1 trades = GoalTracker.profits h2 trades
        /\ (noCloseBetween h1 h2 trades ->
            PeriodsComparison.periodsData h1 trades
            = PeriodsComparison.periodsData h2 trades))
  /\ (forall (trades : list Trade) (draws1 draws2 : nat -> Q),
        ((forall i, (i < List.length trades)%nat -> draws1 i = draws2 i) ->
         MAEMFEChart.points draws1 trades = MAEMFEChart.points draws2 trades)
        /\ map withoutMae (fst (MAEMFEChart.points draws1 trades))
           = map withoutMae (fst (MAEMFEChart.points draws2 trades))
        /\ map withoutMae (snd (MAEMFEChart.points draws1 trades))
           = map withoutMae (snd (MAEMFEChart.points draws2 trades)))
  /\ (forall (trades : list DurationChart.TimedTrade)
             (draws1 draws2 : nat -> Q),
        ((forall i, (i < List.length (untimed trades))%nat ->
                    draws1 i = draws2 i) ->
         DurationChart.points draws1 trades
         = DurationChart.points draws2 trades)
        /\ map withoutDuration (fst (DurationChart.points draws1 trades))
           = map withoutDuration (fst (DurationChart.points draws2 trades))
        /\ map withoutDuration (snd (DurationChart.points draws1 trades))
           = map withoutDuration (snd (DurationChart.points draws2 trades))).
Proof.
  intro Htz.
  split; [|split; [|split; [|split]]].
  - split.
    + intros Hday trades.
      destruct (same_day_same_calendar h1 h2 Htz Hday) as (Ht & _).
      unfold PeriodsComparison.todayRow. rewrite Ht. reflexivity.
    + apply todayRow_tells_the_day, Htz.
  - split.
    + intros Hday trades. apply (dailyTrades_same_day h1 h2 trades Htz Hday).
    + apply todaysTrades_tell_the_day, Htz.
  - intros Hday trades.
    destruct (dailyTrades_same_day h1 h2 trades Htz Hday) as (_ & Hy & Hp).
    split; [exact Hy|]. split; [exact Hp|].
    split; [apply weeklyData_same_day; assumption|].
    split; [apply profits_same_day; assumption|].
    apply periodsData_same_day; assumption.
  - intros trades draws1 draws2. split.
    + intro Hd. unfold MAEMFEChart.points. apply points_from_ext.
      intros j Hj. apply Hd. lia.
    + unfold MAEMFEChart.points. apply mae_points_without_mae.
  - intros trades draws1 draws2. split.
    + intro Hd. unfold DurationChart.points. apply duration_points_from_ext.
      intros j Hj. apply Hd. lia.
    + unfold DurationChart.points. apply duration_points_without_duration.
Qed.

Lemma outputs_fixed_by_trades_clock_and_draws_witness :
  PeriodsComparison.tz wednesday_morning
  = PeriodsComparison.tz wednesday_afternoon
  /\ localDay wednesday_morning = localDay wednesday_afternoon
  /\ noCloseBetween wednesday_morning wednesday_afternoon that_week
  /\ PeriodsComparison.periodsData wednesday_morning that_week
     = PeriodsComparison.periodsData wednesday_afternoon that_week
  /\ WeeklyChart.weeklyData wednesday_morning that_week
     = WeeklyChart.weeklyData wednesday_afternoon that_week
  /\ DurationChart.points (fun _ => 1 # 2) that_week_timed
     = DurationChart.points (fun i => if (i <? 1)%nat then 1 # 2 else 0)
                            that_week_timed.
Proof.
  pose proof (outputs_fixed_by_trades_clock_and_draws
                wednesday_morning wednesday_afternoon eq_refl)
    as (_ & _ & Hsame & _ & Hdur).
  assert (Hno : noCloseBetween wednesday_morning wednesday_afternoon
                               that_week).
  { repeat constructor; cbn; intros [H1 H2]; vm_compute in H1;
      try (apply H1; reflexivity); vm_compute in H2; discriminate. }
  split; [reflexivity|]. split; [reflexivity|]. split; [exact Hno|].
  destruct (Hsame eq_refl that_week) as (_ & _ & Hweek & _ & Hrows).
  split; [exact (Hrows Hno)|]. split; [exact Hweek|].
  apply (Hdur that_week_timed). intros i Hi.
  change (List.length (untimed that_week_timed)) with 1%nat in Hi.
  apply Nat.ltb_lt in Hi. rewrite Hi. reflexivity.
Defined.

(** ** RiskModel: the range of the edge *)

Lemma negativeReturns_length (ib : Q) (ts : list Trade) :
  0 < ib ->
  List.length (negativeReturns ib ts) = List.length (losses ts).
Proof.
  intro Hib. unfold negativeReturns, losses.
  induction ts as [|t ts IH]; [reflexivity|].
  cbn [map filter]. destruct (returnPct_sign ib t Hib) as [_ ->].
  destruct (Qltb (net_profit t) 0); cbn [List.length]; rewrite IH; reflexivity.
Qed.

Lemma abs_average_negative (x : Q) (l : list Q) (a : Q) :
  Forall (fun q => q < 0) (x :: l) ->
  JS.abs (JS.div (JS.sum (Fin 0) (map Fin (x :: l)))
                 (Fin (RiskModel.count (map Fin (x :: l))))) = Fin a ->
  0 < a.
Proof.
  intros Hall. set (xs := x :: l) in *.
  assert (Hne : map Fin xs <> []) by discriminate.
  assert (Hx : xs <> []) by discriminate.
  pose proof (count_pos _ Hne) as Hc.
  destruct (fold_Qplus_strict xs Hx) as [_ Hn]. specialize (Hn Hall).
  rewrite sum_Fin.
  set (s := fold_left Qplus xs 0) in *.
  set (c := RiskModel.count (map Fin xs)) in *.
  assert (Hz : Qeq_bool c 0 = false) by (apply Qeq_bool_false; lra).
  unfold JS.div. rewrite Hz. unfold JS.abs.
  intro H.
  assert (Ea : Qabs (s / c) = a) by congruence.
  assert (Hq : s / c < 0) by (apply Qlt_shift_div_r; lra).
  assert (Ha : Qabs (s / c) == - (s / c)) by (apply Qabs_neg; lra).
  rewrite <- Ea. lra.
Qed.

(** X20.  On a positive initial balance the break-even win rate of
    RiskModel lies between 0 and 100 and the edge, the win rate less the
    break-even win rate, between -100 and 100.  The ends are reached: a
    history with a losing trade and no winning one has a break-even win
    rate of 100 and an edge of -100; one with a winning trade and no losing
    one has a break-even win rate of 0 and a positive edge, its win rate. *)
Theorem edge_between_minus_100_and_100
        (initialBalance : Q) (trades : list Trade) (m : RiskModel.Metrics) :
  RiskModel.riskMetrics initialBalance trades = Some m ->
  0 < initialBalance ->
  exists be e,
    RiskModel.breakEvenWinRate m = Fin be
    /\ RiskModel.edge m = Fin e
    /\ 0 <= be <= 100
    /\ -(100) <= e <= 100
    /\ (wins trades = [] -> losses trades <> [] ->
        be == 100 /\ e == -(100))
    /\ (losses trades = [] -> wins trades <> [] ->
        be == 0 /\ e == RiskModel.winRate m /\ 0 < e).
Proof.
  intros Hm Hib.
  assert (Hib' : ~ initialBalance == 0) by lra.
  destruct (avgWinPct_finite _ _ _ Hm Hib') as (aw & Haw & Haw0).
  destruct (avgLossPct_finite _ _ _ Hm Hib') as (al & Hal & Hal0 & _).
  pose proof (winRate_fraction_bounds _ _ _ Hm) as [HW0 HW1].
  set (W := RiskModel.winRate m) in *.
  assert (HW : 0 <= W <= 100)
    by (assert (W == W / 100 * 100) by field; split; lra).
  (* what the lists of returns are when one side is empty *)
  assert (Hnowin : wins trades = [] -> aw == 0 /\ W == 0).
  { intro Hw.
    assert (Hp : positiveReturns initialBalance trades = []).
    { apply length_zero_iff_nil.
      rewrite (positiveReturns_length _ _ Hib), Hw. reflexivity. }
    split.
    - rewrite (avgWinPct_eq _ _ _ Hm), (winReturns_finite _ _ Hib'), Hp in Haw.
      injection Haw as <-. reflexivity.
    - unfold W. rewrite (winRate_eq _ _ _ Hm), (winReturns_finite _ _ Hib'), Hp.
      change (RiskModel.count (map Fin [])) with 0. unfold Qdiv. ring. }
  assert (Hnoloss : losses trades = [] -> al == 0).
  { intro Hl.
    assert (Hn : negativeReturns initialBalance trades = []).
    { apply length_zero_iff_nil.
      rewrite (negativeReturns_length _ _ Hib), Hl. reflexivity. }
    rewrite (avgLossPct_eq _ _ _ Hm), (lossReturns_finite _ _ Hib'), Hn in Hal.
    injection Hal as <-. reflexivity. }
  assert (Hwin : wins trades <> [] -> 0 < aw /\ 0 < W).
  { intro Hw.
    assert (Hlen : (0 < List.length (positiveReturns initialBalance trades))%nat).
    { rewrite (positiveReturns_length _ _ Hib).
      destruct (wins trades); [congruence|cbn; lia]. }
    pose proof (filter_pos_Forall (map (returnPct initialBalance) trades))
      as Hp.
    fold (positiveReturns initialBalance trades) in Hp.
    split.
    - rewrite (avgWinPct_eq _ _ _ Hm), (winReturns_finite _ _ Hib') in Haw.
      destruct (positiveReturns initialBalance trades) as [|x l];
        [cbn in Hlen; lia|].
      apply (average_positive x l aw Hp Haw).
    - unfold W. rewrite (winRate_eq _ _ _ Hm), (winReturns_finite _ _ Hib').
      pose proof (count_pos trades (trades_nonempty _ _ _ Hm)) as Hc.
      assert (Hcw : 0 < RiskModel.count
                          (map Fin (positiveReturns initialBalance trades))).
      { apply count_pos. destruct (positiveReturns initialBalance trades);
          [cbn in Hlen; lia|discriminate]. }
      apply Qmult_lt_0_compat; [|lra].
      apply Qlt_shift_div_l; lra. }
  assert (Hloss : losses trades <> [] -> 0 < al).
  { intro Hl.
    assert (Hlen : (0 < List.length (negativeReturns initialBalance trades))%nat).
    { rewrite (negativeReturns_length _ _ Hib).
      destruct (losses trades); [congruence|cbn; lia]. }
    pose proof (filter_neg_Forall (map (returnPct initialBalance) trades))
      as Hn.
    fold (negativeReturns initialBalance trades) in Hn.
    rewrite (avgLossPct_eq _ _ _ Hm), (lossReturns_finite _ _ Hib') in Hal.
    destruct (negativeReturns initialBalance trades) as [|x l];
      [cbn in Hlen; lia|].
    apply (abs_average_negative x l al Hn Hal). }
  rewrite (edge_eq _ _ _ Hm), (breakEvenWinRate_eq _ _ _ Hm), Haw, Hal.
  fold W. unfold JS.gt. cbn [JS.add JS.lt].
  destruct (Qltb 0 (aw + al)) eqn:S; qcases.
  - assert (Hz : Qeq_bool (aw + al) 0 = false) by (apply Qeq_bool_false; lra).
    cbn [JS.div]. rewrite Hz. cbn [JS.mul JS.sub].
    set (r := al / (aw + al)).
    assert (Hr0 : 0 <= r) by (apply Qle_shift_div_l; lra).
    assert (Hr1 : r <= 1) by (apply Qle_shift_div_r; lra).
    exists (r * 100), (W - r * 100).
    split; [reflexivity|]. split; [reflexivity|].
    split; [split; lra|]. split; [split; lra|]. split.
    + intros Hw Hl. destruct (Hnowin Hw) as [Ha HW']. specialize (Hloss Hl).
      assert (Hr : r == 1) by (unfold r; rewrite Ha; field; lra).
      split; lra.
    + intros Hl Hw. specialize (Hnoloss Hl). destruct (Hwin Hw) as [Ha HW'].
      assert (Hr : r == 0) by (unfold r; rewrite Hnoloss; field; lra).
      split; [lra|]. split; lra.
  - cbn [JS.sub]. exists 50, (W - 50).
    split; [reflexivity|]. split; [reflexivity|].
    split; [split; lra|]. split; [split; lra|]. split.
    + intros _ Hl. specialize (Hloss Hl). lra.
    + intros _ Hw. destruct (Hwin Hw) as [Ha _]. lra.
Qed.

Lemma edge_between_minus_100_and_100_witness :
  exists be e,
    RiskModel.breakEvenWinRate (RiskModel.computeMetrics 1000 usual_loss)
    = Fin be
    /\ RiskModel.edge (RiskModel.computeMetrics 1000 usual_loss) = Fin e
    /\ 0 <= be <= 100
    /\ -(100) <= e <= 100
    /\ (wins usual_loss = [] -> losses usual_loss <> [] ->
        be == 100 /\ e == -(100))
    /\ (losses usual_loss = [] -> wins usual_loss <> [] ->
        be == 0
        /\ e == RiskModel.winRate (RiskModel.computeMetrics 1000 usual_loss)
        /\ 0 < e).
Proof.
  apply (edge_between_minus_100_and_100 1000 usual_loss);
    reflexivity.
Defined.
